(** * Homu merge-queue bot: a shallow embedding of [homu/main.py]

    The development follows the Python source function by function.
    Python [str] values are modelled as Rocq strings, one [ascii] per
    character, so the characters covered are the code points 0..255.
    Mutable objects are passed explicitly: the [PullReqState] object, the
    relational store, the calls made on the hosting platform and on the
    session CI, and the one-cell build slot. *)

From Stdlib Require Import ZArith Ascii String List Lia Bool DecimalString
  Sorted.
From stdpp Require Import base gmap strings list fin_maps.

(** ** Python string primitives *)

Module PyStr.

Definition nl : string := String "010"%char "".
Definition dquote : string := String "034"%char "".

(** Truth value of a [str]: empty is false. *)
Definition truthy (s : string) : bool :=
  match s with "" => false | _ => true end.

Definition code (c : ascii) : N := N_of_ascii c.

(** [str.isspace] and the regex class [\s] on code points below 256. *)
Definition is_space (c : ascii) : bool :=
  let n := code c in
  ((9 <=? n) && (n <=? 13) || (28 <=? n) && (n <=? 32)
   || (n =? 133) || (n =? 160))%N.

(** Line boundaries of [str.splitlines] on code points below 256. *)
Definition is_linebreak (c : ascii) : bool :=
  let n := code c in
  ((10 <=? n) && (n <=? 13) || (28 <=? n) && (n <=? 30) || (n =? 133))%N.

Definition is_cr (c : ascii) : bool := (code c =? 13)%N.
Definition is_lf (c : ascii) : bool := (code c =? 10)%N.

Definition is_digit (c : ascii) : bool :=
  let n := code c in ((48 <=? n) && (n <=? 57))%N.

(** The class [[0-9a-f]]. *)
Definition is_hex (c : ascii) : bool :=
  let n := code c in
  ((48 <=? n) && (n <=? 57) || (97 <=? n) && (n <=? 102))%N.

(** [s[n:]] *)
Fixpoint slice_from (n : nat) (s : string) : string :=
  match n, s with
  | O, _ => s
  | S _, "" => ""
  | S n', String _ s' => slice_from n' s'
  end.

(** [s[:n]], also the format [{:.n}] *)
Definition slice_to (n : nat) (s : string) : string := String.substring 0 n s.

(** [s.startswith(p)] *)
Definition startswith (p s : string) : bool := String.prefix p s.

(** [sub in s] *)
Fixpoint contains (sub s : string) : bool :=
  String.prefix sub s ||
  match s with "" => false | String _ s' => contains sub s' end.

(** [s.splitlines()]: [cur] holds the current line reversed. *)
Fixpoint splitlines_go (cur : string) (s : string) : list string :=
  match s with
  | "" => if truthy cur then [String.rev cur] else []
  | String c s' =>
      if is_linebreak c then
        String.rev cur ::
          match s' with
          | String c' s'' =>
              if is_cr c && is_lf c' then splitlines_go "" s''
              else splitlines_go "" s'
          | "" => []
          end
      else splitlines_go (String c cur) s'
  end.
Definition splitlines (s : string) : list string := splitlines_go "" s.

(** [re.findall(r'\S+', s)]: the maximal runs of non-space characters. *)
Fixpoint findall_nonspace_go (cur : string) (s : string) : list string :=
  match s with
  | "" => if truthy cur then [String.rev cur] else []
  | String c s' =>
      if is_space c then
        (if truthy cur then [String.rev cur] else [])
          ++ findall_nonspace_go "" s'
      else findall_nonspace_go (String c cur) s'
  end.
Definition findall_nonspace (s : string) : list string :=
  findall_nonspace_go "" s.

(** [s.lstrip()], [s.rstrip()], [s.strip()] *)
Fixpoint lstrip (s : string) : string :=
  match s with
  | String c s' => if is_space c then lstrip s' else s
  | "" => ""
  end.
Definition strip (s : string) : string :=
  String.rev (lstrip (String.rev (lstrip s))).

(** The suffix of [s] after the first occurrence of [pat]. *)
Fixpoint after_first (pat s : string) : option string :=
  if String.prefix pat s then Some (slice_from (String.length pat) s)
  else match s with
       | "" => None
       | String _ s' => after_first pat s'
       end.

(** The prefix of [s] before the first occurrence of [pat]. *)
Fixpoint before_first (pat s : string) : option string :=
  if String.prefix pat s then Some ""
  else match s with
       | "" => None
       | String c s' => String c <$> before_first pat s'
       end.

(** [re.search('(?s)' + open + '(.*?)' + close, s).group(1)] for literal
    [open] and [close]: the leftmost [open], then the nearest [close]. *)
Definition search_between (open close s : string) : option string :=
  after_first open s ≫= before_first close.

(** Decimal digits with single underscores between them, as [int]
    accepts them (Python 3.6 and later). *)
Fixpoint int_digits (acc : Z) (after_digit : bool) (s : string) : option Z :=
  match s with
  | "" => if after_digit then Some acc else None
  | String c s' =>
      if is_digit c then
        int_digits (10 * acc + (Z.of_N (code c) - 48)) true s'
      else if Ascii.eqb c "_" then
        (if after_digit then int_digits acc false s' else None)
      else None
  end.

(** [int(s)]; [None] stands for [ValueError]. *)
Definition int (s : string) : option Z :=
  match strip s with
  | String "+" r => int_digits 0 false r
  | String "-" r => Z.opp <$> int_digits 0 false r
  | r => int_digits 0 false r
  end.

(** [str(n)] for an integer. *)
Definition of_Z (n : Z) : string := NilZero.string_of_int (Z.to_int n).

End PyStr.

(** ** Entities *)

(** One entry of [PullReqState.build_res]: [{'res': ..., 'url': ...}];
    [res] is [None] while the builder runs. *)
Record build_info := BuildInfo { res : option bool; url : string }.

(** The attributes of a [PullReqState] object that the core reads or
    writes.  [mergeable] is [None] while the platform has not answered. *)
Record PullReqState := {
  num : Z;
  priority : Z;
  rollup : bool;
  title : string;
  body : string;
  head_ref : string;
  base_ref : string;
  assignee : string;
  head_sha : string;
  approved_by : string;
  status : string;
  merge_sha : string;
  build_res : gmap string build_info;
  try_ : bool;
  mergeable : option bool;
  repo_label : string;
  owner : string;
  name : string;
}.

Definition with_head_sha (v : string) (st : PullReqState) : PullReqState :=
  {| num := num st; priority := priority st; rollup := rollup st;
     title := title st; body := body st; head_ref := head_ref st;
     base_ref := base_ref st; assignee := assignee st; head_sha := v;
     approved_by := approved_by st; status := status st;
     merge_sha := merge_sha st; build_res := build_res st; try_ := try_ st;
     mergeable := mergeable st; repo_label := repo_label st;
     owner := owner st; name := name st |}.

Definition with_approved_by (v : string) (st : PullReqState) : PullReqState :=
  {| num := num st; priority := priority st; rollup := rollup st;
     title := title st; body := body st; head_ref := head_ref st;
     base_ref := base_ref st; assignee := assignee st; head_sha := head_sha st;
     approved_by := v; status := status st;
     merge_sha := merge_sha st; build_res := build_res st; try_ := try_ st;
     mergeable := mergeable st; repo_label := repo_label st;
     owner := owner st; name := name st |}.

Definition with_status (v : string) (st : PullReqState) : PullReqState :=
  {| num := num st; priority := priority st; rollup := rollup st;
     title := title st; body := body st; head_ref := head_ref st;
     base_ref := base_ref st; assignee := assignee st; head_sha := head_sha st;
     approved_by := approved_by st; status := v;
     merge_sha := merge_sha st; build_res := build_res st; try_ := try_ st;
     mergeable := mergeable st; repo_label := repo_label st;
     owner := owner st; name := name st |}.

Definition with_merge_sha (v : string) (st : PullReqState) : PullReqState :=
  {| num := num st; priority := priority st; rollup := rollup st;
     title := title st; body := body st; head_ref := head_ref st;
     base_ref := base_ref st; assignee := assignee st; head_sha := head_sha st;
     approved_by := approved_by st; status := status st;
     merge_sha := v; build_res := build_res st; try_ := try_ st;
     mergeable := mergeable st; repo_label := repo_label st;
     owner := owner st; name := name st |}.

Definition with_build_res (v : gmap string build_info) (st : PullReqState)
    : PullReqState :=
  {| num := num st; priority := priority st; rollup := rollup st;
     title := title st; body := body st; head_ref := head_ref st;
     base_ref := base_ref st; assignee := assignee st; head_sha := head_sha st;
     approved_by := approved_by st; status := status st;
     merge_sha := merge_sha st; build_res := v; try_ := try_ st;
     mergeable := mergeable st; repo_label := repo_label st;
     owner := owner st; name := name st |}.

Definition with_try_ (v : bool) (st : PullReqState) : PullReqState :=
  {| num := num st; priority := priority st; rollup := rollup st;
     title := title st; body := body st; head_ref := head_ref st;
     base_ref := base_ref st; assignee := assignee st; head_sha := head_sha st;
     approved_by := approved_by st; status := status st;
     merge_sha := merge_sha st; build_res := build_res st; try_ := v;
     mergeable := mergeable st; repo_label := repo_label st;
     owner := owner st; name := name st |}.

Definition with_mergeable (v : option bool) (st : PullReqState) : PullReqState :=
  {| num := num st; priority := priority st; rollup := rollup st;
     title := title st; body := body st; head_ref := head_ref st;
     base_ref := base_ref st; assignee := assignee st; head_sha := head_sha st;
     approved_by := approved_by st; status := status st;
     merge_sha := merge_sha st; build_res := build_res st; try_ := try_ st;
     mergeable := v; repo_label := repo_label st;
     owner := owner st; name := name st |}.

Definition with_priority (v : Z) (st : PullReqState) : PullReqState :=
  {| num := num st; priority := v; rollup := rollup st;
     title := title st; body := body st; head_ref := head_ref st;
     base_ref := base_ref st; assignee := assignee st; head_sha := head_sha st;
     approved_by := approved_by st; status := status st;
     merge_sha := merge_sha st; build_res := build_res st; try_ := try_ st;
     mergeable := mergeable st; repo_label := repo_label st;
     owner := owner st; name := name st |}.

Definition with_rollup (v : bool) (st : PullReqState) : PullReqState :=
  {| num := num st; priority := priority st; rollup := v;
     title := title st; body := body st; head_ref := head_ref st;
     base_ref := base_ref st; assignee := assignee st; head_sha := head_sha st;
     approved_by := approved_by st; status := status st;
     merge_sha := merge_sha st; build_res := build_res st; try_ := try_ st;
     mergeable := mergeable st; repo_label := repo_label st;
     owner := owner st; name := name st |}.

(** [title], [body], [head_ref], [base_ref] and [assignee] are assigned
    together after construction and by [refresh]. *)
Definition with_texts (t b hr br a : string) (st : PullReqState) : PullReqState :=
  {| num := num st; priority := priority st; rollup := rollup st;
     title := t; body := b; head_ref := hr;
     base_ref := br; assignee := a; head_sha := head_sha st;
     approved_by := approved_by st; status := status st;
     merge_sha := merge_sha st; build_res := build_res st; try_ := try_ st;
     mergeable := mergeable st; repo_label := repo_label st;
     owner := owner st; name := name st |}.

(** ** Repository configuration *)

Record buildbot_cfg := {
  bb_url : string;
  bb_username : string;
  bb_password : string;
  bb_builders : list string;
  bb_try_builders : option (list string);
}.

(** One entry of [cfg['repo']].  [travis] and [status_ci] record the
    presence of the key; [testrunners] holds
    [repo_cfg['testrunners'].get('builders', [])] when the key is present;
    [branch] is [repo_cfg.get('branch', {})]. *)
Record repo_cfg := {
  cfg_owner : string;
  cfg_name : string;
  reviewers : list string;
  buildbot : option buildbot_cfg;
  travis : bool;
  status_ci : bool;
  testrunners : option (list string);
  branch : gmap string string;
}.

(** ** The relational store *)

Record pull_row := {
  row_status : string;
  row_merge_sha : string;
  row_title : string;
  row_body : string;
  row_head_sha : string;
  row_head_ref : string;
  row_base_ref : string;
  row_assignee : string;
  row_approved_by : string;
  row_priority : Z;
  row_try_ : bool;
  row_rollup : bool;
}.

Record build_res_row := {
  br_res : option bool;
  br_url : string;
  br_merge_sha : string;
}.

Record Database := {
  tbl_pull : gmap (string * Z) pull_row;
  tbl_build_res : gmap (string * Z * string) build_res_row;
  tbl_mergeable : gmap (string * Z) bool;
}.

(** The statements the core sends to the store. *)
Inductive sql :=
| UpdatePullStatus (st_ : string) (repo : string) (n : Z)
| UpdatePullMergeSha (sha : string) (repo : string) (n : Z)
| ReplacePull (repo : string) (n : Z) (row : pull_row)
| ReplaceMergeable (repo : string) (n : Z) (m : bool)
| DeleteMergeable (repo : string) (n : Z)
| DeleteBuildRes (repo : string) (n : Z)
| DeleteBuildResRow (repo : string) (n : Z) (builder : string)
| ReplaceBuildRes (repo : string) (n : Z) (builder : string)
    (row : build_res_row).

Definition row_with_status (v : string) (r : pull_row) : pull_row :=
  {| row_status := v; row_merge_sha := row_merge_sha r;
     row_title := row_title r; row_body := row_body r;
     row_head_sha := row_head_sha r; row_head_ref := row_head_ref r;
     row_base_ref := row_base_ref r; row_assignee := row_assignee r;
     row_approved_by := row_approved_by r; row_priority := row_priority r;
     row_try_ := row_try_ r; row_rollup := row_rollup r |}.

Definition row_with_merge_sha (v : string) (r : pull_row) : pull_row :=
  {| row_status := row_status r; row_merge_sha := v;
     row_title := row_title r; row_body := row_body r;
     row_head_sha := row_head_sha r; row_head_ref := row_head_ref r;
     row_base_ref := row_base_ref r; row_assignee := row_assignee r;
     row_approved_by := row_approved_by r; row_priority := row_priority r;
     row_try_ := row_try_ r; row_rollup := row_rollup r |}.

(** [UPDATE] touches the rows that match and nothing else; [REPLACE INTO]
    puts the row under its key; [DELETE] removes the matching rows. *)
Definition execute (q : sql) (d : Database) : Database :=
  match q with
  | UpdatePullStatus v repo n =>
      {| tbl_pull := alter (row_with_status v) (repo, n) (tbl_pull d);
         tbl_build_res := tbl_build_res d; tbl_mergeable := tbl_mergeable d |}
  | UpdatePullMergeSha v repo n =>
      {| tbl_pull := alter (row_with_merge_sha v) (repo, n) (tbl_pull d);
         tbl_build_res := tbl_build_res d; tbl_mergeable := tbl_mergeable d |}
  | ReplacePull repo n row =>
      {| tbl_pull := <[(repo, n) := row]> (tbl_pull d);
         tbl_build_res := tbl_build_res d; tbl_mergeable := tbl_mergeable d |}
  | ReplaceMergeable repo n m =>
      {| tbl_pull := tbl_pull d; tbl_build_res := tbl_build_res d;
         tbl_mergeable := <[(repo, n) := m]> (tbl_mergeable d) |}
  | DeleteMergeable repo n =>
      {| tbl_pull := tbl_pull d; tbl_build_res := tbl_build_res d;
         tbl_mergeable := delete (repo, n) (tbl_mergeable d) |}
  | DeleteBuildRes repo n =>
      {| tbl_pull := tbl_pull d;
         tbl_build_res :=
           filter (λ kv : string * Z * string * build_res_row,
                     kv.1.1 ≠ (repo, n)) (tbl_build_res d);
         tbl_mergeable := tbl_mergeable d |}
  | DeleteBuildResRow repo n builder =>
      {| tbl_pull := tbl_pull d;
         tbl_build_res := delete (repo, n, builder) (tbl_build_res d);
         tbl_mergeable := tbl_mergeable d |}
  | ReplaceBuildRes repo n builder row =>
      {| tbl_pull := tbl_pull d;
         tbl_build_res := <[(repo, n, builder) := row]> (tbl_build_res d);
         tbl_mergeable := tbl_mergeable d |}
  end.

(** ** The world outside the entity *)

(** A descriptor of what plausibly changed the mergeability. *)
Record cause := { cause_title : string; cause_sha : string }.

(** Calls made on the hosting platform, on the session CI and on the
    logger, in the order they are made. *)
Inductive call :=
| CreateComment (repo : string) (n : Z) (text : string)
| SetRef (repo ref sha : string) (force : bool)
| MergeReq (repo base head message : string)
| CreateStatus (repo sha state target_url description context : string)
| SessPost (url : string) (data : list (string * string))
| SessGet (url : string)
| LoggerInfo (msg : string).

Record World := {
  db : Database;
  sql_log : list sql;
  calls : list call;
  mergeable_que : list (string * Z * option cause);
  buildbot_slots : string;
}.

Definition run_sql (q : sql) (w : World) : World :=
  {| db := execute q (db w); sql_log := sql_log w ++ [q];
     calls := calls w; mergeable_que := mergeable_que w;
     buildbot_slots := buildbot_slots w |}.

Definition do_call (c : call) (w : World) : World :=
  {| db := db w; sql_log := sql_log w; calls := calls w ++ [c];
     mergeable_que := mergeable_que w; buildbot_slots := buildbot_slots w |}.

Definition que_put (x : string * Z * option cause) (w : World) : World :=
  {| db := db w; sql_log := sql_log w; calls := calls w;
     mergeable_que := mergeable_que w ++ [x];
     buildbot_slots := buildbot_slots w |}.

Definition set_slot (v : string) (w : World) : World :=
  {| db := db w; sql_log := sql_log w; calls := calls w;
     mergeable_que := mergeable_que w; buildbot_slots := v |}.

(** What the platform and the session CI answer during one call of the
    core. *)
Inductive merge_answer :=
| MergeCommit (sha : string)
| MergeNothing
| MergeFails (code : Z).

Record Platform := {
  pf_pull_head_sha : string;
  pf_base_sha : string;
  pf_issue_title : string;
  pf_issue_body : string;
  pf_merge : merge_answer;
  pf_stop_text : string;
  pf_time : Z;
}.

(** ** Methods of [PullReqState] *)

Import PyStr.

(** [STATUS_TO_PRIORITY.get(s, -1)] *)
Definition STATUS_TO_PRIORITY (s : string) : Z :=
  if String.eqb s "success" then 0
  else if String.eqb s "pending" then 1
  else if String.eqb s "approved" then 2
  else if String.eqb s "" then 3
  else if String.eqb s "error" then 4
  else if String.eqb s "failure" then 5
  else (-1).

(** [mergeable is False] *)
Definition is_False (m : option bool) : bool :=
  match m with Some false => true | _ => false end.

Definition get_status (st : PullReqState) : string :=
  if String.eqb (status st) "" && truthy (approved_by st)
     && negb (is_False (mergeable st))
  then "approved" else status st.

Definition sort_key (st : PullReqState) : list Z :=
  [ STATUS_TO_PRIORITY (get_status st);
    if is_False (mergeable st) then 1 else 0;
    if truthy (approved_by st) then 0 else 1;
    if rollup st then 1 else 0;
    - priority st;
    num st ]%Z.

(** [a < b] on lists of integers: the first differing position decides,
    a proper prefix is smaller. *)
Fixpoint list_lt (a b : list Z) : bool :=
  match a, b with
  | _, [] => false
  | [], _ :: _ => true
  | x :: a', y :: b' =>
      if (x <? y)%Z then true
      else if (y <? x)%Z then false
      else list_lt a' b'
  end.

(** [PullReqState.__lt__] *)
Definition lt (self other : PullReqState) : bool :=
  list_lt (sort_key self) (sort_key other).

(** [sorted(l)]: the stable ascending arrangement under [__lt__], built
    by inserting each element behind the elements it is not smaller than. *)
Fixpoint sorted_insert (x : PullReqState) (l : list PullReqState)
    : list PullReqState :=
  match l with
  | [] => [x]
  | y :: l' => if lt x y then x :: l else y :: sorted_insert x l'
  end.

Definition sorted (l : list PullReqState) : list PullReqState :=
  foldl (λ acc x, sorted_insert x acc) [] l.

(** The row that [save] writes. *)
Definition row_of (st : PullReqState) : pull_row :=
  {| row_status := status st; row_merge_sha := merge_sha st;
     row_title := title st; row_body := body st;
     row_head_sha := head_sha st; row_head_ref := head_ref st;
     row_base_ref := base_ref st; row_assignee := assignee st;
     row_approved_by := approved_by st; row_priority := priority st;
     row_try_ := try_ st; row_rollup := rollup st |}.

Definition save (st : PullReqState) (w : World) : World :=
  run_sql (ReplacePull (repo_label st) (num st) (row_of st)) w.

Definition add_comment (text : string) (st : PullReqState) (w : World) : World :=
  do_call (CreateComment (repo_label st) (num st) text) w.

Definition set_status (v : string) (st : PullReqState) (w : World)
    : PullReqState * World :=
  let st := with_status v st in
  let w := run_sql (UpdatePullStatus (status st) (repo_label st) (num st)) w in
  if negb (try_ st) then
    (st, run_sql (UpdatePullMergeSha (merge_sha st) (repo_label st) (num st)) w)
  else (st, w).

Definition set_mergeable (m : option bool) (c : option cause) (que : bool)
    (st : PullReqState) (w : World) : PullReqState * World :=
  match m with
  | Some b =>
      let st := with_mergeable (Some b) st in
      (st, run_sql (ReplaceMergeable (repo_label st) (num st) b) w)
  | None =>
      let '(st, w) :=
        if que then (st, que_put (repo_label st, num st, c) w)
        else (with_mergeable None st, w) in
      (st, run_sql (DeleteMergeable (repo_label st) (num st)) w)
  end.

(** [{x: {'res': None, 'url': ''} for x in builders}] *)
Definition fresh_build_res (builders : list string) : gmap string build_info :=
  list_to_map ((λ x, (x, BuildInfo None "")) <$> builders).

Definition init_build_res (builders : list string) (use_db : bool)
    (st : PullReqState) (w : World) : PullReqState * World :=
  let st := with_build_res (fresh_build_res builders) st in
  if use_db then (st, run_sql (DeleteBuildRes (repo_label st) (num st)) w)
  else (st, w).

Definition head_advanced (sha : string) (use_db : bool)
    (st : PullReqState) (w : World) : PullReqState * World :=
  let st :=
    with_mergeable None (with_try_ false (with_build_res ∅
      (with_merge_sha "" (with_status "" (with_approved_by ""
        (with_head_sha sha st)))))) in
  if use_db then
    let '(st, w) := set_status "" st w in
    let '(st, w) := set_mergeable None None true st w in
    init_build_res [] true st w
  else (st, w).

(** [PullReqState(num, head_sha, status, repo_label, ...)]: the class
    attributes give the defaults, [head_advanced('', use_db=False)] runs
    first. *)
Definition new_PullReqState (n : Z) (sha st_ label own nm : string)
    : PullReqState :=
  {| num := n; priority := 0; rollup := false; title := ""; body := "";
     head_ref := ""; base_ref := ""; assignee := ""; head_sha := sha;
     approved_by := ""; status := st_; merge_sha := ""; build_res := ∅;
     try_ := false; mergeable := None; repo_label := label;
     owner := own; name := nm |}.

Definition refresh (pf : Platform) (st : PullReqState) : PullReqState :=
  with_texts (pf_issue_title pf) (pf_issue_body pf) (head_ref st)
    (base_ref st) (assignee st) st.

(** ** Exceptions and the monad of the fallible operations *)

Inductive exn :=
| AssertionError
| RuntimeError (msg : string)
| KeyError (key : string)
| GitHubError (code : Z)
| PyException (msg : string).

Inductive outcome (A : Type) :=
| Return (a : A)
| Raise (e : exn).
Arguments Return {A} a.
Arguments Raise {A} e.

(** A computation on one entity and the world that returns or raises. *)
Definition Eff (A : Type) : Type :=
  PullReqState → World → outcome A * PullReqState * World.

Definition ret {A} (a : A) : Eff A := λ st w, (Return a, st, w).
Definition raise {A} (e : exn) : Eff A := λ st w, (Raise e, st, w).
Definition bind {A B} (m : Eff A) (k : A → Eff B) : Eff B :=
  λ st w,
    match m st w with
    | (Return a, st', w') => k a st' w'
    | (Raise e, st', w') => (Raise e, st', w')
    end.
Definition get_state : Eff PullReqState := λ st w, (Return st, st, w).
Definition get_world : Eff World := λ st w, (Return w, st, w).
(** A method that changes the entity and the world and cannot fail. *)
Definition method (f : PullReqState → World → PullReqState * World) : Eff unit :=
  λ st w, let '(st', w') := f st w in (Return tt, st', w').
(** An action on the world that reads the entity. *)
Definition effect (f : PullReqState → World → World) : Eff unit :=
  λ st w, (Return tt, st, f st w).
(** An assignment to attributes of the entity. *)
Definition assign (f : PullReqState → PullReqState) : Eff unit :=
  λ st w, (Return tt, f st, w).

Declare Scope eff_scope.
Delimit Scope eff_scope with eff.
Notation "'let*' x := m 'in' k" := (bind m (λ x, k))
  (at level 10, x name, m at level 100, k at level 200) : eff_scope.
Notation "'step' m 'then' k" := (bind m (λ _, k))
  (at level 10, m at level 100, k at level 200) : eff_scope.
Local Open Scope eff_scope.

(** [set_build_res(builder, res, url)]: the membership test comes before
    every assignment. *)
Definition set_build_res (builder : string) (r : option bool) (u : string)
    : Eff unit :=
  let* st := get_state in
  if negb (bool_decide (builder ∈ dom (build_res st))) then
    raise (PyException ("Invalid builder: " +:+ builder))
  else
    step assign (λ st, with_build_res
           (<[builder := BuildInfo r u]> (build_res st)) st) then
    effect (λ st, run_sql
      (ReplaceBuildRes (repo_label st) (num st) builder
         {| br_res := r; br_url := u; br_merge_sha := merge_sha st |})).

(** ** The command parser *)

Definition sha_cmp (short full : string) : bool :=
  (4 <=? String.length short)%nat
  && String.eqb short (slice_to (String.length short) full).

(** [re.match(r'^[0-9a-f]+$', sha)]: one or more hex digits up to the end
    of the string, or up to a newline that ends the string. *)
Fixpoint hex_to_end (s : string) : bool :=
  match s with
  | "" => true
  | String c s' =>
      if is_hex c then hex_to_end s'
      else is_lf c && negb (truthy s')
  end.

Definition hex_match (s : string) : bool :=
  match s with
  | String c s' => is_hex c && hex_to_end s'
  | "" => false
  end.

Definition sha_or_blank (sha : string) : string :=
  if hex_match sha then sha else "".

(** The words of the lines of [body] that mention the bot. *)
Definition mention_words (body my_username : string) : list string :=
  concat (findall_nonspace <$>
    List.filter (contains ("@" +:+ my_username)) (splitlines body)).

Definition error_div_open : string :=
  "<div class=" +:+ dquote +:+ "error" +:+ dquote +:+ ">".

(** The two comments of the approval branch:
    [':question: {} Please try again with `{:.7}`.'] around
    ['`{}` is not a valid commit SHA.'], and
    [':pushpin: Commit {:.7} has been approved by `{}`\n\n<!-- @{} r={} {} -->']. *)
Definition not_valid_comment (cur_sha head : string) : string :=
  let msg := "`" +:+ cur_sha +:+ "` is not a valid commit SHA." in
  ":question: " +:+ msg +:+ " Please try again with `"
    +:+ slice_to 7 head +:+ "`.".

Definition approved_comment (head approver my_username : string) : string :=
  ":pushpin: Commit " +:+ slice_to 7 head
    +:+ " has been approved by `" +:+ approver +:+ "`" +:+ nl +:+ nl
    +:+ "<!-- @" +:+ my_username +:+ " r=" +:+ approver +:+ " "
    +:+ head +:+ " -->".

Section parse_commands.
Variables (username : string) (repo : repo_cfg) (my_username : string).
Variables (pf : Platform) (realtime : bool) (sha : string).

(** The branch of [r+] and [r=<user>]. *)
Definition approve (i : nat) (word : string) (words : list string)
    : Eff unit :=
  let cur_sha :=
    if negb (truthy sha) && (i + 1 <? length words)%nat
    then sha_or_blank (words !!! (i + 1)%nat) else sha in
  let approver :=
    if startswith "r=" word then slice_from (String.length "r=") word
    else username in
  let* st := get_state in
  if sha_cmp cur_sha (head_sha st) then
    step assign (with_approved_by approver) then
    effect save
  else if realtime && negb (String.eqb username my_username) then
    if truthy cur_sha then
      effect (add_comment (not_valid_comment cur_sha (head_sha st)))
    else
      effect (add_comment (approved_comment (head_sha st) approver my_username))
  else ret tt.

(** The branch of [force]: a session on the CI, one POST, and a comment
    when the answer carries an error. *)
Definition force : Eff unit :=
  match buildbot repo with
  | None => raise (KeyError "buildbot")
  | Some bb =>
      step effect (λ _, do_call (SessPost (bb_url bb +:+ "/login")
             [("username", bb_username bb); ("passwd", bb_password bb)])) then
      step effect (λ _, do_call
             (SessPost (bb_url bb +:+ "/builders/_selected/stopselected")
                (((λ b, ("selected", b)) <$> bb_builders bb)
                 ++ [("comments",
                      "Interrupted by Homu (" +:+ of_Z (pf_time pf) +:+ ")")])))
      then
      step effect (λ _, do_call (SessGet (bb_url bb +:+ "/logout"))) then
      let text := pf_stop_text pf in
      let err :=
        if contains "authzfail" text then "Authorization failed"
        else match search_between error_div_open "</div>" text with
             | Some g =>
                 let e := strip g in
                 if truthy e then e else "Unknown error"
             | None => ""
             end in
      if truthy err then
        effect (add_comment
          (":bomb: Buildbot returned an error: `" +:+ err +:+ "`"))
      else ret tt
  end.

(** The body of the loop up to [if found]: returns [found]. *)
Definition directive (i : nat) (word : string) (words : list string)
    : Eff bool :=
  if String.eqb word "r+" || startswith "r=" word then
    step approve i word words then ret true
  else if String.eqb word "r-" then
    step assign (with_approved_by "") then
    step effect save then ret true
  else if startswith "p=" word then
    step match int (slice_from (String.length "p=") word) with
         | Some v => assign (with_priority v)
         | None => ret tt
         end then
    step effect save then ret true
  else if String.eqb word "retry" && realtime then
    step method (set_status "") then ret true
  else if (String.eqb word "try" || String.eqb word "try-") && realtime then
    step assign (with_try_ (String.eqb word "try")) then
    step assign (with_merge_sha "") then
    step method (init_build_res [] true) then
    step effect save then ret true
  else if String.eqb word "rollup" || String.eqb word "rollup-" then
    step assign (with_rollup (String.eqb word "rollup")) then
    step effect save then ret true
  else if String.eqb word "force" && realtime then
    step force then ret true
  else if String.eqb word "clean" && realtime then
    step assign (with_merge_sha "") then
    step method (init_build_res [] true) then
    step effect save then ret true
  else ret false.

(** [for i, word in reversed(list(enumerate(words)))]: the pairs are
    fixed before the loop, [words] is updated in place. *)
Fixpoint parse_loop (items : list (nat * string)) (words : list string)
    (state_changed : bool) : Eff bool :=
  match items with
  | [] => ret state_changed
  | (i, word) :: items' =>
      let* found := directive i word words in
      if found then parse_loop items' (<[i := ""]> words) true
      else parse_loop items' words state_changed
  end.

Definition parse_commands (body : string) : Eff bool :=
  if negb (bool_decide (username ∈ reviewers repo))
     && negb (String.eqb username my_username)
  then ret false
  else
    let words := mention_words body my_username in
    parse_loop (rev (imap pair words)) words false.

End parse_commands.

(** The words that some branch of the loop body takes ([found] stays
    true): the guards of its [if]/[elif] chain. *)
Definition is_directive (realtime : bool) (word : string) : bool :=
  String.eqb word "r+" || startswith "r=" word
  || String.eqb word "r-"
  || startswith "p=" word
  || String.eqb word "retry" && realtime
  || (String.eqb word "try" || String.eqb word "try-") && realtime
  || String.eqb word "rollup" || String.eqb word "rollup-"
  || String.eqb word "force" && realtime
  || String.eqb word "clean" && realtime.

(** ** The build dispatcher *)

(** Modelled from the spec: [utils.github_create_status] and
    [utils.github_set_ref] live outside [main.py]; the first creates a
    status check [(state, description, context)] on a commit, the second
    force-moves a ref to a commit.  Both are recorded as calls. *)
Definition github_create_status (sha state target_url description context : string)
    : Eff unit :=
  effect (λ st, do_call
    (CreateStatus (repo_label st) sha state target_url description context)).

Definition github_set_ref (ref sha : string) (force : bool) : Eff unit :=
  effect (λ st, do_call (SetRef (repo_label st) ref sha force)).

(** [create_merge(state, repo_cfg, branch)]: the commit of the scratch
    merge, or [None]. *)
Definition create_merge (pf : Platform) (branch_ : string) : Eff (option string) :=
  let base_sha := pf_base_sha pf in
  step github_set_ref ("heads/" +:+ branch_) base_sha true then
  step assign (refresh pf) then
  let* st := get_state in
  let merge_msg :=
    "Auto merge of #" +:+ of_Z (num st) +:+ " - " +:+ head_ref st
      +:+ ", r=" +:+ (if try_ st then "<try>" else approved_by st)
      +:+ nl +:+ nl +:+ title st +:+ nl +:+ nl +:+ body st in
  step effect (λ st, do_call
         (MergeReq (repo_label st) branch_ (head_sha st) merge_msg)) then
  match pf_merge pf with
  | MergeFails code =>
      if negb (code =? 409)%Z then raise (GitHubError code)
      else
        step method (set_status "error") then
        let desc := "Merge conflict" in
        step github_create_status (head_sha st) "error" "" desc "homu" then
        step effect (add_comment (":lock: " +:+ desc)) then
        ret None
  | MergeNothing => ret None
  | MergeCommit c => ret (Some c)
  end.

(** The scratch branch and the builders of a repository, by the shape of
    its CI block. *)
Definition choose_branch_builders (repo : repo_cfg) (st : PullReqState)
    : outcome (string * list string) :=
  match buildbot repo with
  | Some bb =>
      let b := if try_ st then "try" else "auto" in
      let b := default b (branch repo !! b) in
      if try_ st then
        match bb_try_builders bb with
        | Some l => Return (b, l)
        | None => Raise (KeyError "try_builders")
        end
      else Return (b, bb_builders bb)
  | None =>
      if travis repo then
        Return (default "auto" (branch repo !! "auto"), ["travis"])
      else if status_ci repo then
        Return (default "auto" (branch repo !! "auto"), ["status"])
      else match testrunners repo with
           | Some l => Return ("merge_bot_" +:+ base_ref st, l)
           | None => Raise (RuntimeError "Invalid configuration")
           end
  end.

Fixpoint for_each {A} (f : A → Eff unit) (l : list A) : Eff unit :=
  match l with
  | [] => ret tt
  | x :: l' => step f x then for_each f l'
  end.

Definition start_build (repo_cfgs : gmap string repo_cfg) (pf : Platform)
    : Eff bool :=
  let* w := get_world in
  if truthy (buildbot_slots w) then ret true
  else
    let* st := get_state in
    if negb (String.eqb (head_sha st) (pf_pull_head_sha pf)) then
      raise AssertionError
    else
      match repo_cfgs !! repo_label st with
      | None => raise (KeyError (repo_label st))
      | Some repo =>
          match choose_branch_builders repo st with
          | Raise e => raise e
          | Return (branch_, builders) =>
              let* merge_commit := create_merge pf branch_ in
              match merge_commit with
              | None => ret false
              | Some commit_sha =>
                  step method (init_build_res builders true) then
                  step assign (with_merge_sha commit_sha) then
                  step effect save then
                  step (if bool_decide (is_Some (buildbot repo)) then
                          effect (λ st, set_slot (merge_sha st))
                        else ret tt) then
                  let* st := get_state in
                  step effect (λ _, do_call (LoggerInfo
                         ("Starting build of " +:+ owner st +:+ "/" +:+ name st
                            +:+ "#" +:+ of_Z (num st) +:+ " on " +:+ branch_
                            +:+ ": " +:+ merge_sha st))) then
                  step method (set_status "pending") then
                  let desc :=
                    (if try_ st then "Trying" else "Testing")
                      +:+ " commit " +:+ slice_to 7 (head_sha st)
                      +:+ " with merge " +:+ slice_to 7 (merge_sha st) +:+ "..." in
                  step (if bool_decide (is_Some (testrunners repo)) then
                          for_each (λ builder,
                            github_create_status (head_sha st) "pending" "" desc
                              ("merge-test/" +:+ builder)) builders
                        else
                          github_create_status (head_sha st) "pending" "" desc
                            "homu") then
                  step effect (add_comment (":hourglass: " +:+ desc)) then
                  ret true
              end
          end
      end.

(** ** Recovery of the pull rows on startup *)

(** The builders that recovery gives a row with a merge commit. *)
Definition recovery_builders (repo : repo_cfg) : outcome (list string) :=
  match buildbot repo with
  | Some bb => Return (bb_builders bb)
  | None =>
      if travis repo then Return ["travis"]
      else if status_ci repo then Return ["status"]
      else match testrunners repo with
           | Some l => Return l
           | None => Raise (RuntimeError "Invalid configuration")
           end
  end.

(** The body of the loop over the fetched rows, after the constructor. *)
Definition load_row (repo : repo_cfg) (row : pull_row) : Eff unit :=
  step assign (λ st, with_texts (row_title row) (row_body row)
         (row_head_ref row) (row_base_ref row) (assignee st) st) then
  step method (set_mergeable None None true) then
  step assign (λ st, with_texts (title st) (body st) (head_ref st)
         (base_ref st) (row_assignee row) st) then
  step assign (with_approved_by (row_approved_by row)) then
  step assign (with_priority (row_priority row)) then
  step assign (with_try_ (row_try_ row)) then
  step assign (with_rollup (row_rollup row)) then
  if truthy (row_merge_sha row) then
    match recovery_builders repo with
    | Raise e => raise e
    | Return builders =>
        step method (init_build_res builders false) then
        assign (with_merge_sha (row_merge_sha row))
    end
  else
    let* st := get_state in
    if String.eqb (status st) "pending" then
      step assign (with_status "") then
      effect save
    else ret tt.

Definition load_pull (label : string) (repo : repo_cfg) (n : Z)
    (row : pull_row) (w : World) : outcome unit * PullReqState * World :=
  load_row repo row
    (new_PullReqState n (row_head_sha row) (row_status row) label
       (cfg_owner repo) (cfg_name repo)) w.

(** [SELECT ... FROM pull WHERE repo = %s], all rows fetched at once. *)
Definition fetch_pulls (label : string) (d : Database) : list (Z * pull_row) :=
  omap (λ kv : string * Z * pull_row,
          if String.eqb kv.1.1 label then Some (kv.1.2, kv.2) else None)
       (map_to_list (tbl_pull d)).

(** The loop that fills [repo_states]. *)
Fixpoint load_rows (label : string) (repo : repo_cfg)
    (rows : list (Z * pull_row)) (repo_states : gmap Z PullReqState)
    (w : World) : outcome (gmap Z PullReqState) * World :=
  match rows with
  | [] => (Return repo_states, w)
  | (n, row) :: rows' =>
      match load_pull label repo n row w with
      | (Return _, st, w') =>
          load_rows label repo rows' (<[n := st]> repo_states) w'
      | (Raise e, _, w') => (Raise e, w')
      end
  end.

Definition load_repo (label : string) (repo : repo_cfg) (w : World)
    : outcome (gmap Z PullReqState) * World :=
  load_rows label repo (fetch_pulls label (db w)) ∅ w.

(** ** Recovery of the build results and of the mergeability *)

(** [states]: the entities of every repository, by label and number. *)
Definition States := gmap string (gmap Z PullReqState).

(** [states[repo_label][num]]; [None] stands for the [KeyError]. *)
Definition lookup_state (label : string) (n : Z) (states : States)
    : option PullReqState :=
  repo_states ← states !! label; repo_states !! n.

(** An assignment to an attribute of the object [states[label][n]]. *)
Definition update_state (label : string) (n : Z)
    (f : PullReqState → PullReqState) (states : States) : States :=
  alter (alter f n) label states.

(** The [try] block of the loop over the build rows: the entity of the
    row, unless one of the three tests raises [KeyError]. *)
Definition build_row_state (label : string) (n : Z) (builder sha : string)
    (states : States) : option PullReqState :=
  st ← lookup_state label n states;
  if bool_decide (is_Some (build_res st !! builder)) then
    if String.eqb (merge_sha st) sha then Some st else None
  else None.

(** One row of [SELECT repo, num, builder, res, url, merge_sha FROM
    build_res]. *)
Definition load_build_res_row (key : string * Z * string)
    (row : build_res_row) (states : States) (w : World) : States * World :=
  let '(label, n, builder) := key in
  match build_row_state label n builder (br_merge_sha row) states with
  | None => (states, run_sql (DeleteBuildResRow label n builder) w)
  | Some _ =>
      (update_state label n
         (λ st, with_build_res
                  (<[builder := BuildInfo (br_res row) (br_url row)]>
                     (build_res st)) st) states, w)
  end.

Fixpoint load_build_res (rows : list (string * Z * string * build_res_row))
    (states : States) (w : World) : States * World :=
  match rows with
  | [] => (states, w)
  | (key, row) :: rows' =>
      let '(states, w) := load_build_res_row key row states w in
      load_build_res rows' states w
  end.

(** The rows are fetched at once, before the loop deletes any. *)
Definition recover_build_res (states : States) (w : World) : States * World :=
  load_build_res (map_to_list (tbl_build_res (db w))) states w.

(** One row of [SELECT repo, num, mergeable FROM mergeable]. *)
Definition load_mergeable_row (key : string * Z) (m : bool)
    (states : States) (w : World) : States * World :=
  let '(label, n) := key in
  match lookup_state label n states with
  | None => (states, run_sql (DeleteMergeable label n) w)
  | Some _ => (update_state label n (with_mergeable (Some m)) states, w)
  end.

Fixpoint load_mergeable (rows : list (string * Z * bool))
    (states : States) (w : World) : States * World :=
  match rows with
  | [] => (states, w)
  | (key, m) :: rows' =>
      let '(states, w) := load_mergeable_row key m states w in
      load_mergeable rows' states w
  end.


(** How the reads of the startup connection see what the other
    connections of the pool commit during its transaction: not at all,
    they read the snapshot of the first read of the transaction (InnoDB's
    default, REPEATABLE READ), or at once (READ COMMITTED). *)
Inductive isolation := RepeatableRead | ReadCommitted.

(** The store that a [SELECT] of the startup connection reads: [snapshot]
    is the store at the first read of its transaction, [now] the store
    with everything committed. *)
Definition seen (iso : isolation) (snapshot now : Database) : Database :=
  match iso with
  | RepeatableRead => snapshot
  | ReadCommitted => now
  end.

(** The loop over [cfg['repo'].items()] that fills [states].  The rows of
    a repository are read on the startup connection; the methods of the
    entities write through connections of their own and commit at once. *)
Fixpoint load_repos (iso : isolation) (snapshot : Database)
    (repos : list (string * repo_cfg)) (states : States) (w : World)
    : outcome States * World :=
  match repos with
  | [] => (Return states, w)
  | (label, repo) :: repos' =>
      match load_rows label repo
              (fetch_pulls label (seen iso snapshot (db w))) ∅ w with
      | (Return repo_states, w') =>
          load_repos iso snapshot repos' (<[label := repo_states]> states) w'
      | (Raise e, w') => (Raise e, w')
      end
  end.

(** What [main] recovers from the store before it starts its threads:
    the pull rows of every configured repository, then the build rows,
    then the mergeable rows, all read on the startup connection.  Its
    transaction begins with its first read and goes on until the
    connection commits, which it does after every [DELETE] of the loop
    over the build rows; the read of the mergeable rows is then the first
    of a new transaction. *)
Definition recover (iso : isolation) (repos : list (string * repo_cfg))
    (w : World) : outcome States * World :=
  let snapshot := db w in
  match load_repos iso snapshot repos ∅ w with
  | (Raise e, w) => (Raise e, w)
  | (Return states, w1) =>
      let '(states, w2) :=
        load_build_res
          (map_to_list (tbl_build_res (seen iso snapshot (db w1))))
          states w1 in
      let snapshot :=
        if (length (sql_log w2) =? length (sql_log w1))%nat
        then snapshot else db w2 in
      let '(states, w3) :=
        load_mergeable
          (map_to_list (tbl_mergeable (seen iso snapshot (db w2))))
          states w2 in
      (Return states, w3)
  end.

(** ** The connection pool *)

(** [no_ = lambda s: s.replace('_', '')] *)
Fixpoint no_ (s : string) : string :=
  match s with
  | EmptyString => EmptyString
  | String c s' => if Ascii.eqb c "_" then no_ s' else String c (no_ s')
  end.

Definition cfg_keys : list string :=
  ["username"; "password"; "host"; "port"; "database"; "ssl_ca";
   "ssl_cert"; "ssl_key"].

(** [Database.__get_cfg], from the [production] mapping of [database.yml]
    on; [py_True] is the value [True] among the values of the mapping. *)
Definition get_cfg {V : Type} (py_True : V) (production : gmap string V)
    : outcome (gmap string V) :=
  let cfg : gmap string V :=
    list_to_map
      (omap (λ k, (λ v, (k, v)) <$> production !! no_ k) cfg_keys) in
  let cfg := <["ssl_verify_cert" := py_True]> cfg in
  match cfg !! "username" with
  | None => Raise (KeyError "username")
  | Some u => Return (<["user" := u]> (delete "username" cfg))
  end.

(** What [get_conn] does besides asking the pool. *)
Inductive pool_event := Sleep (tenths : nat).

(** [get_conn(attempt)] of [Database.get_connection]: [pool k] is the
    answer of the pool to the call of attempt [k], [None] for [PoolError];
    the result is the connection or the [PoolError] raised again, with
    the sleeps so far.  Every call uses one unit of [fuel]. *)
Fixpoint get_conn {C : Type} (fuel : nat) (pool : nat → option C)
    (attempt : nat) (log : list pool_event)
    : option (option C * list pool_event) :=
  match fuel with
  | O => None
  | S fuel =>
      match pool attempt with
      | Some c => Some (Some c, log)
      | None =>
          if (attempt <? 20)%nat
          then get_conn fuel pool (S attempt) (log ++ [Sleep 2])
          else Some (None, log)
      end
  end.

(** ** Fetching the mergeability *)

(** Lower case of the letters A to Z, which is what [(?i)] comes to for
    the pattern below on code points under 256. *)
Definition lower (c : ascii) : ascii :=
  let n := code c in
  if ((65 <=? n) && (n <=? 90))%N then ascii_of_N (n + 32) else c.

(** The rest of [s] after the lower-case literal [p] has matched at its
    start without regard to case. *)
Fixpoint match_ci (p s : string) : option string :=
  match p, s with
  | EmptyString, _ => Some s
  | String a p', String b s' =>
      if Ascii.eqb a (lower b) then match_ci p' s' else None
  | String _ _, EmptyString => None
  end.

(** The longest run of [[0-9]] at the start of [s]. *)
Fixpoint take_digits (s : string) : string :=
  match s with
  | String c s' => if is_digit c then String c (take_digits s') else EmptyString
  | EmptyString => EmptyString
  end.

(** Group 1 of [(?i)merge (?:of|pull request) #([0-9]+)] matched at the
    start of [s]. *)
Definition match_pull_num (s : string) : option string :=
  s ← match_ci "merge " s;
  s ← match match_ci "of" s with
      | Some r => Some r
      | None => match_ci "pull request" s
      end;
  s ← match_ci " #" s;
  match take_digits s with
  | EmptyString => None
  | d => Some d
  end.

(** [re_pull_num.search(s)]: the leftmost match. *)
Fixpoint search_pull_num (s : string) : option string :=
  match match_pull_num s with
  | Some d => Some d
  | None =>
      match s with
      | EmptyString => None
      | String _ s' => search_pull_num s'
      end
  end.

(** The comment of [fetch_mergeability] for a given cause. *)
Definition unmergeable_comment (c : option cause) : string :=
  let issue_or_commit :=
    match c with
    | Some c =>
        " (presumably " +:+
        match search_pull_num (cause_title c) with
        | Some d => "#" +:+ d
        | None => slice_to 7 (cause_sha c)
        end +:+ ")"
    | None => ""
    end in
  ":x: The latest upstream changes" +:+ issue_or_commit +:+
  " made this pull request unmergeable. Please resolve the merge conflicts.".

(** What [get_repo().pull_request(num)] returns when it finds the PR. *)
Record pull_answer := { pr_mergeable : option bool }.

(** The body of the loop of [fetch_mergeability] for one [state, cause]
    taken from the queue; [first] and [second] are the answers of the
    platform to the two requests, [None] when it has no such PR.  An
    exception ends the body, it is printed and not raised; the sleeps are
    left out. *)
Definition fetch_mergeability_step (first second : option pull_answer)
    (c : option cause) (st : PullReqState) (w : World)
    : PullReqState * World :=
  let pr := match first with Some p => Some p | None => second end in
  match pr with
  | None => (st, w)
  | Some p =>
      let m := pr_mergeable p in
      let w :=
        if bool_decide (mergeable st = Some true)
           && bool_decide (m = Some false)
        then add_comment (unmergeable_comment c) st w else w in
      set_mergeable m None false st w
  end.

(** ** Rebuilding on the session CI *)

(** The answers of the platform and of the CI to one call of
    [start_rebuild]: the commit of the base branch, the parents of the
    merge commit, and the text of the response to the rebuild request by
    the url of the build. *)
Record RebuildAnswers := {
  ra_base_sha : string;
  ra_parent_shas : list string;
  ra_rebuild_text : string → string;
}.

(** [a < b] on the two-element lists [[builder, url]]. *)
Definition pair_lt (a b : string * string) : bool :=
  String.ltb a.1 b.1 || String.eqb a.1 b.1 && String.ltb a.2 b.2.

Fixpoint pair_insert (x : string * string) (l : list (string * string))
    : list (string * string) :=
  match l with
  | [] => [x]
  | y :: l' => if pair_lt x y then x :: l else y :: pair_insert x l'
  end.

(** [l.sort()] *)
Definition pair_sort (l : list (string * string)) : list (string * string) :=
  foldl (λ acc x, pair_insert x acc) [] l.

(** The loop over [state.build_res.items()]: [None] when a build has no
    url, otherwise the builds to run again and the ones that succeeded. *)
Fixpoint split_builders (items : list (string * build_info))
    (builders succ_builders : list (string * string))
    : option (list (string * string) * list (string * string)) :=
  match items with
  | [] => Some (builders, succ_builders)
  | (builder, info) :: items' =>
      if negb (truthy (url info)) then None
      else match res info with
           | Some true =>
               split_builders items' builders
                 (succ_builders ++ [(builder, url info)])
           | _ =>
               split_builders items'
                 (builders ++ [(builder, url info)]) succ_builders
           end
  end.

(** The shortest nonempty run without a line feed at the start of [s]
    that [close] follows: [(.+?)] before a literal. *)
Fixpoint lazy_run (close s : string) : option string :=
  match s with
  | "" => None
  | String c s' =>
      if is_lf c then None
      else if String.prefix close s' then Some (String c "")
      else String c <$> lazy_run close s'
  end.

(** [re.search('<title>(.+?)</title>', s)], group 1. *)
Fixpoint search_title (s : string) : option string :=
  match (if String.prefix "<title>" s
         then lazy_run "</title>" (slice_from 7 s) else None) with
  | Some g => Some g
  | None =>
      match s with
      | "" => None
      | String _ s' => search_title s'
      end
  end.

Definition rebuild_error (builder text : string) : string :=
  if contains "authzfail" text then "Authorization failed"
  else if contains builder text then ""
  else default "Unknown error" (search_title text).

(** The loop over the builds to run again: [true] when every request
    went through. *)
Fixpoint rebuild_loop (ra : RebuildAnswers) (builders : list (string * string))
    : Eff bool :=
  match builders with
  | [] => ret true
  | (builder, url_) :: builders' =>
      step effect (λ _, do_call (SessPost (url_ +:+ "/rebuild")
             [("useSourcestamp", "exact");
              ("comments", "Initiated by Homu")])) then
      let err := rebuild_error builder (ra_rebuild_text ra url_) in
      if truthy err then
        step effect (add_comment
               (":bomb: Failed to start rebuilding: `" +:+ err +:+ "`")) then
        ret false
      else rebuild_loop ra builders'
  end.

(** [', '.join('[{}]({})'.format(builder, url) for builder, url in l)] *)
Definition links (l : list (string * string)) : string :=
  String.concat ", "
    ((λ x : string * string, "[" +:+ x.1 +:+ "](" +:+ x.2 +:+ ")") <$> l).

Definition start_rebuild (repo_cfgs : gmap string repo_cfg)
    (ra : RebuildAnswers) : Eff bool :=
  let* st := get_state in
  match repo_cfgs !! repo_label st with
  | None => raise (KeyError (repo_label st))
  | Some repo =>
      match buildbot repo with
      | None => ret false
      | Some bb =>
          if bool_decide (build_res st = ∅) then ret false
          else
            match split_builders (map_to_list (build_res st)) [] [] with
            | None => ret false
            | Some (builders, succ_builders) =>
                if bool_decide (builders = [])
                   || bool_decide (succ_builders = []) then ret false
                else if negb (bool_decide
                                (ra_base_sha ra ∈ ra_parent_shas ra))
                then ret false
                else
                  step github_set_ref "tags/homu-tmp" (merge_sha st) true then
                  let builders := pair_sort builders in
                  let succ_builders := pair_sort succ_builders in
                  step effect (λ _, do_call
                         (SessPost (bb_url bb +:+ "/login")
                            [("username", bb_username bb);
                             ("passwd", bb_password bb)])) then
                  let* ok := rebuild_loop ra builders in
                  step effect (λ _, do_call
                         (SessGet (bb_url bb +:+ "/logout"))) then
                  if negb ok then ret false
                  else
                    step method (set_status "pending") then
                    let msg_1 := "Previous build results" in
                    let msg_2 := " for " +:+ links succ_builders in
                    let msg_3 := " are reusable. Rebuilding" in
                    let msg_4 := " only " +:+ links builders in
                    step github_create_status (head_sha st) "pending" ""
                           (msg_1 +:+ msg_3 +:+ "...") "homu" then
                    step effect (add_comment
                           (":zap: " +:+ msg_1 +:+ msg_2 +:+ msg_3 +:+ msg_4
                              +:+ "...")) then
                    ret true
            end
      end
  end.

Definition start_build_or_rebuild (repo_cfgs : gmap string repo_cfg)
    (ra : RebuildAnswers) (pf : Platform) : Eff bool :=
  let* started := start_rebuild repo_cfgs ra in
  if started then ret true else start_build repo_cfgs pf.

(** ** The queue *)

(** The answers to the calls that one visit of an entity can make. *)
Record Answers := { an_rebuild : RebuildAnswers; an_build : Platform }.

(** How the body of a loop of [process_queue] ends. *)
Inductive verdict := Next | Break | Leave.

Definition started (b : bool) : verdict := if b then Leave else Next.

(** The body of the first loop. *)
Definition first_visit (repo_cfgs : gmap string repo_cfg) (an : Answers)
    : Eff verdict :=
  let* st := get_state in
  if String.eqb (status st) "pending" && negb (try_ st) then ret Break
  else if String.eqb (status st) "" && truthy (approved_by st) then
    let* b := start_build_or_rebuild repo_cfgs (an_rebuild an) (an_build an) in
    ret (started b)
  else if String.eqb (status st) "success" && try_ st
          && truthy (approved_by st) then
    step assign (with_try_ false) then
    step effect save then
    let* b := start_build repo_cfgs (an_build an) in
    ret (started b)
  else ret Next.

(** The body of the second loop. *)
Definition second_visit (repo_cfgs : gmap string repo_cfg) (an : Answers)
    : Eff verdict :=
  let* st := get_state in
  if String.eqb (status st) "" && try_ st then
    let* b := start_build repo_cfgs (an_build an) in
    ret (started b)
  else ret Next.

(** A loop over [repo_states].  The list holds the entities themselves,
    each one once, so what a visit changes is seen by the loop that comes
    after and by [states]; the result says whether [process_queue]
    returns. *)
Fixpoint visit_all (visit : Z → Eff verdict) (l : list (Z * PullReqState))
    (w : World) : outcome bool * list (Z * PullReqState) * World :=
  match l with
  | [] => (Return false, [], w)
  | (k, st) :: l' =>
      match visit k st w with
      | (Raise e, st', w') => (Raise e, (k, st') :: l', w')
      | (Return Break, st', w') => (Return false, (k, st') :: l', w')
      | (Return Leave, st', w') => (Return true, (k, st') :: l', w')
      | (Return Next, st', w') =>
          let '(o, l'', w'') := visit_all visit l' w' in
          (o, (k, st') :: l'', w'')
      end
  end.

Fixpoint item_insert (x : Z * PullReqState) (l : list (Z * PullReqState))
    : list (Z * PullReqState) :=
  match l with
  | [] => [x]
  | y :: l' => if lt x.2 y.2 then x :: l else y :: item_insert x l'
  end.

(** [sorted(states[repo_label].values())], every entity with its key. *)
Definition sorted_items (l : list (Z * PullReqState))
    : list (Z * PullReqState) :=
  foldl (λ acc x, item_insert x acc) [] l.

(** [process_queue]: [repos] are the labels in the order of the mapping,
    [an label k first] the answers for the entity [states[label][k]] in
    the first or in the second loop. *)
Fixpoint process_queue (repo_cfgs : gmap string repo_cfg)
    (an : string → Z → bool → Answers) (repos : list string)
    (states : States) (w : World) : outcome unit * States * World :=
  match repos with
  | [] => (Return tt, states, w)
  | label :: repos' =>
      match states !! label with
      | None => (Raise (KeyError label), states, w)
      | Some repo_states =>
          let l := sorted_items (map_to_list repo_states) in
          let '(o, l, w) :=
            visit_all (λ k, first_visit repo_cfgs (an label k true)) l w in
          match o with
          | Raise e => (Raise e, <[label := list_to_map l]> states, w)
          | Return true => (Return tt, <[label := list_to_map l]> states, w)
          | Return false =>
              let '(o, l, w) :=
                visit_all (λ k, second_visit repo_cfgs (an label k false))
                  l w in
              let states := <[label := list_to_map l]> states in
              match o with
              | Raise e => (Raise e, states, w)
              | Return true => (Return tt, states, w)
              | Return false => process_queue repo_cfgs an repos' states w
              end
          end
      end
  end.

(** ** The ordering key as the specification words it *)

Module Spec.

(** The status priorities of the data model. *)
Definition status_priority : list (string * Z) :=
  [("success", 0); ("pending", 1); ("approved", 2); ("", 3);
   ("error", 4); ("failure", 5)]%Z.

(** [approved] when the status is empty, an approver is set and the PR
    is not known to be unmergeable; the status otherwise. *)
Definition effective_status (st : PullReqState) : string :=
  if decide (status st = "" ∧ approved_by st ≠ "" ∧ mergeable st ≠ Some false)
  then "approved" else status st.

Definition key := (Z * Z * Z * Z * Z * Z)%type.

Definition ordering_key (st : PullReqState) : option key :=
  p ← list_to_map (M := gmap string Z) status_priority
        !! effective_status st;
  Some (p,
        if decide (mergeable st = Some false) then 1 else 0,
        if decide (approved_by st = "") then 1 else 0,
        if rollup st then 1 else 0,
        - priority st,
        num st)%Z.

(** Lexicographic order on the 6-tuples. *)
Definition key_lt (a b : key) : Prop :=
  let '(a1, a2, a3, a4, a5, a6) := a in
  let '(b1, b2, b3, b4, b5, b6) := b in
  (a1 < b1 ∨ a1 = b1 ∧
   (a2 < b2 ∨ a2 = b2 ∧
    (a3 < b3 ∨ a3 = b3 ∧
     (a4 < b4 ∨ a4 = b4 ∧
      (a5 < b5 ∨ a5 = b5 ∧ a6 < b6)))))%Z.

End Spec.

(** ** Concrete inputs *)

Module Sample.

Definition pr (st_ approver : string) (roll : bool) (prio n : Z)
    (m : option bool) : PullReqState :=
  with_mergeable m (with_rollup roll (with_priority prio
    (with_approved_by approver
      (new_PullReqState n "deadbeefcafebabe0123456789abcdef01234567"
         st_ "repo" "owner" "name")))).

(** The four PRs of the ordering scenario, all with mergeability [m]. *)
Definition pr10 m := pr "pending" "a" false 0 10 m.
Definition pr20 m := pr "" "a" false 0 20 m.
Definition pr15 m := pr "" "a" true 0 15 m.
Definition pr30 m := pr "" "" false 5 30 m.
Definition queue (m : option bool) : list PullReqState :=
  [pr10 m; pr20 m; pr15 m; pr30 m].

Definition empty_db : Database :=
  {| tbl_pull := ∅; tbl_build_res := ∅; tbl_mergeable := ∅ |}.

Definition world (d : Database) (slot : string) : World :=
  {| db := d; sql_log := []; calls := []; mergeable_que := [];
     buildbot_slots := slot |}.

(** A PR with head [deadbeefcafebabe...], stored as it is. *)
Definition pr7 : PullReqState := pr "" "" false 0 7 None.
Definition db7 : Database := execute (ReplacePull "repo" 7 (row_of pr7)) empty_db.
Definition world7 : World := world db7 "".

Definition travis_repo : repo_cfg :=
  {| cfg_owner := "owner"; cfg_name := "name"; reviewers := ["alice"];
     buildbot := None; travis := true; status_ci := false;
     testrunners := None; branch := ∅ |}.

Definition buildbot_repo : repo_cfg :=
  {| cfg_owner := "owner"; cfg_name := "name"; reviewers := ["alice"];
     buildbot := Some {| bb_url := "http://ci"; bb_username := "u";
                         bb_password := "p"; bb_builders := ["linux"; "mac"];
                         bb_try_builders := Some ["linux"] |};
     travis := false; status_ci := false; testrunners := None;
     branch := ∅ |}.

Definition platform (answer : merge_answer) : Platform :=
  {| pf_pull_head_sha := "deadbeefcafebabe0123456789abcdef01234567";
     pf_base_sha := "0123456789abcdef0123456789abcdef01234567";
     pf_issue_title := "Title"; pf_issue_body := "Body";
     pf_merge := answer; pf_stop_text := ""; pf_time := 1446595200 |}.

(** A build has been created and dispatched: the merge request went
    out and the PR is pending. *)
Definition dispatched (r : outcome bool * PullReqState * World) : Prop :=
  status r.1.2 = "pending"
  ∧ ∃ base head msg, MergeReq "repo" base head msg ∈ calls r.2.

(** The store after a crash between the save of a pending status and
    the save of the merge commit, next to a PR that was under test. *)
Definition crashed_row : pull_row :=
  row_with_status "pending" (row_of (with_approved_by "alice" pr7)).
Definition tested_row : pull_row :=
  row_with_merge_sha "feedfacefeedfacefeedfacefeedfacefeedface"
    (row_with_status "pending" (row_of (pr "" "alice" false 0 8 None))).
Definition crashed_db : Database :=
  execute (ReplacePull "repo" 8 tested_row)
    (execute (ReplacePull "repo" 7 crashed_row) empty_db).

(** A comment with several directives, two of them on [approved_by]. *)
Definition replayed_body : string :=
  "thanks!" +:+ nl
  +:+ "@bot r- rollup p=5 r=bob deadbeefcafe retry p=x" +:+ nl
  +:+ "not for the bot: r+ p=9".

(** A PR whose recorded head is behind the head of the platform. *)
Definition pr10_stale : PullReqState :=
  with_head_sha "0000000000000000000000000000000000000000" pr7.

Definition merge_commit : string := "feedfacefeedfacefeedfacefeedfacefeedface".
Definition other_merge : string := "0badc0de0badc0de0badc0de0badc0de0badc0de".

End Sample.

(** ** What recovery makes of one fetched row *)

(** [st] is the entity loaded from [row]; [before] and [after] are the
    stored row of the PR before and after the load and [log] the
    statements sent so far.  A row with a merge commit keeps its status and
    gets fresh build results for [builders]; a pending row without one is
    demoted and written back; any other row is loaded as it is. *)
Definition recovered_row (label : string) (builders : list string) (n : Z)
    (row : pull_row) (st : PullReqState) (before after : option pull_row)
    (log : list sql) : Prop :=
  num st = n ∧ repo_label st = label ∧ merge_sha st = row_merge_sha row
  ∧ if truthy (row_merge_sha row) then
      status st = row_status row
      ∧ build_res st = fresh_build_res builders
      ∧ after = before
    else if String.eqb (row_status row) "pending" then
      status st = ""
      ∧ after = Some (row_with_status "" row)
      ∧ ReplacePull label n (row_with_status "" row) ∈ log
    else
      status st = row_status row ∧ after = before.

(** The directives that assign [approved_by]. *)
Definition is_approval (word : string) : bool :=
  String.eqb word "r+" || startswith "r=" word || String.eqb word "r-".

(** What the approval branch makes of the entity and the world for the
    SHA [cur_sha] it settles on. *)
Definition approval_outcome (username my_username : string) (realtime : bool)
    (word cur_sha : string) (st : PullReqState) (w : World)
    : PullReqState * World :=
  let approver :=
    if startswith "r=" word then slice_from (String.length "r=") word
    else username in
  if sha_cmp cur_sha (head_sha st) then
    (with_approved_by approver st, save (with_approved_by approver st) w)
  else if realtime && negb (String.eqb username my_username) then
    (st, add_comment
           (if truthy cur_sha then not_valid_comment cur_sha (head_sha st)
            else approved_comment (head_sha st) approver my_username) st w)
  else (st, w).

(** [force] is the only branch of the loop body that can raise, and it
    does so only for a repository without a session CI. *)
Definition can_run (realtime : bool) (repo : repo_cfg) (word : string) : Prop :=
  word = "force" → realtime = true → is_Some (buildbot repo).

(** ** What a replayed comment can do *)

(** The attributes a comment parsed outside realtime mode can assign,
    each given when it is assigned. *)
Definition overwrite (oa : option string) (op : option Z) (orl : option bool)
    (st : PullReqState) : PullReqState :=
  with_rollup (default (rollup st) orl)
    (with_priority (default (priority st) op)
      (with_approved_by (default (approved_by st) oa) st)).

(** [w'] is [w] after some saves of the entity, the last one of [st'] if
    [saved]; the statements sent are not compared. *)
Definition stored (saved : bool) (st' : PullReqState) (w w' : World) : Prop :=
  calls w' = calls w
  ∧ mergeable_que w' = mergeable_que w
  ∧ buildbot_slots w' = buildbot_slots w
  ∧ tbl_build_res (db w') = tbl_build_res (db w)
  ∧ tbl_mergeable (db w') = tbl_mergeable (db w)
  ∧ tbl_pull (db w') =
      if saved then <[(repo_label st', num st') := row_of st']> (tbl_pull (db w))
      else tbl_pull (db w).

(** What the loop over the build rows makes of one entity in memory:
    the results of its own builders are replaced by the rows that carry
    its merge commit. *)
Definition restored_build_res (rows : gmap (string * Z * string) build_res_row)
    (l : string) (n : Z) (st : PullReqState) : PullReqState :=
  with_build_res
    (map_imap (λ b info,
       Some (match rows !! (l, n, b) with
             | Some row =>
                 if String.eqb (merge_sha st) (br_merge_sha row)
                 then BuildInfo (br_res row) (br_url row) else info
             | None => info
             end)) (build_res st)) st.

(** [s.lower()] for the letters A to Z. *)
Fixpoint lowered (s : string) : string :=
  match s with
  | EmptyString => EmptyString
  | String c s' => String (lower c) (lowered s')
  end.

(** The builds of an entity that [start_rebuild] runs again, and the
    ones whose results it keeps, before they are sorted. *)
Definition pending_builds (items : list (string * build_info))
    : list (string * string) :=
  (λ x : string * build_info, (x.1, url x.2))
  <$> List.filter (λ x : string * build_info,
                     negb (bool_decide (res x.2 = Some true))) items.

Definition reusable_builds (items : list (string * build_info))
    : list (string * string) :=
  (λ x : string * build_info, (x.1, url x.2))
  <$> List.filter (λ x : string * build_info,
                     bool_decide (res x.2 = Some true)) items.

(** The statements that make a PR pending. *)
Definition sets_pending (q : sql) : bool :=
  match q with
  | UpdatePullStatus v _ _ => String.eqb v "pending"
  | _ => false
  end.

Definition pendings (l : list sql) : nat := length (List.filter sets_pending l).

(** An entity that no loop of [process_queue] acts on. *)
Definition idle (st : PullReqState) : Prop :=
  (status st = "" → approved_by st = "" ∧ try_ st = false)
  ∧ (status st = "success" → try_ st = false ∨ approved_by st = "").

(** What a call adds to the log of statements. *)
Definition logs {A} (r : outcome A * PullReqState * World) (w : World)
    (P : outcome A → list sql → Prop) : Prop :=
  ∃ l, sql_log r.2 = sql_log w ++ l ∧ P r.1.1 l.

(** A PR whose build succeeded on one builder and failed on the other,
    and a CI that accepts the rebuild. *)
Module SampleQueue.

Definition results : gmap string build_info :=
  <["linux" := BuildInfo (Some true) "http://ci/builders/linux/builds/1"]>
    (<["mac" := BuildInfo (Some false) "http://ci/builders/mac/builds/1"]> ∅).

Definition half_built : PullReqState :=
  with_build_res results
    (with_merge_sha Sample.merge_commit (with_approved_by "alice" Sample.pr7)).

Definition rebuild_answers : RebuildAnswers :=
  {| ra_base_sha := "0123456789abcdef0123456789abcdef01234567";
     ra_parent_shas := ["0123456789abcdef0123456789abcdef01234567";
                        "deadbeefcafebabe0123456789abcdef01234567"];
     ra_rebuild_text := λ _, "<html>Rebuilding mac</html>" |}.

Definition answers : Answers :=
  {| an_rebuild := rebuild_answers; an_build := Sample.platform MergeNothing |}.

Definition two_prs : gmap Z PullReqState :=
  <[10%Z := Sample.pr10 None]> (<[20%Z := Sample.pr20 None]> ∅).

End SampleQueue.

(** * Properties *)

(** Fresh build results: every builder of the list, with no result and
    no url, and nothing else. *)
Lemma lookup_fresh_build_res (builders : list string) (b : string) :
  fresh_build_res builders !! b
  = if bool_decide (b ∈ builders) then Some (BuildInfo None "") else None.
Proof.
  unfold fresh_build_res. induction builders as [|a builders IH].
  { by rewrite bool_decide_eq_false_2 by (by intros ?%elem_of_nil). }
  rewrite fmap_cons. cbn [list_to_map foldr fst snd uncurry].
  destruct (decide (b = a)) as [->|Hne].
  - rewrite lookup_insert_eq. by rewrite bool_decide_eq_true_2 by (by left).
  - rewrite lookup_insert_ne by done. rewrite IH.
    destruct (bool_decide_reflect (b ∈ builders)) as [Hin|Hni].
    + by rewrite bool_decide_eq_true_2 by (by right).
    + rewrite bool_decide_eq_false_2; [done|].
      by intros [?|?]%elem_of_cons.
Qed.

(** The builders that recovery takes from the CI block of a repository. *)
Lemma recovery_builders_ci (repo : repo_cfg) (builders : list string) :
  match buildbot repo with
  | Some bb => builders = bb_builders bb
  | None =>
      if travis repo then builders = ["travis"]
      else if status_ci repo then builders = ["status"]
      else testrunners repo = Some builders
  end →
  recovery_builders repo = Return builders.
Proof.
  unfold recovery_builders. destruct (buildbot repo) as [bb|]; [by intros ->|].
  destruct (travis repo); [by intros ->|].
  destruct (status_ci repo); [by intros ->|]. by intros ->.
Qed.

(** ** The ordering key *)

Section ordering.

Lemma list_lt_cons x y a b :
  list_lt (x :: a) (y :: b) = true ↔ (x < y ∨ x = y ∧ list_lt a b = true)%Z.
Proof.
  simpl. destruct (Z.ltb_spec x y) as [Hxy | Hxy].
  { split; [left; lia | done]. }
  destruct (Z.ltb_spec y x) as [Hyx | Hyx].
  { split; [done | intros [? | [? _]]; lia]. }
  split; [right; split; [lia | done] | intros [? | [_ ?]]; [lia | done]].
Qed.

Lemma list_lt_single x y : list_lt [x] [y] = true ↔ (x < y)%Z.
Proof.
  rewrite list_lt_cons. simpl. split; [|tauto].
  intros [? | [_ ?]]; [done | discriminate].
Qed.

(** On the statuses of the data model the status component of
    [sort_key] is the priority of the effective status. *)
Lemma status_component st p :
  list_to_map (M := gmap string Z) Spec.status_priority
    !! Spec.effective_status st = Some p →
  STATUS_TO_PRIORITY (get_status st) = p.
Proof.
  unfold Spec.effective_status, get_status.
  assert (Ht : ∀ s, truthy s = true ↔ s ≠ "") by (intros []; simpl; split; congruence).
  assert (Hm : ∀ m, is_False m = false ↔ m ≠ Some false)
    by (intros [[]|]; simpl; split; congruence).
  destruct (decide _) as [(Hs & Ha & Hf) | Hn].
  - rewrite Hs. apply Ht in Ha. apply Hm in Hf. rewrite Ha, Hf. simpl.
    vm_compute. congruence.
  - assert (String.eqb (status st) "" && truthy (approved_by st)
              && negb (is_False (mergeable st)) = false) as ->.
    { apply not_true_is_false. intros H. apply Hn.
      apply andb_prop in H as [H H3]. apply andb_prop in H as [H1 H2].
      apply String.eqb_eq in H1. apply Ht in H2.
      apply negb_true_iff, Hm in H3. done. }
    intros H. unfold STATUS_TO_PRIORITY.
    unfold Spec.status_priority in H. simpl in H.
    repeat
      match goal with
      | |- context [String.eqb (status st) ?s] =>
          let E := fresh "E" in
          destruct (String.eqb_spec (status st) s) as [E | E];
          [rewrite E in H; vm_compute in H; congruence
          |rewrite lookup_insert_ne in H by congruence]
      end.
    rewrite lookup_empty in H. done.
Qed.

Lemma sort_key_spec st k :
  Spec.ordering_key st = Some k →
  sort_key st = (let '(a, b, c, d, e, f) := k in [a; b; c; d; e; f]).
Proof.
  unfold Spec.ordering_key. intros H.
  destruct (_ !! Spec.effective_status st) as [p|] eqn:Hp; [|done].
  simpl in H. injection H as <-.
  apply status_component in Hp. unfold sort_key. rewrite Hp.
  repeat f_equal.
  - destruct (mergeable st) as [[]|]; by repeat case_decide.
  - destruct (approved_by st); by repeat case_decide.
Qed.

End ordering.

Lemma lt_key_lt a b ka kb :
  Spec.ordering_key a = Some ka → Spec.ordering_key b = Some kb →
  lt a b = true ↔ Spec.key_lt ka kb.
Proof.
  intros Ha Hb. unfold lt.
  rewrite (sort_key_spec _ _ Ha), (sort_key_spec _ _ Hb).
  destruct ka as [[[[[a1 a2] a3] a4] a5] a6].
  destruct kb as [[[[[b1 b2] b3] b4] b5] b6].
  unfold Spec.key_lt.
  do 5 rewrite list_lt_cons. rewrite list_lt_single. tauto.
Qed.

Lemma sorted_queue m l :
  l ∈ permutations (Sample.queue m) → num <$> sorted l = [10; 20; 15; 30]%Z.
Proof.
  intros H. unfold Sample.queue in H. cbn [permutations interleave] in H.
  unfold mbind, list_bind in H. cbn [interleave fmap list_fmap app] in H.
  repeat (apply elem_of_cons in H as [-> | H];
          [destruct m as [[]|]; vm_compute; reflexivity |]).
  by apply elem_of_nil in H.
Qed.

(** C1. The ordering key of the code is the lexicographic 6-tuple of the
    data model (status priority of the effective status, 1 if known
    unmergeable, 0 if approved, 1 if rollup, negated priority, number),
    and the four PRs of the ordering scenario, in whatever order the
    queue holds them, sort to 10, 20, 15, 30. *)
Theorem C1_ordering_key (a b : PullReqState) (ka kb : Spec.key)
    (m : option bool) (l : list PullReqState) :
  Spec.ordering_key a = Some ka →
  Spec.ordering_key b = Some kb →
  l ≡ₚ Sample.queue m →
  (lt a b = true ↔ Spec.key_lt ka kb)
  ∧ sort_key a = (let '(k1, k2, k3, k4, k5, k6) := ka in [k1; k2; k3; k4; k5; k6])
  ∧ num <$> sorted l = [10; 20; 15; 30]%Z.
Proof.
  intros Ha Hb Hl. split; [|split].
  - by apply lt_key_lt.
  - by apply sort_key_spec.
  - apply (sorted_queue m). apply permutations_Permutation. by symmetry.
Qed.

Lemma C1_ordering_key_witness :
  (lt (Sample.pr20 None) (Sample.pr15 None) = true
   ↔ Spec.key_lt (2, 0, 0, 0, 0, 20)%Z (2, 0, 0, 1, 0, 15)%Z)
  ∧ sort_key (Sample.pr20 None) = [2; 0; 0; 0; 0; 20]%Z
  ∧ num <$> sorted [Sample.pr30 None; Sample.pr15 None; Sample.pr20 None;
                    Sample.pr10 None] = [10; 20; 15; 30]%Z.
Proof.
  apply (C1_ordering_key (Sample.pr20 None) (Sample.pr15 None)
           (2, 0, 0, 0, 0, 20)%Z (2, 0, 0, 1, 0, 15)%Z None).
  - vm_compute. reflexivity.
  - vm_compute. reflexivity.
  - unfold Sample.queue.
    apply (Permutation_trans (l' := [Sample.pr10 None; Sample.pr30 None;
                                      Sample.pr15 None; Sample.pr20 None])).
    + change ([Sample.pr30 None; Sample.pr15 None; Sample.pr20 None]
                ++ [Sample.pr10 None]
              ≡ₚ [Sample.pr10 None]
                ++ [Sample.pr30 None; Sample.pr15 None; Sample.pr20 None]).
      apply Permutation_app_comm.
    + apply perm_skip.
      change ([Sample.pr30 None] ++ [Sample.pr15 None; Sample.pr20 None]
              ≡ₚ [Sample.pr20 None; Sample.pr15 None; Sample.pr30 None]).
      etrans; [apply Permutation_app_comm |]. simpl.
      apply perm_swap.
Defined.

(** ** The store operations of the entity *)

(** C7. [set_status] always issues the update of the [status] column of
    the row of the PR; it issues an update of the [merge_sha] column
    exactly when [try_] is false, and with [try_] true the stored
    [merge_sha] stays what it was.  Every other column, every other row and
    the other two tables stay as they were. *)
Theorem C7_set_status_persists (v : string) (st : PullReqState) (w : World) :
  let st' := (set_status v st w).1 in
  let w' := (set_status v st w).2 in
  let key := (repo_label st, num st) in
  status st' = v
  ∧ sql_log w' =
      sql_log w ++ UpdatePullStatus v (repo_label st) (num st) ::
        (if try_ st then []
         else [UpdatePullMergeSha (merge_sha st) (repo_label st) (num st)])
  ∧ ((∃ sha repo n, UpdatePullMergeSha sha repo n
                      ∈ drop (length (sql_log w)) (sql_log w'))
     ↔ try_ st = false)
  ∧ tbl_pull (db w') !! key =
      (λ r, {| row_status := v;
               row_merge_sha := if try_ st then row_merge_sha r else merge_sha st;
               row_title := row_title r; row_body := row_body r;
               row_head_sha := row_head_sha r; row_head_ref := row_head_ref r;
               row_base_ref := row_base_ref r; row_assignee := row_assignee r;
               row_approved_by := row_approved_by r;
               row_priority := row_priority r;
               row_try_ := row_try_ r; row_rollup := row_rollup r |})
      <$> tbl_pull (db w) !! key
  ∧ (∀ k, k ≠ key → tbl_pull (db w') !! k = tbl_pull (db w) !! k)
  ∧ tbl_build_res (db w') = tbl_build_res (db w)
  ∧ tbl_mergeable (db w') = tbl_mergeable (db w).
Proof.
  unfold set_status. destruct (try_ st) eqn:Ht; simpl; rewrite ?Ht; simpl.
  - split; [done|]. split; [done|]. split.
    { rewrite drop_app_length. split; [|done].
      intros (sha & repo & n & H). apply list_elem_of_singleton in H. done. }
    split.
    { rewrite lookup_alter_eq. by destruct (tbl_pull (db w) !! _). }
    split; [|done]. intros k Hk. by rewrite lookup_alter_ne.
  - split; [done|]. split; [by rewrite <- app_assoc|]. split.
    { rewrite <- app_assoc, drop_app_length. split; [done|]. intros _.
      eexists _, _, _. apply elem_of_cons. right. apply list_elem_of_singleton.
      reflexivity. }
    split.
    { rewrite !lookup_alter_eq. by destruct (tbl_pull (db w) !! _). }
    split; [|done]. intros k Hk. by rewrite !lookup_alter_ne.
Qed.

(** C10. For a builder that is not a key of [build_res],
    [set_build_res] raises, and neither the entity (with its
    build-results mapping) nor the store nor anything else has changed. *)
Theorem C10_set_build_res_unknown_builder (builder : string) (r : option bool)
    (u : string) (st : PullReqState) (w : World) :
  build_res st !! builder = None →
  set_build_res builder r u st w
  = (Raise (PyException ("Invalid builder: " +:+ builder)), st, w).
Proof.
  intros H. unfold set_build_res, bind, get_state.
  rewrite bool_decide_eq_false_2; [done|].
  by apply not_elem_of_dom.
Qed.

Lemma C10_set_build_res_unknown_builder_witness :
  set_build_res "windows" (Some true) "http://ci/1"
    (with_build_res (fresh_build_res ["linux"; "mac"]) Sample.pr7) Sample.world7
  = (Raise (PyException "Invalid builder: windows"),
     with_build_res (fresh_build_res ["linux"; "mac"]) Sample.pr7, Sample.world7).
Proof.
  apply (C10_set_build_res_unknown_builder "windows" (Some true) "http://ci/1"
           (with_build_res (fresh_build_res ["linux"; "mac"]) Sample.pr7)
           Sample.world7).
  vm_compute. reflexivity.
Defined.

(** ** The command parser *)

(** C8. A comment by an author who is neither a configured reviewer nor
    the bot returns false and leaves the entity and the world (the store,
    the statements sent to it, the calls made) exactly as they were. *)
Theorem C8_unauthorized_comment_changes_nothing (username : string)
    (repo : repo_cfg) (my_username : string) (pf : Platform) (realtime : bool)
    (sha body : string) (st : PullReqState) (w : World) :
  username ∉ reviewers repo →
  username ≠ my_username →
  parse_commands username repo my_username pf realtime sha body st w
  = (Return false, st, w).
Proof.
  intros Hr Hu. unfold parse_commands.
  rewrite bool_decide_eq_false_2 by done.
  apply String.eqb_neq in Hu. rewrite Hu. reflexivity.
Qed.

Lemma C8_unauthorized_comment_changes_nothing_witness :
  parse_commands "mallory" Sample.travis_repo "bot" (Sample.platform MergeNothing)
    true "" "@bot r+ p=100 retry force" Sample.pr7 Sample.world7
  = (Return false, Sample.pr7, Sample.world7).
Proof.
  apply (C8_unauthorized_comment_changes_nothing "mallory" Sample.travis_repo
           "bot" (Sample.platform MergeNothing) true ""
           "@bot r+ p=100 retry force" Sample.pr7 Sample.world7).
  - vm_compute. intros H. apply list_elem_of_singleton in H. discriminate.
  - discriminate.
Defined.

(** ** The build dispatcher *)

Ltac run_eff :=
  cbv [bind ret raise get_state get_world method effect assign
       github_create_status github_set_ref].

(** With the slot occupied [start_build] returns true at once. *)
Lemma start_build_slot_occupied repo_cfgs pf st w :
  truthy (buildbot_slots w) = true →
  start_build repo_cfgs pf st w = (Return true, st, w).
Proof. intros H. unfold start_build. run_eff. by rewrite H. Qed.

(** C4. When [start_build] reaches the merge request and the platform
    answers 409, the status is [error] (in the entity and in the stored
    row), an [error] status check with context [homu] and description
    [Merge conflict] is created, the comment [:lock: Merge conflict] is
    posted, [start_build] returns false and the build slot is unchanged;
    with any other error code the platform error is raised to the caller. *)
Theorem C4_merge_conflict (repo_cfgs : gmap string repo_cfg) (pf : Platform)
    (st : PullReqState) (w : World) (repo : repo_cfg) (branch_ : string)
    (builders : list string) (code : Z) :
  buildbot_slots w = "" →
  head_sha st = pf_pull_head_sha pf →
  repo_cfgs !! repo_label st = Some repo →
  choose_branch_builders repo st = Return (branch_, builders) →
  pf_merge pf = MergeFails code →
  let '(o, st', w') := start_build repo_cfgs pf st w in
  buildbot_slots w' = buildbot_slots w
  ∧ if (code =? 409)%Z then
      o = Return false
      ∧ status st' = "error"
      ∧ (∃ msg, calls w' = calls w ++
           [SetRef (repo_label st) ("heads/" +:+ branch_) (pf_base_sha pf) true;
            MergeReq (repo_label st) branch_ (head_sha st) msg;
            CreateStatus (repo_label st) (head_sha st) "error" ""
              "Merge conflict" "homu";
            CreateComment (repo_label st) (num st) ":lock: Merge conflict"])
      ∧ row_status <$> tbl_pull (db w') !! (repo_label st, num st)
        = (λ _, "error") <$> tbl_pull (db w) !! (repo_label st, num st)
    else
      o = Raise (GitHubError code) ∧ status st' = status st.
Proof.
  intros Hslot Hhead Hcfg Hchoose Hmerge.
  unfold start_build. run_eff. rewrite Hslot. simpl.
  rewrite Hhead, String.eqb_refl. simpl. rewrite <- Hhead, Hcfg, Hchoose.
  unfold create_merge. run_eff. rewrite Hmerge.
  destruct (code =? 409)%Z eqn:Hc; simpl.
  - unfold set_status. simpl. destruct (try_ st); simpl.
    + split; [done|]. split; [done|]. split; [done|]. split.
      { eexists. rewrite <- !app_assoc. reflexivity. }
      rewrite lookup_alter_eq. by destruct (tbl_pull (db w) !! _).
    + split; [done|]. split; [done|]. split; [done|]. split.
      { eexists. rewrite <- !app_assoc. reflexivity. }
      rewrite !lookup_alter_eq. by destruct (tbl_pull (db w) !! _).
  - done.
Qed.

Lemma C4_merge_conflict_witness :
  let '(o, st', w') :=
    start_build {["repo" := Sample.buildbot_repo]}
      (Sample.platform (MergeFails 409)) Sample.pr7 Sample.world7 in
  buildbot_slots w' = ""
  ∧ o = Return false
    ∧ status st' = "error"
    ∧ (∃ msg, calls w' = [] ++
         [SetRef "repo" "heads/auto" "0123456789abcdef0123456789abcdef01234567"
            true;
          MergeReq "repo" "auto" "deadbeefcafebabe0123456789abcdef01234567" msg;
          CreateStatus "repo" "deadbeefcafebabe0123456789abcdef01234567"
            "error" "" "Merge conflict" "homu";
          CreateComment "repo" 7 ":lock: Merge conflict"])
    ∧ row_status <$> tbl_pull (db w') !! ("repo", 7%Z)
      = (λ _, "error") <$> tbl_pull (db Sample.world7) !! ("repo", 7%Z).
Proof.
  apply (C4_merge_conflict {["repo" := Sample.buildbot_repo]}
           (Sample.platform (MergeFails 409)) Sample.pr7 Sample.world7
           Sample.buildbot_repo "auto" ["linux"; "mac"] 409%Z);
    vm_compute; reflexivity.
Defined.

Lemma for_each_keeps_slot {A} (f : A → Eff unit) (l : list A) st w :
  (∀ x w0, ∃ w1, f x st w0 = (Return tt, st, w1)
                 ∧ buildbot_slots w1 = buildbot_slots w0) →
  ∃ w', for_each f l st w = (Return tt, st, w')
        ∧ buildbot_slots w' = buildbot_slots w.
Proof.
  intros Hf. revert w. induction l as [|x l IH]; intros w; simpl.
  - by eexists.
  - destruct (Hf x w) as (w1 & E1 & H1).
    destruct (IH w1) as (w' & E & H').
    exists w'. unfold bind. rewrite E1, E. split; [done | congruence].
Qed.

(** The claim of C3 fails: for a repository on Travis, [start_build]
    dispatches the build when the slot is empty and dispatches nothing
    when the slot holds the merge commit of another build. *)
Lemma C3_counterexample :
  buildbot Sample.travis_repo = None
  ∧ Sample.dispatched
      (start_build {["repo" := Sample.travis_repo]}
         (Sample.platform (MergeCommit Sample.merge_commit))
         Sample.pr7 (Sample.world Sample.db7 ""))
  ∧ ¬ Sample.dispatched
      (start_build {["repo" := Sample.travis_repo]}
         (Sample.platform (MergeCommit Sample.merge_commit))
         Sample.pr7 (Sample.world Sample.db7 Sample.other_merge)).
Proof.
  split; [reflexivity|]. split.
  - split; [vm_compute; reflexivity|].
    eexists _, _, _. vm_compute.
    apply elem_of_cons. right. apply elem_of_cons. left. reflexivity.
  - intros [H _]. vm_compute in H. discriminate.
Qed.

(** C3 as amended.  The test of the build slot comes first and does not
    look at the CI block: also for a repository that is not
    session-based, an occupied slot makes [start_build] return true with
    no call made, no statement sent and no attribute changed.  What
    depends on the CI block is the write: such a repository never changes
    the slot. *)
Theorem C3_slot_test_is_unconditional (repo_cfgs : gmap string repo_cfg)
    (pf : Platform) (st : PullReqState) (w : World) (repo : repo_cfg) :
  repo_cfgs !! repo_label st = Some repo →
  buildbot repo = None →
  (truthy (buildbot_slots w) = true →
   start_build repo_cfgs pf st w = (Return true, st, w))
  ∧ buildbot_slots (start_build repo_cfgs pf st w).2 = buildbot_slots w.
Proof.
  intros Hcfg Hbb. split; [apply start_build_slot_occupied|].
  destruct (truthy (buildbot_slots w)) eqn:Hslot.
  { by rewrite start_build_slot_occupied. }
  unfold start_build. run_eff. rewrite Hslot.
  destruct (String.eqb (head_sha st) (pf_pull_head_sha pf)); simpl; [|done].
  rewrite Hcfg.
  destruct (choose_branch_builders repo st) as [[b bs]|e]; [|done].
  unfold create_merge. run_eff.
  destruct (pf_merge pf) as [c| |code]; simpl; [|done|].
  - rewrite Hbb. rewrite (bool_decide_eq_false_2 (is_Some None))
      by (intros [? ?]; discriminate).
    unfold init_build_res, set_status. simpl.
    destruct (try_ st); simpl;
      (destruct (bool_decide (is_Some (testrunners repo)));
       [match goal with
        | |- context [for_each ?f ?l ?s ?w0] =>
            let H := fresh in
            destruct (for_each_keeps_slot f l s w0) as (w' & E & Hs);
            [intros; eexists; split; reflexivity
            |rewrite E; simpl; exact Hs]
        end
       |done]).
  - destruct (code =? 409)%Z; simpl; [|done].
    unfold set_status. simpl. by destruct (try_ st).
Qed.

Lemma C3_slot_test_is_unconditional_witness :
  start_build {["repo" := Sample.travis_repo]}
    (Sample.platform (MergeCommit Sample.merge_commit)) Sample.pr7
    (Sample.world Sample.db7 Sample.other_merge)
  = (Return true, Sample.pr7, Sample.world Sample.db7 Sample.other_merge)
  ∧ buildbot_slots
      (start_build {["repo" := Sample.travis_repo]}
         (Sample.platform (MergeCommit Sample.merge_commit)) Sample.pr7
         (Sample.world Sample.db7 "")).2
    = "".
Proof.
  split.
  - apply (C3_slot_test_is_unconditional {["repo" := Sample.travis_repo]}
             (Sample.platform (MergeCommit Sample.merge_commit)) Sample.pr7
             (Sample.world Sample.db7 Sample.other_merge) Sample.travis_repo);
      vm_compute; reflexivity.
  - apply (C3_slot_test_is_unconditional {["repo" := Sample.travis_repo]}
             (Sample.platform (MergeCommit Sample.merge_commit)) Sample.pr7
             (Sample.world Sample.db7 "") Sample.travis_repo);
      vm_compute; reflexivity.
Defined.

(** ** Recovery *)

Section recovery.
Variables (label : string) (repo : repo_cfg) (builders : list string).
Hypothesis Hbuilders : recovery_builders repo = Return builders.

(** What loading one fetched row gives. *)
Lemma load_pull_ok (n : Z) (row : pull_row) (w : World) :
  ∃ st w',
    load_pull label repo n row w = (Return tt, st, w')
    ∧ num st = n ∧ repo_label st = label
    ∧ merge_sha st = row_merge_sha row
    ∧ (if truthy (row_merge_sha row) then
         status st = row_status row
         ∧ build_res st = fresh_build_res builders
         ∧ tbl_pull (db w') = tbl_pull (db w)
       else if String.eqb (row_status row) "pending" then
         status st = ""
         ∧ tbl_pull (db w') =
             <[(label, n) := row_with_status "" row]> (tbl_pull (db w))
         ∧ ReplacePull label n (row_with_status "" row) ∈ sql_log w'
       else
         status st = row_status row
         ∧ tbl_pull (db w') = tbl_pull (db w)).
Proof.
  unfold load_pull, load_row. run_eff. simpl.
  destruct (truthy (row_merge_sha row)) eqn:Hm.
  - rewrite Hbuilders. simpl. eexists _, _. split; [reflexivity|]. done.
  - simpl. destruct (String.eqb (row_status row) "pending") eqn:Hp.
    + eexists _, _. split; [reflexivity|]. simpl.
      assert (row_merge_sha row = "") as Hempty
        by (destruct (row_merge_sha row); [done | discriminate]).
      split; [done|]. split; [done|]. split; [done|]. split; [done|].
      match goal with
      | |- context [row_of ?s] =>
          assert (row_of s = row_with_status "" row) as ->
            by (unfold row_of, row_with_status; simpl; by rewrite Hempty)
      end.
      split; [done|]. apply elem_of_app. right.
      by apply list_elem_of_singleton.
    + eexists _, _. split; [reflexivity|]. simpl.
      assert (row_merge_sha row = "") as Hempty
        by (destruct (row_merge_sha row); [done | discriminate]).
      done.
Qed.

(** The rows of the other PRs are not touched by loading one row. *)
Lemma load_pull_other (n : Z) (row : pull_row) (w : World) k :
  k ≠ (label, n) →
  tbl_pull (db (load_pull label repo n row w).2) !! k = tbl_pull (db w) !! k.
Proof.
  intros Hk. destruct (load_pull_ok n row w) as (st & w' & E & _ & _ & _ & H).
  rewrite E. simpl.
  destruct (truthy (row_merge_sha row)); [by destruct H as (_ & _ & ->)|].
  destruct (String.eqb (row_status row) "pending").
  - destruct H as (_ & -> & _). by rewrite lookup_insert_ne.
  - by destruct H as (_ & ->).
Qed.

End recovery.

Lemma NoDup_omap_inj {A B} (f : A → option B) (l : list A) :
  (∀ x y z, f x = Some z → f y = Some z → x = y) →
  NoDup l → NoDup (omap f l).
Proof.
  intros Hf. induction 1 as [|x l Hx _ IH]; simpl; [constructor|].
  destruct (f x) as [z|] eqn:E; [|done].
  constructor; [|done].
  intros (y & Hy & Ey)%list_elem_of_omap.
  by rewrite (Hf x y z E Ey) in Hx.
Qed.

Lemma elem_of_fetch_pulls label d n row :
  (n, row) ∈ fetch_pulls label d ↔ tbl_pull d !! (label, n) = Some row.
Proof.
  unfold fetch_pulls. rewrite list_elem_of_omap. split.
  - intros ([[l' n'] row'] & Hin & E). simpl in E.
    destruct (String.eqb_spec l' label) as [-> | ?]; [|done].
    injection E as -> ->. by apply elem_of_map_to_list.
  - intros H. exists (label, n, row). split; [by apply elem_of_map_to_list|].
    simpl. by rewrite String.eqb_refl.
Qed.

Lemma NoDup_fetch_pulls label d : NoDup (fetch_pulls label d).*1.
Proof.
  apply NoDup_fmap_fst.
  - intros n r1 r2 H1%elem_of_fetch_pulls H2%elem_of_fetch_pulls. congruence.
  - apply NoDup_omap_inj; [|apply NoDup_map_to_list].
    intros [[l1 n1] r1] [[l2 n2] r2] [n r]; simpl.
    destruct (String.eqb_spec l1 label), (String.eqb_spec l2 label);
      try done.
    intros [= -> ->] [= -> ->]. congruence.
Qed.

Section recovery_loop.
Variables (label : string) (repo : repo_cfg) (builders : list string).
Hypothesis Hbuilders : recovery_builders repo = Return builders.

Lemma load_pull_recovered (n : Z) (row : pull_row) (w : World) :
  ∃ st w' l,
    load_pull label repo n row w = (Return tt, st, w')
    ∧ sql_log w' = sql_log w ++ l
    ∧ recovered_row label builders n row st
        (tbl_pull (db w) !! (label, n)) (tbl_pull (db w') !! (label, n))
        (sql_log w').
Proof.
  destruct (load_pull_ok label repo builders Hbuilders n row w)
    as (st & w' & E & Hn & Hl & Hm & H).
  exists st, w'.
  assert (∃ l, sql_log w' = sql_log w ++ l) as [l Hlog].
  { revert E. unfold load_pull, load_row. run_eff. simpl.
    destruct (truthy (row_merge_sha row)).
    - rewrite Hbuilders. simpl. intros [= <- <-]. by eexists.
    - simpl. destruct (String.eqb (row_status row) "pending");
        intros [= <- <-]; simpl; [rewrite <- app_assoc|]; by eexists. }
  exists l. split; [done|]. split; [done|].
  unfold recovered_row. split; [done|]. split; [done|]. split; [done|].
  destruct (truthy (row_merge_sha row)).
  { destruct H as (? & ? & ->). done. }
  destruct (String.eqb (row_status row) "pending").
  - destruct H as (? & -> & ?). by rewrite lookup_insert_eq.
  - destruct H as (? & ->). done.
Qed.

Lemma load_rows_ok (rows : list (Z * pull_row)) :
  ∀ (s0 : gmap Z PullReqState) (w : World),
  NoDup rows.*1 →
  ∃ states w' l,
    load_rows label repo rows s0 w = (Return states, w')
    ∧ sql_log w' = sql_log w ++ l
    ∧ (∀ n row, (n, row) ∈ rows →
         ∃ st, states !! n = Some st
               ∧ recovered_row label builders n row st
                   (tbl_pull (db w) !! (label, n))
                   (tbl_pull (db w') !! (label, n)) (sql_log w'))
    ∧ (∀ n, n ∉ rows.*1 →
         states !! n = s0 !! n
         ∧ tbl_pull (db w') !! (label, n) = tbl_pull (db w) !! (label, n)).
Proof.
  induction rows as [|[n row] rows IH]; intros s0 w Hnd; simpl.
  - exists s0, w, []. rewrite app_nil_r. split; [done|]. split; [done|].
    split; [|done]. intros ? ? []%elem_of_nil.
  - apply NoDup_cons in Hnd as [Hn Hnd]. simpl in Hn.
    destruct (load_pull_recovered n row w)
      as (st1 & w1 & l1 & E1 & Hlog1 & Hrec1).
    rewrite E1.
    destruct (IH (<[n := st1]> s0) w1 Hnd)
      as (states & w' & l & E & Hlog & Hin & Hout).
    exists states, w', (l1 ++ l). split; [done|].
    split; [by rewrite Hlog, Hlog1, app_assoc|].
    assert (Hother : ∀ n', n' ≠ n →
              tbl_pull (db w1) !! (label, n') = tbl_pull (db w) !! (label, n')).
    { intros n' Hn'.
      pose proof (load_pull_other label repo builders Hbuilders n row w
                    (label, n')) as H.
      rewrite E1 in H. apply H. congruence. }
    split.
    + intros n' row' [[= -> ->] | Hin']%elem_of_cons.
      * destruct (Hout n Hn) as [Hs Ht]. exists st1.
        rewrite Hs, lookup_insert_eq. split; [done|].
        unfold recovered_row in *. rewrite Ht.
        destruct Hrec1 as (? & ? & ? & Hrec1).
        split; [done|]. split; [done|]. split; [done|].
        destruct (truthy (row_merge_sha row)); [done|].
        destruct (String.eqb (row_status row) "pending"); [|done].
        destruct Hrec1 as (? & ? & Hq). split; [done|]. split; [done|].
        rewrite Hlog. apply elem_of_app. by left.
      * destruct (Hin n' row' Hin') as (st & Hs & Hrec). exists st.
        split; [done|].
        assert (n' ≠ n) as Hne.
        { intros ->. apply Hn. apply list_elem_of_fmap.
          by exists (n, row'). }
        by rewrite <- (Hother n' Hne).
    + intros n' Hn'. apply not_elem_of_cons in Hn' as [Hne Hn'].
      destruct (Hout n' Hn') as [Hs Ht].
      rewrite Hs, Ht, lookup_insert_ne by done. split; [done|].
      by apply Hother.
Qed.

End recovery_loop.

(** C5. Recovery of a repository loads every stored pull row.  A row that
    is [pending] with an empty [merge_sha] is loaded with the empty status
    and the demoted row is written back to the store; a row with a
    [merge_sha] keeps its status and its [merge_sha] and starts with build
    results for the builders of the CI block of the repository, each one
    without a result and without a url, and for no other builder.  The
    builders are those of the session CI, or [travis], or [status], or the
    test runners, by the first block that the configuration has. *)
Theorem C5_recovery_demotes_pending (label : string) (repo : repo_cfg)
    (builders : list string) (w : World) (n : Z) (row : pull_row) :
  match buildbot repo with
  | Some bb => builders = bb_builders bb
  | None =>
      if travis repo then builders = ["travis"]
      else if status_ci repo then builders = ["status"]
      else testrunners repo = Some builders
  end →
  tbl_pull (db w) !! (label, n) = Some row →
  ∃ states w' st,
    load_repo label repo w = (Return states, w')
    ∧ states !! n = Some st
    ∧ num st = n
    ∧ (row_merge_sha row = "" → row_status row = "pending" →
       status st = ""
       ∧ tbl_pull (db w') !! (label, n) = Some (row_with_status "" row)
       ∧ ReplacePull label n (row_with_status "" row) ∈ sql_log w')
    ∧ (row_merge_sha row ≠ "" →
       status st = row_status row
       ∧ merge_sha st = row_merge_sha row
       ∧ (∀ b, build_res st !! b
               = if bool_decide (b ∈ builders)
                 then Some (BuildInfo None "") else None)
       ∧ tbl_pull (db w') !! (label, n) = Some row).
Proof.
  intros Hb%recovery_builders_ci Hrow. unfold load_repo.
  destruct (load_rows_ok label repo builders Hb (fetch_pulls label (db w)) ∅ w
              (NoDup_fetch_pulls label (db w)))
    as (states & w' & l & E & Hlog & Hin & _).
  destruct (Hin n row) as (st & Hs & Hn & Hl & Hm & Hrec).
  { by apply elem_of_fetch_pulls. }
  exists states, w', st. split; [done|]. split; [done|]. split; [done|].
  split.
  - intros He Hp. rewrite He, Hp in Hrec. simpl in Hrec. done.
  - intros Hne. destruct (row_merge_sha row) eqn:Em; [done|]. simpl in Hrec.
    destruct Hrec as (? & Hres & Hafter). rewrite Hafter.
    split; [done|]. split; [done|]. split; [|done].
    intros b. rewrite Hres. apply lookup_fresh_build_res.
Qed.

Lemma C5_recovery_demotes_pending_witness :
  ∃ states w' st7 st8,
    load_repo "repo" Sample.travis_repo (Sample.world Sample.crashed_db "")
    = (Return states, w')
    ∧ states !! 7%Z = Some st7
    ∧ status st7 = ""
    ∧ tbl_pull (db w') !! ("repo", 7%Z)
      = Some (row_with_status "" Sample.crashed_row)
    ∧ ReplacePull "repo" 7 (row_with_status "" Sample.crashed_row)
      ∈ sql_log w'
    ∧ states !! 8%Z = Some st8
    ∧ status st8 = "pending"
    ∧ merge_sha st8 = "feedfacefeedfacefeedfacefeedfacefeedface"
    ∧ build_res st8 !! "travis" = Some (BuildInfo None "")
    ∧ build_res st8 !! "linux" = None
    ∧ tbl_pull (db w') !! ("repo", 8%Z) = Some Sample.tested_row.
Proof.
  destruct (C5_recovery_demotes_pending "repo" Sample.travis_repo ["travis"]
              (Sample.world Sample.crashed_db "") 7%Z Sample.crashed_row)
    as (states & w' & st7 & E & Hs7 & _ & Hd & _).
  { reflexivity. }
  { vm_compute. reflexivity. }
  destruct (C5_recovery_demotes_pending "repo" Sample.travis_repo ["travis"]
              (Sample.world Sample.crashed_db "") 8%Z Sample.tested_row)
    as (states' & w'' & st8 & E' & Hs8 & _ & _ & Hk).
  { reflexivity. }
  { vm_compute. reflexivity. }
  rewrite E in E'. injection E' as <- <-.
  destruct Hd as (? & ? & ?); [reflexivity..|].
  destruct Hk as (? & ? & Hres & ?); [discriminate|].
  exists states, w', st7, st8.
  split; [done|]. split; [done|]. split; [done|]. split; [done|].
  split; [done|]. split; [done|]. split; [done|]. split; [done|].
  split; [exact (Hres "travis")|]. split; [exact (Hres "linux")|]. done.
Defined.

(** ** Replaying a comment *)

Lemma overwrite_none st : overwrite None None None st = st.
Proof. by destruct st. Qed.

Lemma overwrite_overwrite oa2 op2 or2 oa1 op1 or1 st :
  overwrite oa2 op2 or2 (overwrite oa1 op1 or1 st)
  = overwrite (oa2 ∪ oa1) (op2 ∪ op1) (or2 ∪ or1) st.
Proof.
  destruct st, oa2, op2, or2, oa1, op1, or1; reflexivity.
Qed.

Lemma overwrite_idemp oa op orl st :
  overwrite oa op orl (overwrite oa op orl st) = overwrite oa op orl st.
Proof. destruct st, oa, op, orl; reflexivity. Qed.

Lemma stored_save st w : stored true st w (save st w).
Proof. done. Qed.

Lemma stored_refl st w : stored false st w w.
Proof. done. Qed.

Section replay.
Variables (username : string) (repo : repo_cfg) (my_username : string).
Variables (pf : Platform) (sha : string).
(** The head commit of the PR, which no directive changes. *)
Variable h : string.

Local Abbreviation directive' := (directive username repo my_username pf false sha).
Local Abbreviation parse_loop' := (parse_loop username repo my_username pf false sha).

(** Outside realtime mode one directive assigns constants to
    [approved_by], [priority] or [rollup] and saves, or does nothing. *)
Lemma directive_overwrite (i : nat) (word : string) (words : list string) :
  ∃ oa op orl saved found,
    (saved = false → oa = None ∧ op = None ∧ orl = None)
    ∧ ∀ st w, head_sha st = h →
        ∃ w', directive' i word words st w
              = (Return found, overwrite oa op orl st, w')
              ∧ stored saved (overwrite oa op orl st) w w'.
Proof.
  unfold directive. rewrite !andb_false_r.
  destruct (String.eqb word "r+" || startswith "r=" word).
  { unfold approve. simpl.
    set (cur_sha := if negb (truthy sha) && (i + 1 <? length words)%nat
                    then sha_or_blank (words !!! (i + 1)%nat) else sha).
    set (approver := if startswith "r=" word
                     then slice_from (String.length "r=") word else username).
    destruct (sha_cmp cur_sha h) eqn:Hc.
    - exists (Some approver), None, None, true, true. split; [done|].
      intros st w <-. run_eff. simpl. rewrite Hc. eexists. split; [done|].
      apply stored_save.
    - exists None, None, None, false, true. split; [done|].
      intros st w <-. run_eff. rewrite Hc, overwrite_none.
      eexists. split; [done|]. apply stored_refl. }
  destruct (String.eqb word "r-").
  { exists (Some ""), None, None, true, true. split; [done|].
    intros st w _. run_eff. eexists. split; [done|]. apply stored_save. }
  destruct (startswith "p=" word).
  { destruct (int (slice_from (String.length "p=") word)) as [v|].
    - exists None, (Some v), None, true, true. split; [done|].
      intros st w _. run_eff. eexists. split; [done|]. apply stored_save.
    - exists None, None, None, true, true. split; [done|].
      intros st w _. run_eff. rewrite overwrite_none.
      eexists. split; [done|]. apply stored_save. }
  destruct (String.eqb word "rollup" || String.eqb word "rollup-").
  { exists None, None, (Some (String.eqb word "rollup")), true, true.
    split; [done|].
    intros st w _. run_eff. eexists. split; [done|]. apply stored_save. }
  exists None, None, None, false, false. split; [done|].
  intros st w _. run_eff. rewrite overwrite_none.
  eexists. split; [done|]. apply stored_refl.
Qed.

Lemma stored_trans s1 s2 st1 st2 w w1 w2 :
  repo_label st2 = repo_label st1 → num st2 = num st1 →
  (s2 = false → st2 = st1) →
  stored s1 st1 w w1 → stored s2 st2 w1 w2 → stored (s2 || s1) st2 w w2.
Proof.
  intros Hl Hn He (? & ? & ? & ? & ? & Hp1) (? & ? & ? & ? & ? & Hp2).
  repeat (split; [congruence|]).
  rewrite Hp2, Hp1. destruct s2; simpl.
  - destruct s1; [|done]. rewrite Hl, Hn. apply insert_insert_eq.
  - by rewrite He.
Qed.

Lemma parse_loop_overwrite (items : list (nat * string)) :
  ∀ (words : list string) (changed : bool),
  ∃ oa op orl saved changed',
    (saved = false → oa = None ∧ op = None ∧ orl = None)
    ∧ ∀ st w, head_sha st = h →
        ∃ w', parse_loop' items words changed st w
              = (Return changed', overwrite oa op orl st, w')
              ∧ stored saved (overwrite oa op orl st) w w'.
Proof.
  induction items as [|[i word] items IH]; intros words changed; simpl.
  - exists None, None, None, false, changed. split; [done|].
    intros st w _. rewrite overwrite_none. eexists. split; [done|].
    apply stored_refl.
  - destruct (directive_overwrite i word words)
      as (oa1 & op1 & or1 & s1 & found & Hs1 & H1).
    destruct (IH (if found then <[i := ""]> words else words)
                 (if found then true else changed))
      as (oa2 & op2 & or2 & s2 & changed' & Hs2 & H2).
    exists (oa2 ∪ oa1), (op2 ∪ op1), (or2 ∪ or1), (s2 || s1), changed'.
    split.
    { intros [-> ->]%orb_false_elim.
      destruct (Hs1 eq_refl) as (-> & -> & ->).
      destruct (Hs2 eq_refl) as (-> & -> & ->). done. }
    intros st w Hh. destruct (H1 st w Hh) as (w1 & E1 & St1).
    destruct (H2 (overwrite oa1 op1 or1 st) w1) as (w2 & E2 & St2); [done|].
    exists w2. unfold bind. rewrite E1.
    rewrite overwrite_overwrite in E2, St2. split.
    + destruct found; exact E2.
    + eapply stored_trans; [| | |exact St1|exact St2]; [done..|].
      intros ->. destruct (Hs2 eq_refl) as (-> & -> & ->).
      by destruct oa1, op1, or1.
Qed.

End replay.

(** C9. Parsing an authorized comment twice in succession outside
    realtime mode ends in the entity and in the store that parsing it once
    ends in, with the same return value and without any call made. *)
Theorem C9_replay_is_idempotent (username : string) (repo : repo_cfg)
    (my_username : string) (pf : Platform) (sha body : string)
    (st : PullReqState) (w : World) :
  username ∈ reviewers repo ∨ username = my_username →
  let '(o1, st1, w1) :=
    parse_commands username repo my_username pf false sha body st w in
  let '(o2, st2, w2) :=
    parse_commands username repo my_username pf false sha body st1 w1 in
  (∃ changed, o1 = Return changed)
  ∧ o2 = o1 ∧ st2 = st1 ∧ db w2 = db w1
  ∧ calls w2 = calls w ∧ calls w1 = calls w
  ∧ mergeable_que w2 = mergeable_que w1
  ∧ buildbot_slots w2 = buildbot_slots w1.
Proof.
  intros _. unfold parse_commands.
  destruct (negb (bool_decide (username ∈ reviewers repo))
            && negb (String.eqb username my_username)).
  { unfold ret. split; [by eexists | done]. }
  set (words := mention_words body my_username).
  destruct (parse_loop_overwrite username repo my_username pf sha (head_sha st)
              (rev (imap pair words)) words false)
    as (oa & op & orl & saved & changed & _ & H).
  destruct (H st w eq_refl) as (w1 & E1 & St1). rewrite E1.
  destruct (H (overwrite oa op orl st) w1 eq_refl) as (w2 & E2 & St2).
  rewrite E2. rewrite overwrite_idemp in *.
  destruct St1 as (Hc1 & Hq1 & Hs1 & Hb1 & Hm1 & Hp1).
  destruct St2 as (Hc2 & Hq2 & Hs2 & Hb2 & Hm2 & Hp2).
  split; [by eexists|]. split; [done|]. split; [done|]. split.
  { assert (tbl_pull (db w2) = tbl_pull (db w1)) as Hp.
    { rewrite Hp2, Hp1. destruct saved; [|done]. apply insert_insert_eq. }
    destruct (db w2), (db w1). simpl in *. congruence. }
  repeat split; congruence.
Qed.

Lemma C9_replay_is_idempotent_witness :
  let '(o1, st1, w1) :=
    parse_commands "alice" Sample.travis_repo "bot" (Sample.platform MergeNothing)
      false "" Sample.replayed_body Sample.pr7 Sample.world7 in
  let '(o2, st2, w2) :=
    parse_commands "alice" Sample.travis_repo "bot" (Sample.platform MergeNothing)
      false "" Sample.replayed_body st1 w1 in
  (∃ changed, o1 = Return changed)
  ∧ o2 = o1 ∧ st2 = st1 ∧ db w2 = db w1
  ∧ calls w2 = calls Sample.world7 ∧ calls w1 = calls Sample.world7
  ∧ mergeable_que w2 = mergeable_que w1
  ∧ buildbot_slots w2 = buildbot_slots w1.
Proof.
  apply (C9_replay_is_idempotent "alice" Sample.travis_repo "bot"
           (Sample.platform MergeNothing) "" Sample.replayed_body
           Sample.pr7 Sample.world7).
  left. apply list_elem_of_singleton. reflexivity.
Defined.

(** ** A comment with one directive *)

Section one_directive.
Variables (username : string) (repo : repo_cfg) (my_username : string).
Variables (pf : Platform) (realtime : bool) (sha : string).

Local Abbreviation directive1 :=
  (directive username repo my_username pf realtime sha).
Local Abbreviation parse_loop1 :=
  (parse_loop username repo my_username pf realtime sha).

(** A word that is no directive falls through the whole chain. *)
Lemma directive_not_found i word words st w :
  is_directive realtime word = false →
  directive1 i word words st w = (Return false, st, w).
Proof.
  unfold is_directive. intros H.
  repeat (apply orb_false_elim in H as [H ?]).
  unfold directive.
  repeat match goal with
         | Hc : ?c = false |- context [?c] => rewrite Hc
         end.
  reflexivity.
Qed.

Lemma parse_loop_skip items1 items2 words changed st w :
  Forall (λ it : nat * string, is_directive realtime it.2 = false) items1 →
  parse_loop1 (items1 ++ items2) words changed st w
  = parse_loop1 items2 words changed st w.
Proof.
  induction 1 as [|[i word] items1 Hw _ IH]; simpl; [done|].
  unfold bind. by rewrite directive_not_found.
Qed.

Lemma Forall_imap_words (P : string → Prop) (l : list string) :
  Forall P l →
  ∀ f : nat → string → nat * string,
    (∀ j x, (f j x).2 = x) →
    Forall (λ it : nat * string, P it.2) (imap f l).
Proof.
  induction 1 as [|x l Hx _ IH]; intros f Hf; simpl; constructor.
  - by rewrite Hf.
  - apply IH. intros j y. apply Hf.
Qed.

(** With no other directive in the comment, the loop is one run of the
    loop body at the directive. *)
Lemma parse_loop_one (l1 l2 : list string) (word : string) st w :
  Forall (λ x, is_directive realtime x = false) (l1 ++ l2) →
  parse_loop1 (rev (imap pair (l1 ++ word :: l2))) (l1 ++ word :: l2) false st w
  = directive1 (length l1) word (l1 ++ word :: l2) st w.
Proof.
  intros [H1 H2]%Forall_app.
  rewrite imap_app, imap_cons, rev_app_distr. simpl rev.
  rewrite Nat.add_0_r, <- !app_assoc. simpl.
  rewrite parse_loop_skip.
  2:{ apply Forall_rev.
      by apply (Forall_imap_words (λ x, is_directive realtime x = false)). }
  simpl. unfold bind.
  destruct (directive1 (length l1) word (l1 ++ word :: l2) st w)
    as [[[found|e] st'] w']; [|done].
  pose proof (parse_loop_skip (rev (imap pair l1)) []) as Hskip.
  rewrite !app_nil_r in Hskip.
  destruct found; rewrite Hskip; try done;
    apply Forall_rev;
    by apply (Forall_imap_words (λ x, is_directive realtime x = false)).
Qed.

End one_directive.

Lemma hex_match_truthy s : hex_match s = true → truthy s = true.
Proof. by destruct s. Qed.

Lemma slice_to_all s : slice_to (String.length s) s = s.
Proof. unfold slice_to. induction s as [|c s IH]; simpl; [done|]. by rewrite IH. Qed.

Lemma sha_cmp_self s : (4 ≤ String.length s)%nat → sha_cmp s s = true.
Proof.
  intros H. unfold sha_cmp. rewrite slice_to_all, String.eqb_refl.
  apply Nat.leb_le in H. by rewrite H.
Qed.

(** A token of hex digits is no directive. *)
Lemma hex_not_directive realtime x :
  hex_match x = true → is_directive realtime x = false.
Proof.
  intros Hx. apply not_true_is_false. intros Hd. unfold is_directive in Hd.
  assert (Hpre : ∀ c p, is_hex c = false →
            String.prefix (String c p) x = true → False).
  { intros c p Hc Hp. destruct x as [|c' x']; [done|]. simpl in Hp.
    destruct (ascii_dec c c') as [<- | ?]; [|done].
    simpl in Hx. by rewrite Hc in Hx. }
  repeat match type of Hd with
         | (_ || _) = true => apply orb_prop in Hd as [Hd | Hd]
         | (_ && _) = true => apply andb_prop in Hd as [Hd _]
         end;
    try (apply String.eqb_eq in Hd; subst x; vm_compute in Hx; discriminate);
    try (eapply Hpre; [|exact Hd]; reflexivity).
Qed.

Section approval.
Variables (username : string) (repo : repo_cfg) (my_username : string).
Variables (pf : Platform) (realtime : bool).

(** The token after the directive, when no commit is bound to the
    comment. *)
Lemma cur_sha_next (l1 rest : list string) (word : string) :
  (if negb (truthy "") && (length l1 + 1 <? length (l1 ++ word :: rest))%nat
   then sha_or_blank ((l1 ++ word :: rest) !!! (length l1 + 1)%nat) else "")
  = sha_or_blank (default "" (head rest)).
Proof.
  rewrite length_app. simpl. destruct rest as [|x rest]; simpl.
  - by rewrite (proj2 (Nat.ltb_ge _ _)) by lia.
  - rewrite (proj2 (Nat.ltb_lt _ _)) by lia.
    rewrite (list_lookup_total_correct _ _ x); [done|].
    rewrite lookup_app_r by lia.
    replace (length l1 + 1 - length l1)%nat with 1%nat by lia. done.
Qed.

(** The loop body at [r+] or [r=<user>] in a comment with no commit
    bound to it. *)
Lemma directive_approve (l1 rest : list string) (word : string) st w :
  String.eqb word "r+" || startswith "r=" word = true →
  directive username repo my_username pf realtime "" (length l1) word
    (l1 ++ word :: rest) st w
  = let cur_sha := sha_or_blank (default "" (head rest)) in
    let approver :=
      if startswith "r=" word then slice_from (String.length "r=") word
      else username in
    if sha_cmp cur_sha (head_sha st) then
      (Return true, with_approved_by approver st,
       save (with_approved_by approver st) w)
    else if realtime && negb (String.eqb username my_username) then
      (Return true, st,
       add_comment
         (if truthy cur_sha then not_valid_comment cur_sha (head_sha st)
          else approved_comment (head_sha st) approver my_username) st w)
    else (Return true, st, w).
Proof.
  intros Hw. unfold directive. rewrite Hw. unfold approve.
  rewrite cur_sha_next. run_eff. simpl.
  destruct (sha_cmp _ (head_sha st)); [done|].
  destruct (realtime && negb (String.eqb username my_username)); [|done].
  by destruct (truthy _).
Qed.

End approval.

Lemma startswith_r_eq u : startswith "r=" ("r=" +:+ u) = true.
Proof.
  change ("r=" +:+ u) with (String "r" (String "=" u)).
  unfold startswith. simpl. by destruct u.
Qed.

Lemma slice_from_r_eq u : slice_from (String.length "r=") ("r=" +:+ u) = u.
Proof. reflexivity. Qed.

Lemma authorized_guard username repo my_username :
  username ∈ reviewers repo ∨ username = my_username →
  negb (bool_decide (username ∈ reviewers repo))
  && negb (String.eqb username my_username) = false.
Proof.
  intros [H | ->].
  - by rewrite bool_decide_eq_true_2.
  - by rewrite String.eqb_refl, andb_false_r.
Qed.

(** The claim of C2 fails: after an authorized [@bot r+] the approver is
    still empty, in realtime mode and outside it. *)
Lemma C2_counterexample :
  "alice" ∈ reviewers Sample.travis_repo
  ∧ mention_words "@bot r+" "bot" = ["@bot"; "r+"]
  ∧ head_sha Sample.pr7 = "deadbeefcafebabe0123456789abcdef01234567"
  ∧ ∀ realtime,
      approved_by
        (parse_commands "alice" Sample.travis_repo "bot"
           (Sample.platform MergeNothing) realtime "" "@bot r+"
           Sample.pr7 Sample.world7).1.2 ≠ "alice".
Proof.
  split; [by apply list_elem_of_singleton|].
  split; [vm_compute; reflexivity|]. split; [reflexivity|].
  intros []; vm_compute; discriminate.
Qed.

(** Parsing the acknowledgement of an approval as a comment of the bot
    approves the PR with its head SHA in the name of the acknowledged
    approver. *)
Lemma acknowledgement_approves (username : string) (repo : repo_cfg)
    (my_username : string) (pf : Platform) (replay : bool)
    (st : PullReqState) (w0 : World) :
  hex_match (head_sha st) = true →
  (4 ≤ String.length (head_sha st))%nat →
  mention_words (approved_comment (head_sha st) username my_username)
    my_username
  = ["<!--"; "@" +:+ my_username; "r=" +:+ username; head_sha st; "-->"] →
  parse_commands my_username repo my_username pf replay ""
    (approved_comment (head_sha st) username my_username) st w0
  = (Return true, with_approved_by username st,
     save (with_approved_by username st) w0).
Proof.
  intros Hhex Hlen Hack. unfold parse_commands.
  rewrite authorized_guard by (by right). rewrite Hack.
  change ["<!--"; "@" +:+ my_username; "r=" +:+ username; head_sha st; "-->"]
    with (["<!--"; "@" +:+ my_username]
            ++ ("r=" +:+ username) :: [head_sha st; "-->"]).
  rewrite parse_loop_one.
  2:{ repeat constructor. by apply hex_not_directive. }
  rewrite directive_approve by (rewrite startswith_r_eq; apply orb_true_r).
  cbv zeta. rewrite startswith_r_eq, slice_from_r_eq. simpl.
  unfold sha_or_blank. rewrite Hhex, sha_cmp_self by done.
  reflexivity.
Qed.

Lemma prefix_app p s : String.prefix p (p +:+ s) = true.
Proof.
  induction p as [|c p IH].
  - change ("" +:+ s) with s. by destruct s.
  - change (String c p +:+ s) with (String c (p +:+ s)). simpl.
    by destruct (ascii_dec c c).
Qed.

Lemma contains_prefix p s : String.prefix p s = true → contains p s = true.
Proof. intros H. destruct s; cbn [contains]; by rewrite H. Qed.

(** The clarifying comment starts with the text of the scenario. *)
Lemma not_valid_comment_text tok head_ :
  contains (":question: `" +:+ tok +:+ "` is not a valid commit SHA.")
    (not_valid_comment tok head_) = true.
Proof.
  change (not_valid_comment tok head_)
    with ((":question: `" +:+ tok +:+ "` is not a valid commit SHA.")
            +:+ " Please try again with `" +:+ slice_to 7 head_ +:+ "`.").
  apply contains_prefix, prefix_app.
Qed.

(** The claim of C6 fails at the token of the scenario: [deadXXXX] is not
    made of hex digits, so it is not taken for a SHA, and no comment with
    the text of the claim is posted. *)
Lemma C6_counterexample :
  "alice" ∈ reviewers Sample.travis_repo
  ∧ mention_words "@bot r=alice deadXXXX" "bot" = ["@bot"; "r=alice"; "deadXXXX"]
  ∧ sha_cmp "deadXXXX" (head_sha Sample.pr7) = false
  ∧ ¬ ∃ text,
        CreateComment "repo" 7 text
          ∈ calls (parse_commands "alice" Sample.travis_repo "bot"
                     (Sample.platform MergeNothing) true ""
                     "@bot r=alice deadXXXX" Sample.pr7 Sample.world7).2
        ∧ contains ":question: `deadXXXX` is not a valid commit SHA." text
          = true.
Proof.
  split; [by apply list_elem_of_singleton|].
  split; [vm_compute; reflexivity|]. split; [vm_compute; reflexivity|].
  intros (text & Hin & Hc). vm_compute in Hin.
  apply list_elem_of_singleton in Hin. injection Hin as ->.
  vm_compute in Hc. discriminate.
Qed.

(** ** A directive among other directives *)

Ltac solve_calls :=
  simpl; rewrite <- ?app_assoc;
  first [reflexivity | symmetry; apply app_nil_r].

Section frame.
Variables (username : string) (repo : repo_cfg) (my_username : string).
Variables (pf : Platform) (realtime : bool) (sha : string).

Local Abbreviation directive2 :=
  (directive username repo my_username pf realtime sha).
Local Abbreviation parse_loop2 :=
  (parse_loop username repo my_username pf realtime sha).

(** What every run of the loop body keeps: it returns, the identity and
    the head of the PR stay, calls are only added, and [approved_by] is
    assigned by the approval directives only. *)
Lemma directive_frame i word words st w :
  can_run realtime repo word →
  ∃ found st' w' l,
    directive2 i word words st w = (Return found, st', w')
    ∧ head_sha st' = head_sha st
    ∧ repo_label st' = repo_label st
    ∧ num st' = num st
    ∧ calls w' = calls w ++ l
    ∧ (is_approval word = false → approved_by st' = approved_by st).
Proof.
  intros Hrun. unfold directive, is_approval.
  destruct (String.eqb word "r+" || startswith "r=" word) eqn:E1.
  { unfold approve. run_eff.
    destruct (sha_cmp _ (head_sha st)).
    { eexists _, _, _, _. split; [reflexivity|].
      repeat split; try done; solve_calls. }
    destruct (realtime && negb (String.eqb username my_username)).
    - destruct (truthy _); eexists _, _, _, _; (split; [reflexivity|]);
        repeat split; try done; solve_calls.
    - eexists _, _, _, _. split; [reflexivity|].
      repeat split; try done; solve_calls. }
  simpl orb.
  destruct (String.eqb word "r-") eqn:E2.
  { run_eff. eexists _, _, _, _. split; [reflexivity|].
    repeat split; try done; solve_calls. }
  destruct (startswith "p=" word).
  { run_eff. destruct (int _); eexists _, _, _, _; (split; [reflexivity|]);
      repeat split; try done; solve_calls. }
  destruct (String.eqb word "retry" && realtime).
  { run_eff. unfold set_status. simpl.
    destruct (try_ st); simpl; eexists _, _, _, _; (split; [reflexivity|]);
      repeat split; try done; solve_calls. }
  destruct ((String.eqb word "try" || String.eqb word "try-") && realtime).
  { run_eff. simpl. eexists _, _, _, _. split; [reflexivity|].
    repeat split; try done; solve_calls. }
  destruct (String.eqb word "rollup" || String.eqb word "rollup-").
  { run_eff. eexists _, _, _, _. split; [reflexivity|].
    repeat split; try done; solve_calls. }
  destruct (String.eqb word "force" && realtime) eqn:E7.
  { apply andb_prop in E7 as [Ef Er]. apply String.eqb_eq in Ef.
    destruct (Hrun Ef Er) as [bb Hbb]. unfold force. rewrite Hbb. run_eff.
    destruct (truthy _); eexists _, _, _, _; (split; [reflexivity|]);
      repeat split; try done; solve_calls. }
  destruct (String.eqb word "clean" && realtime).
  { run_eff. simpl. eexists _, _, _, _. split; [reflexivity|].
    repeat split; try done; solve_calls. }
  run_eff. eexists _, _, _, _. split; [reflexivity|].
  repeat split; try done; solve_calls.
Qed.

End frame.

Section loop_frame.
Variables (username : string) (repo : repo_cfg) (my_username : string).
Variables (pf : Platform) (realtime : bool) (sha : string).

Local Abbreviation parse_loop3 :=
  (parse_loop username repo my_username pf realtime sha).

(** Running the first items of the loop: the rest of the loop goes on
    from a list of words in which only directives of these items have
    been blanked. *)
Lemma parse_loop_run (items1 : list (nat * string)) :
  ∀ (items2 : list (nat * string)) (words : list string) (changed : bool)
    (st : PullReqState) (w : World),
  Forall (λ it : nat * string, can_run realtime repo it.2) items1 →
  ∃ words1 changed1 st1 w1 l,
    parse_loop3 (items1 ++ items2) words changed st w
    = parse_loop3 items2 words1 changed1 st1 w1
    ∧ head_sha st1 = head_sha st
    ∧ repo_label st1 = repo_label st
    ∧ num st1 = num st
    ∧ calls w1 = calls w ++ l
    ∧ (Forall (λ it : nat * string, is_approval it.2 = false) items1 →
       approved_by st1 = approved_by st)
    ∧ (∀ k, words1 !! k = words !! k
            ∨ ∃ x, (k, x) ∈ items1 ∧ is_directive realtime x = true
                   ∧ words1 !! k = Some "")
    ∧ (changed = true → changed1 = true).
Proof.
  induction items1 as [|[i word] items1 IH];
    intros items2 words changed st w Hrun; simpl.
  - exists words, changed, st, w, []. rewrite app_nil_r.
    repeat split; try done. intros k. by left.
  - apply Forall_cons in Hrun as [Hrun1 Hrun].
    destruct (directive_frame username repo my_username pf realtime sha
                i word words st w Hrun1)
      as (found & st0 & w0 & l0 & E0 & Hh0 & Hl0 & Hn0 & Hc0 & Ha0).
    assert (Hfound : found = true → is_directive realtime word = true).
    { intros ->. apply not_false_is_true. intros Hd.
      rewrite (directive_not_found username repo my_username pf realtime sha
                 i word words st w Hd) in E0. discriminate. }
    unfold bind. rewrite E0.
    destruct (IH items2 (if found then <[i := ""]> words else words)
                (if found then true else changed) st0 w0 Hrun)
      as (words1 & changed1 & st1 & w1 & l1 & E1 & Hh1 & Hl1 & Hn1 & Hc1
          & Ha1 & Hw1 & Hch1).
    exists words1, changed1, st1, w1, (l0 ++ l1).
    split; [by destruct found|].
    split; [congruence|]. split; [congruence|]. split; [congruence|].
    split; [by rewrite Hc1, Hc0, app_assoc|].
    split.
    { intros [Hap1 Hap]%Forall_cons. simpl in Hap1.
      rewrite (Ha1 Hap). by apply Ha0. }
    split.
    { intros k. destruct (Hw1 k) as [Hk | (x & Hx & Hd & Hk)].
      - destruct found; [|by left].
        destruct (decide (k = i)) as [-> | Hne].
        + destruct (decide (i < length words)%nat) as [Hlt | Hge].
          * right. exists word. split; [apply elem_of_cons; by left|].
            split; [by apply Hfound|].
            rewrite Hk. by apply list_lookup_insert_eq.
          * left. rewrite Hk. by rewrite list_insert_ge by lia.
        + left. rewrite Hk. by apply list_lookup_insert_ne.
      - right. exists x. split; [apply elem_of_cons; by right | done]. }
    intros Hch. apply Hch1. by destruct found.
Qed.

End loop_frame.

(** The items of the loop, split at one word: the words after it come
    first, the words before it last. *)
Lemma items_split (l1 rest : list string) (word : string) :
  ∃ post pre : list (nat * string),
    rev (imap pair (l1 ++ word :: rest)) = post ++ (length l1, word) :: pre
    ∧ (∀ P : string → Prop,
         Forall P rest → Forall (λ it : nat * string, P it.2) post)
    ∧ (∀ P : string → Prop,
         Forall P l1 → Forall (λ it : nat * string, P it.2) pre)
    ∧ (∀ k x, (k, x) ∈ post →
         ∃ n, k = (length l1 + S n)%nat ∧ rest !! n = Some x).
Proof.
  exists (rev (imap ((λ n, pair (length l1 + n)) ∘ S) rest)),
         (rev (imap pair l1)).
  split.
  { rewrite imap_app, imap_cons, rev_app_distr. simpl rev.
    by rewrite Nat.add_0_r, <- !app_assoc. }
  split.
  { intros P HP. apply Forall_rev. by apply (Forall_imap_words P). }
  split.
  { intros P HP. apply Forall_rev. by apply (Forall_imap_words P). }
  intros k x Hin.
  rewrite list_elem_of_In, <- in_rev, <- list_elem_of_In in Hin.
  apply elem_of_lookup_imap in Hin as (n & y & [= -> ->] & Hy).
  by exists n.
Qed.

Lemma lookup_next (l1 rest : list string) (word : string) :
  (l1 ++ word :: rest) !! (length l1 + 1)%nat = head rest.
Proof.
  rewrite lookup_app_r by lia.
  replace (length l1 + 1 - length l1)%nat with 1%nat by lia.
  by destruct rest.
Qed.

Lemma sha_or_blank_directive realtime x :
  is_directive realtime x = true → sha_or_blank x = "".
Proof.
  intros Hd. unfold sha_or_blank. destruct (hex_match x) eqn:Hx; [|done].
  by rewrite (hex_not_directive realtime x Hx) in Hd.
Qed.

Section approval_among_others.
Variables (username : string) (repo : repo_cfg) (my_username : string).
Variables (pf : Platform) (realtime : bool).

Lemma cur_sha_lookup (words : list string) (i : nat) :
  (if negb (truthy "") && (i + 1 <? length words)%nat
   then sha_or_blank (words !!! (i + 1)%nat) else "")
  = sha_or_blank (default "" (words !! (i + 1)%nat)).
Proof.
  destruct (words !! (i + 1)%nat) as [x|] eqn:E; simpl.
  - rewrite (proj2 (Nat.ltb_lt _ _)) by (by eapply lookup_lt_Some).
    by rewrite (list_lookup_total_correct _ _ x).
  - apply lookup_ge_None in E.
    by rewrite (proj2 (Nat.ltb_ge _ _)) by done.
Qed.

(** The loop body at [r+] or [r=<user>], at any place of any list of
    words, in a comment with no commit bound to it. *)
Lemma directive_approve_at (i : nat) (words : list string) (word : string)
    st w :
  String.eqb word "r+" || startswith "r=" word = true →
  directive username repo my_username pf realtime "" i word words st w
  = let '(st', w') :=
      approval_outcome username my_username realtime word
        (sha_or_blank (default "" (words !! (i + 1)%nat))) st w in
    (Return true, st', w').
Proof.
  intros Hw. unfold directive. rewrite Hw. unfold approve, approval_outcome.
  rewrite cur_sha_lookup. run_eff. simpl.
  destruct (sha_cmp _ (head_sha st)); [done|].
  destruct (realtime && negb (String.eqb username my_username)); [|done].
  by destruct (truthy _).
Qed.

(** A comment with an approval directive among other words: the
    directives after it run first, then the approval branch with the next
    word of the comment for its SHA argument, then the directives before
    it. *)
Lemma parse_approval_directive (l1 rest : list string) (word : string) st w :
  Forall (can_run realtime repo) (l1 ++ rest) →
  String.eqb word "r+" || startswith "r=" word = true →
  ∃ st1 w1 c1 st2 w2 changed st3 w3 c3,
    head_sha st1 = head_sha st
    ∧ repo_label st1 = repo_label st ∧ num st1 = num st
    ∧ calls w1 = calls w ++ c1
    ∧ (Forall (λ x, is_approval x = false) rest →
       approved_by st1 = approved_by st)
    ∧ approval_outcome username my_username realtime word
        (sha_or_blank (default "" (head rest))) st1 w1 = (st2, w2)
    ∧ parse_loop username repo my_username pf realtime ""
        (rev (imap pair (l1 ++ word :: rest))) (l1 ++ word :: rest) false st w
      = (Return changed, st3, w3)
    ∧ changed = true
    ∧ head_sha st3 = head_sha st2
    ∧ repo_label st3 = repo_label st2 ∧ num st3 = num st2
    ∧ calls w3 = calls w2 ++ c3
    ∧ (Forall (λ x, is_approval x = false) l1 →
       approved_by st3 = approved_by st2).
Proof.
  intros [Hrun1 Hrun2]%Forall_app Hword.
  destruct (items_split l1 rest word) as (post & pre & -> & Hpost & Hpre & Hidx).
  destruct (parse_loop_run username repo my_username pf realtime "" post
              ((length l1, word) :: pre) (l1 ++ word :: rest) false st w)
    as (words1 & changed1 & st1 & w1 & c1 & E1 & Hh1 & Hl1 & Hn1 & Hc1
        & Ha1 & Hw1 & _).
  { by apply (Hpost (can_run realtime repo)). }
  rewrite E1. simpl. unfold bind.
  rewrite directive_approve_at by done.
  assert (sha_or_blank (default "" (words1 !! (length l1 + 1)%nat))
          = sha_or_blank (default "" (head rest))) as ->.
  { destruct (Hw1 (length l1 + 1)%nat) as [-> | (x & Hx & Hd & ->)].
    - by rewrite lookup_next.
    - apply Hidx in Hx as (n & Hn & Hx).
      assert (n = 0)%nat as -> by lia.
      rewrite <- head_lookup in Hx. rewrite Hx. simpl.
      by rewrite (sha_or_blank_directive realtime x Hd). }
  destruct (approval_outcome username my_username realtime word
              (sha_or_blank (default "" (head rest))) st1 w1)
    as [st2 w2] eqn:E2.
  pose proof (parse_loop_run username repo my_username pf realtime "" pre []
                (<[length l1 := ""]> words1) true st2 w2) as H3.
  rewrite app_nil_r in H3.
  destruct H3 as (words3 & changed3 & st3 & w3 & c3 & E3 & Hh3 & Hl3 & Hn3
                  & Hc3 & Ha3 & _ & Hch3).
  { by apply (Hpre (can_run realtime repo)). }
  rewrite E3. simpl.
  exists st1, w1, c1, st2, w2, changed3, st3, w3, c3.
  split; [done|]. split; [done|]. split; [done|]. split; [done|].
  split.
  { intros Hap. apply Ha1. by apply (Hpost (λ x, is_approval x = false)). }
  split; [done|]. split; [done|]. split; [by apply Hch3|].
  split; [done|]. split; [done|]. split; [done|]. split; [done|].
  intros Hap. apply Ha3. by apply (Hpre (λ x, is_approval x = false)).
Qed.

End approval_among_others.

(** ** Approval directives in the parsed comment *)

(** The loop body at [r+] or [r=<user>] in a comment that is bound to a
    commit: the commit is the SHA of the approval, whatever follows. *)
Lemma directive_approve_bound (username : string) (repo : repo_cfg)
    (my_username : string) (pf : Platform) (realtime : bool) (sha : string)
    (i : nat) (words : list string) (word : string) st w :
  truthy sha = true →
  String.eqb word "r+" || startswith "r=" word = true →
  directive username repo my_username pf realtime sha i word words st w
  = let '(st', w') :=
      approval_outcome username my_username realtime word sha st w in
    (Return true, st', w').
Proof.
  intros Hsha Hw. unfold directive. rewrite Hw. unfold approve, approval_outcome.
  rewrite Hsha. cbn [negb andb]. run_eff. simpl.
  destruct (sha_cmp _ (head_sha st)); [done|].
  destruct (realtime && negb (String.eqb username my_username)); [|done].
  by rewrite Hsha.
Qed.

Lemma parse_approval_bound (username : string) (repo : repo_cfg)
    (my_username : string) (pf : Platform) (realtime : bool) (sha : string)
    (l1 rest : list string) (word : string) st w :
  truthy sha = true →
  Forall (can_run realtime repo) (l1 ++ rest) →
  String.eqb word "r+" || startswith "r=" word = true →
  ∃ st1 w1 c1 st2 w2 changed st3 w3 c3,
    head_sha st1 = head_sha st
    ∧ repo_label st1 = repo_label st ∧ num st1 = num st
    ∧ calls w1 = calls w ++ c1
    ∧ (Forall (λ x, is_approval x = false) rest →
       approved_by st1 = approved_by st)
    ∧ approval_outcome username my_username realtime word sha st1 w1
      = (st2, w2)
    ∧ parse_loop username repo my_username pf realtime sha
        (rev (imap pair (l1 ++ word :: rest))) (l1 ++ word :: rest) false st w
      = (Return changed, st3, w3)
    ∧ changed = true
    ∧ head_sha st3 = head_sha st2
    ∧ repo_label st3 = repo_label st2 ∧ num st3 = num st2
    ∧ calls w3 = calls w2 ++ c3
    ∧ (Forall (λ x, is_approval x = false) l1 →
       approved_by st3 = approved_by st2).
Proof.
  intros Hsha [Hrun1 Hrun2]%Forall_app Hword.
  destruct (items_split l1 rest word) as (post & pre & -> & Hpost & Hpre & Hidx).
  destruct (parse_loop_run username repo my_username pf realtime sha post
              ((length l1, word) :: pre) (l1 ++ word :: rest) false st w)
    as (words1 & changed1 & st1 & w1 & c1 & E1 & Hh1 & Hl1 & Hn1 & Hc1
        & Ha1 & Hw1 & _).
  { by apply (Hpost (can_run realtime repo)). }
  rewrite E1. simpl. unfold bind.
  rewrite directive_approve_bound by done.
  destruct (approval_outcome username my_username realtime word sha st1 w1)
    as [st2 w2] eqn:E2.
  pose proof (parse_loop_run username repo my_username pf realtime sha pre []
                (<[length l1 := ""]> words1) true st2 w2) as H3.
  rewrite app_nil_r in H3.
  destruct H3 as (words3 & changed3 & st3 & w3 & c3 & E3 & Hh3 & Hl3 & Hn3
                  & Hc3 & Ha3 & _ & Hch3).
  { by apply (Hpre (can_run realtime repo)). }
  rewrite E3. simpl.
  exists st1, w1, c1, st2, w2, changed3, st3, w3, c3.
  split; [done|]. split; [done|]. split; [done|]. split; [done|].
  split.
  { intros Hap. apply Ha1. by apply (Hpost (λ x, is_approval x = false)). }
  split; [done|]. split; [done|]. split; [by apply Hch3|].
  split; [done|]. split; [done|]. split; [done|]. split; [done|].
  intros Hap. apply Ha3. by apply (Hpre (λ x, is_approval x = false)).
Qed.

(** C2 as amended.  In an authorized comment, the token [r+] without a SHA
    argument takes the commit that the comment is bound to for its SHA.
    When that commit matches the head of the PR (at least four characters,
    a prefix of the head SHA), the PR is approved in the name of the
    author of the comment.  When no commit is bound to the comment, or the
    commit does not match, this directive assigns nothing: [approved_by]
    is left to the other approval directives of the comment, and in
    realtime mode, for an author other than the bot, a comment is posted,
    the acknowledgement [:pushpin: Commit ... has been approved by
    `author`] when no commit is bound, which carries the directive
    [@bot r=author head_sha], and the [:question:] comment for a commit
    that does not match.  Parsing the acknowledgement as a comment of the
    bot is what approves the PR with its head SHA in the name of the
    author.  The comment is parsed to the end and returns true. *)
Theorem C2_bare_approval (username : string) (repo : repo_cfg)
    (my_username : string) (pf : Platform) (realtime : bool) (sha : string)
    (body : string) (st : PullReqState) (w : World) (l1 l2 : list string) :
  username ∈ reviewers repo ∨ username = my_username →
  mention_words body my_username = l1 ++ "r+" :: l2 →
  Forall (can_run realtime repo) (l1 ++ l2) →
  hex_match (default "" (head l2)) = false →
  (∃ st' w',
     parse_commands username repo my_username pf realtime sha body st w
     = (Return true, st', w')
     ∧ (sha_cmp sha (head_sha st) = true →
        Forall (λ x, is_approval x = false) l1 →
        approved_by st' = username)
     ∧ (sha_cmp sha (head_sha st) = false →
        Forall (λ x, is_approval x = false) (l1 ++ l2) →
        approved_by st' = approved_by st)
     ∧ (sha_cmp sha (head_sha st) = false →
        realtime = true → username ≠ my_username →
        CreateComment (repo_label st) (num st)
          (if truthy sha then not_valid_comment sha (head_sha st)
           else approved_comment (head_sha st) username my_username)
        ∈ calls w'))
  ∧ ∀ (replay : bool) (w0 : World),
      hex_match (head_sha st) = true →
      (4 ≤ String.length (head_sha st))%nat →
      mention_words (approved_comment (head_sha st) username my_username)
        my_username
      = ["<!--"; "@" +:+ my_username; "r=" +:+ username; head_sha st; "-->"] →
      parse_commands my_username repo my_username pf replay ""
        (approved_comment (head_sha st) username my_username) st w0
      = (Return true, with_approved_by username st,
         save (with_approved_by username st) w0).
Proof.
  intros Hauth Hwords Hrun Hnext.
  split; [|intros; by apply acknowledgement_approves].
  unfold parse_commands. rewrite authorized_guard by done. rewrite Hwords.
  assert (∃ st1 w1 c1 st2 w2 changed st3 w3 c3,
    head_sha st1 = head_sha st
    ∧ repo_label st1 = repo_label st ∧ num st1 = num st
    ∧ calls w1 = calls w ++ c1
    ∧ (Forall (λ x, is_approval x = false) l2 →
       approved_by st1 = approved_by st)
    ∧ approval_outcome username my_username realtime "r+" sha st1 w1
      = (st2, w2)
    ∧ parse_loop username repo my_username pf realtime sha
        (rev (imap pair (l1 ++ "r+" :: l2))) (l1 ++ "r+" :: l2) false st w
      = (Return changed, st3, w3)
    ∧ changed = true
    ∧ head_sha st3 = head_sha st2
    ∧ repo_label st3 = repo_label st2 ∧ num st3 = num st2
    ∧ calls w3 = calls w2 ++ c3
    ∧ (Forall (λ x, is_approval x = false) l1 →
       approved_by st3 = approved_by st2))
    as (st1 & w1 & c1 & st2 & w2 & changed & st3 & w3 & c3 & Hh1 & Hl1 & Hn1
        & Hc1 & Ha1 & E2 & E3 & -> & Hh3 & Hl3 & Hn3 & Hc3 & Ha3).
  { destruct sha as [|c sha'].
    - destruct (parse_approval_directive username repo my_username pf realtime
                  l1 l2 "r+" st w Hrun eq_refl)
        as (st1 & w1 & c1 & st2 & w2 & changed & st3 & w3 & c3 & H).
      unfold sha_or_blank in H. rewrite Hnext in H.
      by exists st1, w1, c1, st2, w2, changed, st3, w3, c3.
    - by apply parse_approval_bound. }
  exists st3, w3. split; [done|].
  unfold approval_outcome in E2. rewrite Hh1 in E2. cbn [startswith] in E2.
  change (String.prefix "r=" "r+") with false in E2. cbv iota in E2.
  split; [|split].
  - intros Hcmp Hap1. rewrite Hcmp in E2. injection E2 as <- <-.
    by rewrite (Ha3 Hap1).
  - intros Hcmp [Hap1 Hap2]%Forall_app. rewrite Hcmp in E2.
    rewrite (Ha3 Hap1).
    destruct (realtime && negb (String.eqb username my_username));
      injection E2 as <- <-; by apply Ha1.
  - intros Hcmp -> Hne%String.eqb_neq. rewrite Hcmp, Hne in E2. simpl in E2.
    injection E2 as <- <-. rewrite Hc3. apply elem_of_app. left.
    simpl. apply elem_of_app. right. rewrite Hl1, Hn1.
    by apply list_elem_of_singleton.
Qed.

Lemma C2_bare_approval_witness :
  (∃ st' w',
     parse_commands "alice" Sample.travis_repo "bot"
       (Sample.platform MergeNothing) true
       "deadbeefcafebabe0123456789abcdef01234567" "@bot r+ rollup p=3"
       Sample.pr7 Sample.world7
     = (Return true, st', w')
     ∧ approved_by st' = "alice")
  ∧ (∃ st' w',
       parse_commands "alice" Sample.travis_repo "bot"
         (Sample.platform MergeNothing) true "" "@bot r+ rollup p=3"
         Sample.pr7 Sample.world7
       = (Return true, st', w')
       ∧ approved_by st' = approved_by Sample.pr7
       ∧ CreateComment (repo_label Sample.pr7) (num Sample.pr7)
           (approved_comment (head_sha Sample.pr7) "alice" "bot") ∈ calls w')
  ∧ parse_commands "bot" Sample.travis_repo "bot" (Sample.platform MergeNothing)
      true "" (approved_comment (head_sha Sample.pr7) "alice" "bot")
      Sample.pr7 Sample.world7
    = (Return true, with_approved_by "alice" Sample.pr7,
       save (with_approved_by "alice" Sample.pr7) Sample.world7).
Proof.
  split; [|split].
  - destruct (C2_bare_approval "alice" Sample.travis_repo "bot"
                (Sample.platform MergeNothing) true
                "deadbeefcafebabe0123456789abcdef01234567"
                "@bot r+ rollup p=3" Sample.pr7 Sample.world7
                ["@bot"] ["rollup"; "p=3"])
      as [(st' & w' & E & Hb & _) _].
    + left. by apply list_elem_of_singleton.
    + vm_compute. reflexivity.
    + repeat constructor; intros ?; discriminate.
    + reflexivity.
    + exists st', w'. split; [exact E|]. apply Hb.
      * vm_compute. reflexivity.
      * repeat constructor.
  - destruct (C2_bare_approval "alice" Sample.travis_repo "bot"
                (Sample.platform MergeNothing) true "" "@bot r+ rollup p=3"
                Sample.pr7 Sample.world7 ["@bot"] ["rollup"; "p=3"])
      as [(st' & w' & E & _ & Ha & Hc) _].
    + left. by apply list_elem_of_singleton.
    + vm_compute. reflexivity.
    + repeat constructor; intros ?; discriminate.
    + reflexivity.
    + exists st', w'. split; [exact E|]. split.
      * apply Ha; [reflexivity | repeat constructor].
      * apply Hc; [reflexivity | reflexivity | discriminate].
  - destruct (C2_bare_approval "alice" Sample.travis_repo "bot"
                (Sample.platform MergeNothing) true "" "@bot r+ rollup p=3"
                Sample.pr7 Sample.world7 ["@bot"] ["rollup"; "p=3"])
      as [_ Hr].
    + left. by apply list_elem_of_singleton.
    + vm_compute. reflexivity.
    + repeat constructor; intros ?; discriminate.
    + reflexivity.
    + apply (Hr true Sample.world7).
      * vm_compute. reflexivity.
      * apply Nat.leb_le. vm_compute. reflexivity.
      * vm_compute. reflexivity.
Defined.

(** C6 as amended.  In realtime mode, in an authorized comment by an
    author other than the bot, with no commit bound to it, [r+] or
    [r=<user>] is followed by a token.  When the token is made of hex
    digits and fails the prefix match against the head, the comment
    [:question: `token` is not a valid commit SHA. Please try again with
    `head`.] is posted and this directive assigns nothing; a token that is
    not made of hex digits is not taken for a SHA, and the acknowledgement
    of the approval is posted instead.  Either way [approved_by] is left
    to the other approval directives of the comment. *)
Theorem C6_unmatched_sha_is_questioned (username : string) (repo : repo_cfg)
    (my_username : string) (pf : Platform) (body : string)
    (st : PullReqState) (w : World) (l1 l2 : list string) (word tok : string) :
  username ∈ reviewers repo →
  username ≠ my_username →
  mention_words body my_username = l1 ++ word :: tok :: l2 →
  String.eqb word "r+" || startswith "r=" word = true →
  Forall (can_run true repo) (l1 ++ tok :: l2) →
  (hex_match tok = true → sha_cmp tok (head_sha st) = false) →
  ∃ st' w',
    parse_commands username repo my_username pf true "" body st w
    = (Return true, st', w')
    ∧ CreateComment (repo_label st) (num st)
        (if hex_match tok then not_valid_comment tok (head_sha st)
         else approved_comment (head_sha st)
                (if startswith "r=" word
                 then slice_from (String.length "r=") word else username)
                my_username) ∈ calls w'
    ∧ (Forall (λ x, is_approval x = false) (l1 ++ tok :: l2) →
       approved_by st' = approved_by st)
    ∧ contains (":question: `" +:+ tok +:+ "` is not a valid commit SHA.")
        (not_valid_comment tok (head_sha st)) = true.
Proof.
  intros Hrev Hne%String.eqb_neq Hwords Hword Hrun Hcmp.
  unfold parse_commands. rewrite authorized_guard by (by left).
  rewrite Hwords.
  destruct (parse_approval_directive username repo my_username pf true
              l1 (tok :: l2) word st w Hrun Hword)
    as (st1 & w1 & c1 & st2 & w2 & changed & st3 & w3 & c3 & Hh1 & Hl1 & Hn1
        & Hc1 & Ha1 & E2 & E3 & -> & Hh3 & Hl3 & Hn3 & Hc3 & Ha3).
  exists st3, w3. split; [done|].
  unfold approval_outcome, sha_or_blank in E2. simpl head in E2.
  simpl default in E2. rewrite Hne, Hh1 in E2. simpl negb in E2.
  simpl andb in E2.
  assert (st2 = st1
          ∧ w2 = add_comment
                   (if hex_match tok then not_valid_comment tok (head_sha st)
                    else approved_comment (head_sha st)
                           (if startswith "r=" word
                            then slice_from (String.length "r=") word
                            else username) my_username) st1 w1) as [-> ->].
  { destruct (hex_match tok) eqn:Hhex.
    - rewrite Hcmp, hex_match_truthy in E2 by done. by injection E2 as <- <-.
    - simpl in E2. by injection E2 as <- <-. }
  split.
  { rewrite Hc3. apply elem_of_app. left. simpl. apply elem_of_app. right.
    rewrite Hl1, Hn1. by apply list_elem_of_singleton. }
  split; [|apply not_valid_comment_text].
  intros [Hap1 Hap2]%Forall_app. rewrite (Ha3 Hap1). by apply Ha1.
Qed.

Lemma C6_unmatched_sha_is_questioned_witness :
  ∃ st' w',
    parse_commands "alice" Sample.travis_repo "bot" (Sample.platform MergeNothing)
      true "" "@bot rollup r=carol deadbeee p=2" Sample.pr7 Sample.world7
    = (Return true, st', w')
    ∧ CreateComment (repo_label Sample.pr7) (num Sample.pr7)
        (if hex_match "deadbeee"
         then not_valid_comment "deadbeee" (head_sha Sample.pr7)
         else approved_comment (head_sha Sample.pr7)
                (if startswith "r=" "r=carol"
                 then slice_from (String.length "r=") "r=carol" else "alice")
                "bot") ∈ calls w'
    ∧ (Forall (λ x, is_approval x = false)
         (["@bot"; "rollup"] ++ "deadbeee" :: ["p=2"]) →
       approved_by st' = approved_by Sample.pr7)
    ∧ contains (":question: `" +:+ "deadbeee" +:+ "` is not a valid commit SHA.")
        (not_valid_comment "deadbeee" (head_sha Sample.pr7)) = true.
Proof.
  apply (C6_unmatched_sha_is_questioned "alice" Sample.travis_repo "bot"
           (Sample.platform MergeNothing) "@bot rollup r=carol deadbeee p=2"
           Sample.pr7 Sample.world7 ["@bot"; "rollup"] ["p=2"] "r=carol"
           "deadbeee").
  - by apply list_elem_of_singleton.
  - discriminate.
  - vm_compute. reflexivity.
  - vm_compute. reflexivity.
  - repeat constructor; intros ?; discriminate.
  - intros _. vm_compute. reflexivity.
Defined.

(** * Further properties of the code *)

(** ** SHA prefixes *)

Lemma slice_to_prefix (short full : string) :
  slice_to (String.length short) full = short ↔ ∃ rest, full = short +:+ rest.
Proof.
  unfold slice_to. revert full.
  induction short as [|c short IH]; intros full; simpl.
  - split; [intros _; by exists full | by destruct full].
  - destruct full as [|c' full]; simpl.
    + split; [done | intros [rest Hr]; discriminate].
    + split.
      * intros [= -> H]. apply IH in H as [rest ->]. by exists rest.
      * intros [rest [= -> ->]]. f_equal. apply IH. by exists rest.
Qed.

Lemma length_append_string (a b : string) :
  String.length (a +:+ b) = (String.length a + String.length b)%nat.
Proof.
  induction a as [|c a IH]; [done|].
  change (String c a +:+ b) with (String c (a +:+ b)). simpl. by rewrite IH.
Qed.

(** X1. [sha_cmp short full] holds exactly when [short] has at least four
    characters and [full] starts with it; in particular a [short] that is
    longer than [full] never matches. *)
Theorem X1_sha_cmp_is_long_prefix (short full : string) :
  (sha_cmp short full = true
   ↔ (4 ≤ String.length short)%nat ∧ ∃ rest, full = short +:+ rest)
  ∧ ((String.length full < String.length short)%nat →
     sha_cmp short full = false).
Proof.
  assert (Hiff : sha_cmp short full = true
                 ↔ (4 ≤ String.length short)%nat
                   ∧ ∃ rest, full = short +:+ rest).
  { unfold sha_cmp. rewrite andb_true_iff, Nat.leb_le, String.eqb_eq.
    rewrite <- slice_to_prefix. split; intros [? ?]; split; done. }
  split; [done|]. intros Hlen. apply not_true_is_false.
  intros [_ [rest ->]]%Hiff. rewrite length_append_string in Hlen. lia.
Qed.

(** ** The order of the queue *)

Lemma list_lt_irrefl a : list_lt a a = false.
Proof.
  induction a as [|x a IH]; simpl; [done|]. by rewrite Z.ltb_irrefl.
Qed.

Lemma list_lt_trans a : ∀ b c,
  list_lt a b = true → list_lt b c = true → list_lt a c = true.
Proof.
  induction a as [|x a IH]; intros [|y b] [|z c]; try done.
  rewrite !list_lt_cons. intros [Hxy | [-> Hab]] [Hyz | [-> Hbc]].
  - left. lia.
  - by left.
  - by left.
  - right. split; [done|]. by eapply IH.
Qed.

Lemma list_lt_total a : ∀ b,
  length a = length b → a ≠ b → list_lt a b = true ∨ list_lt b a = true.
Proof.
  induction a as [|x a IH]; intros [|y b]; try done.
  intros [= Hlen] Hne. rewrite !list_lt_cons.
  destruct (Z.lt_trichotomy x y) as [? | [-> | ?]]; [by left; left | | by right; left].
  destruct (IH b Hlen) as [H | H]; [congruence | left | right]; by right.
Qed.

(** X2. [__lt__] is a strict order on the entities: nothing is below
    itself, it is transitive, two entities are never below each other, and
    of two entities with different numbers one is below the other. *)
Theorem X2_lt_strict_total_order (a b c : PullReqState) :
  lt a a = false
  ∧ (lt a b = true → lt b c = true → lt a c = true)
  ∧ (lt a b = true → lt b a = false)
  ∧ (num a ≠ num b → lt a b = true ∨ lt b a = true).
Proof.
  unfold lt. split; [apply list_lt_irrefl|]. split; [apply list_lt_trans|].
  split.
  - intros Hab. apply not_true_is_false. intros Hba.
    pose proof (list_lt_trans _ _ _ Hab Hba) as H.
    by rewrite list_lt_irrefl in H.
  - intros Hne. apply list_lt_total; [done|].
    unfold sort_key. intros [= _ _ _ _ _ H]. done.
Qed.

(** ** The store behind the entity *)

(** X3. After [set_mergeable] the stored answer for the PR is the answer
    given ([None]: no row), whatever was stored before; the entity takes
    the answer too, except that an unknown answer with [que] set leaves the
    attribute as it was and puts the PR on the probe queue instead.  Rows
    of other PRs and the other tables are not touched. *)
Theorem X3_set_mergeable_store (m : option bool) (c : option cause)
    (que : bool) (st : PullReqState) (w : World) :
  let st' := (set_mergeable m c que st w).1 in
  let w' := (set_mergeable m c que st w).2 in
  tbl_mergeable (db w') !! (repo_label st, num st) = m
  ∧ mergeable st' = (if que then from_option Some (mergeable st) m else m)
  ∧ mergeable_que w' =
      mergeable_que w ++
        (if que then
           match m with None => [(repo_label st, num st, c)] | Some _ => [] end
         else [])
  ∧ (∀ k, k ≠ (repo_label st, num st) →
       tbl_mergeable (db w') !! k = tbl_mergeable (db w) !! k)
  ∧ tbl_pull (db w') = tbl_pull (db w)
  ∧ tbl_build_res (db w') = tbl_build_res (db w)
  ∧ calls w' = calls w.
Proof.
  unfold set_mergeable.
  destruct m as [b|], que; simpl;
    rewrite ?app_nil_r, ?lookup_insert_eq, ?lookup_delete_eq;
    repeat split; try done;
    intros k Hk; by rewrite ?lookup_insert_ne, ?lookup_delete_ne.
Qed.

(** X4. [head_advanced] with the store: the entity gets the new head and
    loses its approval, status, merge commit, build results, try mode and
    mergeability; in the store the row of the PR gets the empty status and
    the empty merge commit while its other columns, [head_sha],
    [approved_by] and [try_] among them, stay as they were (they wait for
    the next [save]); the mergeability row and every build-result row of
    the PR are gone, a probe is queued, and rows of other PRs stay. *)
Theorem X4_head_advanced_store (sha : string) (st : PullReqState) (w : World) :
  let st' := (head_advanced sha true st w).1 in
  let w' := (head_advanced sha true st w).2 in
  let key := (repo_label st, num st) in
  st' = with_mergeable None (with_try_ false (with_build_res ∅
          (with_merge_sha "" (with_status "" (with_approved_by ""
            (with_head_sha sha st))))))
  ∧ tbl_pull (db w') !! key =
      (λ r, row_with_merge_sha "" (row_with_status "" r))
        <$> tbl_pull (db w) !! key
  ∧ tbl_mergeable (db w') !! key = None
  ∧ (∀ builder, tbl_build_res (db w') !! (repo_label st, num st, builder)
                = None)
  ∧ mergeable_que w' = mergeable_que w ++ [(repo_label st, num st, None)]
  ∧ calls w' = calls w
  ∧ (∀ k, k ≠ key →
       tbl_pull (db w') !! k = tbl_pull (db w) !! k
       ∧ tbl_mergeable (db w') !! k = tbl_mergeable (db w) !! k)
  ∧ (∀ k, k.1 ≠ key →
       tbl_build_res (db w') !! k = tbl_build_res (db w) !! k).
Proof.
  unfold head_advanced, set_status, set_mergeable, init_build_res. simpl.
  split; [done|]. split.
  { rewrite !lookup_alter_eq. by destruct (tbl_pull (db w) !! _). }
  split; [by rewrite lookup_delete_eq|]. split.
  { intros builder. apply map_lookup_filter_None. right. intros r _. simpl.
    by intros []. }
  split; [done|]. split; [done|]. split.
  { intros k Hk. rewrite !lookup_alter_ne, lookup_delete_ne by done. done. }
  intros k Hk. destruct (tbl_build_res (db w) !! k) as [r|] eqn:E.
  - by apply map_lookup_filter_Some.
  - apply map_lookup_filter_None. by left.
Qed.

(** X5. For a builder of the current build, [set_build_res] returns, the
    mapping then holds the new result and URL for that builder and what it
    held for the others, its set of builders is the same (no builder is
    ever added), and the stored row of the builder records the result, the
    URL and the merge commit of the entity. *)
Theorem X5_set_build_res_known_builder (builder : string) (r : option bool)
    (u : string) (st : PullReqState) (w : World) :
  is_Some (build_res st !! builder) →
  ∃ st' w',
    set_build_res builder r u st w = (Return tt, st', w')
    ∧ build_res st' !! builder = Some (BuildInfo r u)
    ∧ (∀ b, b ≠ builder → build_res st' !! b = build_res st !! b)
    ∧ dom (build_res st') = dom (build_res st)
    ∧ st' = with_build_res (build_res st') st
    ∧ tbl_build_res (db w') !! (repo_label st, num st, builder)
      = Some {| br_res := r; br_url := u; br_merge_sha := merge_sha st |}
    ∧ (∀ k, k ≠ (repo_label st, num st, builder) →
         tbl_build_res (db w') !! k = tbl_build_res (db w) !! k)
    ∧ tbl_pull (db w') = tbl_pull (db w)
    ∧ calls w' = calls w.
Proof.
  intros Hin. unfold set_build_res. run_eff.
  rewrite bool_decide_eq_true_2 by (by apply elem_of_dom).
  eexists _, _. split; [reflexivity|]. simpl.
  split; [by rewrite lookup_insert_eq|].
  split; [intros b Hb; by rewrite lookup_insert_ne|].
  split.
  { rewrite dom_insert_L. apply elem_of_dom in Hin.
    apply subseteq_union_1_L. by apply singleton_subseteq_l. }
  split; [done|]. split; [by rewrite lookup_insert_eq|].
  split; [intros k Hk; by rewrite lookup_insert_ne|]. done.
Qed.

Lemma X5_set_build_res_known_builder_witness :
  ∃ st' w',
    set_build_res "mac" (Some false) "http://ci/7"
      (with_build_res (fresh_build_res ["linux"; "mac"]) Sample.pr7)
      Sample.world7
    = (Return tt, st', w')
    ∧ build_res st' !! "mac" = Some (BuildInfo (Some false) "http://ci/7")
    ∧ (∀ b, b ≠ "mac" →
         build_res st' !! b
         = build_res (with_build_res (fresh_build_res ["linux"; "mac"])
                        Sample.pr7) !! b)
    ∧ dom (build_res st')
      = dom (build_res (with_build_res (fresh_build_res ["linux"; "mac"])
                          Sample.pr7))
    ∧ st' = with_build_res (build_res st')
              (with_build_res (fresh_build_res ["linux"; "mac"]) Sample.pr7)
    ∧ tbl_build_res (db w') !! ("repo", 7%Z, "mac")
      = Some {| br_res := Some false; br_url := "http://ci/7";
                br_merge_sha := "" |}
    ∧ (∀ k, k ≠ ("repo", 7%Z, "mac") →
         tbl_build_res (db w') !! k = tbl_build_res (db Sample.world7) !! k)
    ∧ tbl_pull (db w') = tbl_pull (db Sample.world7)
    ∧ calls w' = calls Sample.world7.
Proof.
  apply (X5_set_build_res_known_builder "mac" (Some false) "http://ci/7"
           (with_build_res (fresh_build_res ["linux"; "mac"]) Sample.pr7)
           Sample.world7).
  eexists. vm_compute. reflexivity.
Defined.

(** ** Starting a build *)

Lemma for_each_create_status sha state target description
    (ctx : string → string) (builders : list string) st w :
  ∃ w', for_each (λ b, github_create_status sha state target description (ctx b))
          builders st w = (Return tt, st, w')
        ∧ calls w' = calls w ++
            ((λ b, CreateStatus (repo_label st) sha state target description
                     (ctx b)) <$> builders)
        ∧ db w' = db w
        ∧ buildbot_slots w' = buildbot_slots w
        ∧ mergeable_que w' = mergeable_que w.
Proof.
  revert w. induction builders as [|b l IH]; intros w; simpl.
  - exists w. by rewrite app_nil_r.
  - destruct (IH (do_call (CreateStatus (repo_label st) sha state target
                             description (ctx b)) w))
      as (w' & E & Hc & Hd & Hs & Hq).
    exists w'. run_eff. unfold github_create_status, effect in E.
    rewrite E. simpl in Hc. by rewrite Hc, <- app_assoc.
Qed.

(** X6. When the platform answers the merge request with a commit,
    [start_build] returns true with the PR pending on that commit: title
    and body are refreshed, the build results are fresh for the builders
    of the CI block, the stored row of the PR equals the entity (merge
    commit included, also in try mode), the old build-result rows of the PR
    are gone, the slot takes the commit exactly for a session CI, and the
    calls are the reset of the scratch branch, the merge, one pending
    status check ([homu], or one per builder for test runners) and the
    [:hourglass:] comment. *)
Theorem X6_start_build_dispatches (repo_cfgs : gmap string repo_cfg)
    (pf : Platform) (st : PullReqState) (w : World) (repo : repo_cfg)
    (branch_ : string) (builders : list string) (commit : string) :
  truthy (buildbot_slots w) = false →
  head_sha st = pf_pull_head_sha pf →
  repo_cfgs !! repo_label st = Some repo →
  choose_branch_builders repo st = Return (branch_, builders) →
  pf_merge pf = MergeCommit commit →
  ∃ st' w' msg info,
    start_build repo_cfgs pf st w = (Return true, st', w')
    ∧ st' = with_status "pending" (with_merge_sha commit
              (with_build_res (fresh_build_res builders) (refresh pf st)))
    ∧ (∀ b, build_res st' !! b
            = if bool_decide (b ∈ builders)
              then Some (BuildInfo None "") else None)
    ∧ tbl_pull (db w') !! (repo_label st, num st) = Some (row_of st')
    ∧ (∀ b, tbl_build_res (db w') !! (repo_label st, num st, b) = None)
    ∧ buildbot_slots w' =
        (if bool_decide (is_Some (buildbot repo)) then commit
         else buildbot_slots w)
    ∧ calls w' =
        calls w ++
        [SetRef (repo_label st) ("heads/" +:+ branch_) (pf_base_sha pf) true;
         MergeReq (repo_label st) branch_ (head_sha st) msg;
         LoggerInfo info] ++
        (let desc :=
           (if try_ st then "Trying" else "Testing")
             +:+ " commit " +:+ slice_to 7 (head_sha st)
             +:+ " with merge " +:+ slice_to 7 commit +:+ "..." in
         (if bool_decide (is_Some (testrunners repo)) then
            (λ b, CreateStatus (repo_label st) (head_sha st) "pending" ""
                    desc ("merge-test/" +:+ b)) <$> builders
          else [CreateStatus (repo_label st) (head_sha st) "pending" ""
                  desc "homu"])
         ++ [CreateComment (repo_label st) (num st) (":hourglass: " +:+ desc)]).
Proof.
  intros Hslot Hhead Hcfg Hchoose Hmerge.
  unfold start_build. run_eff. rewrite Hslot.
  rewrite Hhead, String.eqb_refl. simpl. rewrite <- Hhead, Hcfg, Hchoose.
  unfold create_merge. run_eff. rewrite Hmerge. simpl.
  assert (Hdel : ∀ (t : gmap (string * Z * string) build_res_row) b,
            filter (λ kv : string * Z * string * build_res_row,
                      kv.1.1 ≠ (repo_label st, num st)) t
            !! (repo_label st, num st, b) = None).
  { intros t b. apply map_lookup_filter_None. right. intros r _. simpl.
    by intros []. }
  destruct (bool_decide (is_Some (buildbot repo))),
           (bool_decide (is_Some (testrunners repo))), (try_ st) eqn:Ht;
    unfold set_status; simpl; rewrite ?Ht; simpl;
    try match goal with
        | |- context [for_each ?f ?l ?s ?w0] =>
            destruct (for_each_create_status (head_sha st) "pending" ""
                        ((if try_ st then "Trying" else "Testing")
                           +:+ " commit " +:+ slice_to 7 (head_sha st)
                           +:+ " with merge " +:+ slice_to 7 commit +:+ "...")
                        (λ b, "merge-test/" +:+ b) l s w0)
              as (w' & E & Hc & Hd & Hs & Hq);
            rewrite Ht in E, Hc; cbv [github_create_status effect] in E;
            rewrite E; simpl; simpl in Hc, Hd, Hs
        end;
    eexists _, _, _, _; (split; [reflexivity|]); simpl;
    rewrite ?Hd, ?Hs, ?Hc; simpl;
    rewrite ?lookup_alter_eq, ?lookup_insert_eq; simpl;
    repeat split; try done; try (by rewrite <- ?app_assoc);
    try (intros b; apply lookup_fresh_build_res).
Qed.

Lemma X6_start_build_dispatches_witness :
  ∃ st' w' msg info,
    start_build {["repo" := Sample.buildbot_repo]}
      (Sample.platform (MergeCommit Sample.merge_commit))
      (with_approved_by "alice" Sample.pr7) Sample.world7
    = (Return true, st', w')
    ∧ st' = with_status "pending" (with_merge_sha Sample.merge_commit
              (with_build_res (fresh_build_res ["linux"; "mac"])
                 (refresh (Sample.platform (MergeCommit Sample.merge_commit))
                    (with_approved_by "alice" Sample.pr7))))
    ∧ (∀ b, build_res st' !! b
            = if bool_decide (b ∈ ["linux"; "mac"])
              then Some (BuildInfo None "") else None)
    ∧ tbl_pull (db w') !! ("repo", 7%Z) = Some (row_of st')
    ∧ (∀ b, tbl_build_res (db w') !! ("repo", 7%Z, b) = None)
    ∧ buildbot_slots w' = Sample.merge_commit
    ∧ calls w' =
        [] ++
        [SetRef "repo" "heads/auto" "0123456789abcdef0123456789abcdef01234567"
           true;
         MergeReq "repo" "auto" "deadbeefcafebabe0123456789abcdef01234567" msg;
         LoggerInfo info] ++
        [CreateStatus "repo" "deadbeefcafebabe0123456789abcdef01234567"
           "pending" "" "Testing commit deadbee with merge feedfac..." "homu";
         CreateComment "repo" 7
           ":hourglass: Testing commit deadbee with merge feedfac..."].
Proof.
  apply (X6_start_build_dispatches {["repo" := Sample.buildbot_repo]}
           (Sample.platform (MergeCommit Sample.merge_commit))
           (with_approved_by "alice" Sample.pr7) Sample.world7
           Sample.buildbot_repo "auto" ["linux"; "mac"] Sample.merge_commit);
    vm_compute; reflexivity.
Defined.

(** X7. When the platform answers the merge request without a commit
    (nothing to merge), [start_build] returns false: the scratch branch has
    been reset and the merge requested, title and body are refreshed, and
    nothing else happened: no status, no status check, no comment, no
    statement to the store, no change of the slot. *)
Theorem X7_start_build_nothing_to_merge (repo_cfgs : gmap string repo_cfg)
    (pf : Platform) (st : PullReqState) (w : World) (repo : repo_cfg)
    (branch_ : string) (builders : list string) :
  truthy (buildbot_slots w) = false →
  head_sha st = pf_pull_head_sha pf →
  repo_cfgs !! repo_label st = Some repo →
  choose_branch_builders repo st = Return (branch_, builders) →
  pf_merge pf = MergeNothing →
  ∃ w' msg,
    start_build repo_cfgs pf st w = (Return false, refresh pf st, w')
    ∧ calls w' = calls w ++
        [SetRef (repo_label st) ("heads/" +:+ branch_) (pf_base_sha pf) true;
         MergeReq (repo_label st) branch_ (head_sha st) msg]
    ∧ db w' = db w ∧ sql_log w' = sql_log w
    ∧ buildbot_slots w' = buildbot_slots w
    ∧ mergeable_que w' = mergeable_que w.
Proof.
  intros Hslot Hhead Hcfg Hchoose Hmerge.
  unfold start_build. run_eff. rewrite Hslot.
  rewrite Hhead, String.eqb_refl. simpl. rewrite <- Hhead, Hcfg, Hchoose.
  unfold create_merge. run_eff. rewrite Hmerge. simpl.
  eexists _, _. split; [reflexivity|]. simpl.
  by rewrite <- app_assoc.
Qed.

Lemma X7_start_build_nothing_to_merge_witness :
  ∃ w' msg,
    start_build {["repo" := Sample.travis_repo]}
      (Sample.platform MergeNothing) Sample.pr7 Sample.world7
    = (Return false, refresh (Sample.platform MergeNothing) Sample.pr7, w')
    ∧ calls w' = calls Sample.world7 ++
        [SetRef "repo" ("heads/" +:+ "auto")
           (pf_base_sha (Sample.platform MergeNothing)) true;
         MergeReq "repo" "auto" (head_sha Sample.pr7) msg]
    ∧ db w' = db Sample.world7 ∧ sql_log w' = sql_log Sample.world7
    ∧ buildbot_slots w' = buildbot_slots Sample.world7
    ∧ mergeable_que w' = mergeable_que Sample.world7.
Proof.
  apply (X7_start_build_nothing_to_merge {["repo" := Sample.travis_repo]}
           (Sample.platform MergeNothing) Sample.pr7 Sample.world7
           Sample.travis_repo "auto" ["travis"]);
    vm_compute; reflexivity.
Defined.

(** X8. With the slot empty, [start_build] raises before it calls or
    changes anything when the head recorded for the PR differs from the
    head the platform reports ([AssertionError]), when the repository has
    no configuration ([KeyError]), when the configuration has none of the
    four CI blocks ([RuntimeError]), and in try mode on a session CI
    without [try_builders] ([KeyError]). *)
Theorem X8_start_build_refuses_early (repo_cfgs : gmap string repo_cfg)
    (pf : Platform) (st : PullReqState) (w : World) :
  truthy (buildbot_slots w) = false →
  (head_sha st ≠ pf_pull_head_sha pf →
   start_build repo_cfgs pf st w = (Raise AssertionError, st, w))
  ∧ (head_sha st = pf_pull_head_sha pf →
     match repo_cfgs !! repo_label st with
     | None =>
         start_build repo_cfgs pf st w
         = (Raise (KeyError (repo_label st)), st, w)
     | Some repo =>
         match buildbot repo with
         | Some bb =>
             try_ st = true → bb_try_builders bb = None →
             start_build repo_cfgs pf st w
             = (Raise (KeyError "try_builders"), st, w)
         | None =>
             travis repo = false → status_ci repo = false →
             testrunners repo = None →
             start_build repo_cfgs pf st w
             = (Raise (RuntimeError "Invalid configuration"), st, w)
         end
     end).
Proof.
  intros Hslot. unfold start_build. run_eff. rewrite Hslot. split.
  - intros Hne%String.eqb_neq. by rewrite Hne.
  - intros ->. rewrite String.eqb_refl. simpl.
    destruct (repo_cfgs !! repo_label st) as [repo|]; [|done].
    unfold choose_branch_builders.
    destruct (buildbot repo) as [bb|].
    + intros -> ->. done.
    + intros -> -> ->. done.
Qed.

Lemma X8_start_build_refuses_early_witness :
  (head_sha Sample.pr10_stale ≠ pf_pull_head_sha (Sample.platform MergeNothing) →
   start_build {["repo" := Sample.travis_repo]} (Sample.platform MergeNothing)
     Sample.pr10_stale Sample.world7
   = (Raise AssertionError, Sample.pr10_stale, Sample.world7))
  ∧ (head_sha Sample.pr10_stale = pf_pull_head_sha (Sample.platform MergeNothing) →
     match ({["repo" := Sample.travis_repo]} : gmap string repo_cfg)
             !! repo_label Sample.pr10_stale with
     | None =>
         start_build {["repo" := Sample.travis_repo]}
           (Sample.platform MergeNothing) Sample.pr10_stale Sample.world7
         = (Raise (KeyError (repo_label Sample.pr10_stale)),
            Sample.pr10_stale, Sample.world7)
     | Some repo =>
         match buildbot repo with
         | Some bb =>
             try_ Sample.pr10_stale = true → bb_try_builders bb = None →
             start_build {["repo" := Sample.travis_repo]}
               (Sample.platform MergeNothing) Sample.pr10_stale Sample.world7
             = (Raise (KeyError "try_builders"), Sample.pr10_stale,
                Sample.world7)
         | None =>
             travis repo = false → status_ci repo = false →
             testrunners repo = None →
             start_build {["repo" := Sample.travis_repo]}
               (Sample.platform MergeNothing) Sample.pr10_stale Sample.world7
             = (Raise (RuntimeError "Invalid configuration"),
                Sample.pr10_stale, Sample.world7)
         end
     end).
Proof.
  apply (X8_start_build_refuses_early {["repo" := Sample.travis_repo]}
           (Sample.platform MergeNothing) Sample.pr10_stale Sample.world7).
  reflexivity.
Defined.

(** ** What parsing a comment never does *)

(** X9. Outside realtime mode [parse_commands] always returns, makes no
    call on the platform or the CI, queues no probe and leaves the slot;
    of the entity it can only assign [approved_by], [priority] and
    [rollup]; of the store it can only replace the pull row of the PR. *)
Theorem X9_replay_touches_three_attributes (username : string)
    (repo : repo_cfg) (my_username : string) (pf : Platform)
    (sha body : string) (st : PullReqState) (w : World) :
  ∃ changed oa op orl w',
    parse_commands username repo my_username pf false sha body st w
    = (Return changed, overwrite oa op orl st, w')
    ∧ calls w' = calls w
    ∧ mergeable_que w' = mergeable_que w
    ∧ buildbot_slots w' = buildbot_slots w
    ∧ tbl_build_res (db w') = tbl_build_res (db w)
    ∧ tbl_mergeable (db w') = tbl_mergeable (db w)
    ∧ (∀ k, k ≠ (repo_label st, num st) →
         tbl_pull (db w') !! k = tbl_pull (db w) !! k).
Proof.
  unfold parse_commands.
  destruct (negb (bool_decide (username ∈ reviewers repo))
            && negb (String.eqb username my_username)).
  { exists false, None, None, None, w. by rewrite overwrite_none. }
  set (words := mention_words body my_username).
  destruct (parse_loop_overwrite username repo my_username pf sha (head_sha st)
              (rev (imap pair words)) words false)
    as (oa & op & orl & saved & changed & _ & H).
  destruct (H st w eq_refl) as (w' & E & Hc & Hq & Hs & Hb & Hm & Hp).
  exists changed, oa, op, orl, w'. rewrite E.
  repeat split; try done.
  intros k Hk. rewrite Hp. destruct saved; [|done].
  by rewrite lookup_insert_ne.
Qed.

Section found.
Variables (username : string) (repo : repo_cfg) (my_username : string).
Variables (pf : Platform) (realtime : bool) (sha : string).

(** The loop body reports a directive exactly for the words that are
    directives. *)
Lemma directive_found i word words st w found st' w' :
  directive username repo my_username pf realtime sha i word words st w
  = (Return found, st', w') →
  found = is_directive realtime word.
Proof.
  destruct (is_directive realtime word) eqn:Hd.
  2:{ rewrite directive_not_found by done. by intros [= <- _ _]. }
  revert Hd. unfold is_directive, directive.
  destruct (String.eqb word "r+" || startswith "r=" word).
  { intros _. unfold approve. run_eff.
    repeat match goal with
           | |- context [if ?c then _ else _] => destruct c
           end; by intros [= <- _ _]. }
  destruct (String.eqb word "r-").
  { intros _. run_eff. by intros [= <- _ _]. }
  destruct (startswith "p=" word).
  { intros _. run_eff. destruct (int _); by intros [= <- _ _]. }
  destruct (String.eqb word "retry" && realtime).
  { intros _. run_eff. destruct (set_status "" st w). by intros [= <- _ _]. }
  destruct ((String.eqb word "try" || String.eqb word "try-") && realtime).
  { intros _. run_eff. simpl. by intros [= <- _ _]. }
  destruct (String.eqb word "rollup") eqn:E1.
  { intros _. run_eff. by intros [= <- _ _]. }
  destruct (String.eqb word "rollup-") eqn:E2.
  { intros _. run_eff. by intros [= <- _ _]. }
  destruct (String.eqb word "force" && realtime).
  { intros _. unfold force. destruct (buildbot repo); run_eff; [|done].
    destruct (truthy _); by intros [= <- _ _]. }
  destruct (String.eqb word "clean" && realtime).
  { intros _. run_eff. simpl. by intros [= <- _ _]. }
  done.
Qed.

Lemma parse_loop_changed (items : list (nat * string)) :
  ∀ (words : list string) (changed : bool) (st : PullReqState) (w : World),
  Forall (λ it : nat * string, can_run realtime repo it.2) items →
  ∃ st' w',
    parse_loop username repo my_username pf realtime sha items words changed st w
    = (Return (changed || existsb (λ it, is_directive realtime it.2) items),
       st', w')
    ∧ head_sha st' = head_sha st
    ∧ repo_label st' = repo_label st
    ∧ num st' = num st.
Proof.
  induction items as [|[i word] items IH]; intros words changed st w Hrun; simpl.
  - exists st, w. by rewrite orb_false_r.
  - apply Forall_cons in Hrun as [Hrun1 Hrun].
    destruct (directive_frame username repo my_username pf realtime sha
                i word words st w Hrun1)
      as (found & st0 & w0 & l0 & E0 & Hh0 & Hl0 & Hn0 & _).
    pose proof (directive_found _ _ _ _ _ _ _ _ E0) as Hf.
    unfold bind. rewrite E0.
    destruct (IH (if found then <[i := ""]> words else words)
                (if found then true else changed) st0 w0 Hrun)
      as (st' & w' & E & Hh & Hl & Hn).
    exists st', w'. split.
    { rewrite <- Hf. destruct found; simpl; rewrite E; simpl;
        by rewrite ?orb_true_r. }
    split; [congruence|]. split; congruence.
Qed.

End found.

Lemma existsb_items (f : string → bool) (l : list string) :
  existsb (λ it : nat * string, f it.2) (rev (imap pair l)) = existsb f l.
Proof.
  apply eq_true_iff_eq. rewrite !existsb_exists. split.
  - intros ([k x] & Hin & Hf). exists x. split; [|done].
    rewrite <- in_rev, <- list_elem_of_In in Hin.
    apply elem_of_lookup_imap in Hin as (j & y & [= -> ->] & Hy).
    apply list_elem_of_In. by eapply list_elem_of_lookup_2.
  - intros (x & Hin & Hf). apply list_elem_of_In in Hin.
    apply list_elem_of_lookup in Hin as [k Hk].
    exists (k, x). split; [|done].
    rewrite <- in_rev, <- list_elem_of_In.
    apply elem_of_lookup_imap. by exists k, x.
Qed.

(** X10. An authorized comment is parsed to the end unless it holds
    [force] for a repository without a session CI; it then returns true
    exactly when one of the words of its mention lines is a directive, and
    it never changes the number, the repository or the head of the PR. *)
Theorem X10_parse_reports_directives (username : string) (repo : repo_cfg)
    (my_username : string) (pf : Platform) (realtime : bool)
    (sha body : string) (st : PullReqState) (w : World) :
  username ∈ reviewers repo ∨ username = my_username →
  Forall (can_run realtime repo) (mention_words body my_username) →
  ∃ st' w',
    parse_commands username repo my_username pf realtime sha body st w
    = (Return (existsb (is_directive realtime)
                 (mention_words body my_username)), st', w')
    ∧ head_sha st' = head_sha st
    ∧ repo_label st' = repo_label st
    ∧ num st' = num st.
Proof.
  intros Hauth Hrun. unfold parse_commands.
  rewrite authorized_guard by done.
  destruct (parse_loop_changed username repo my_username pf realtime sha
              (rev (imap pair (mention_words body my_username)))
              (mention_words body my_username) false st w)
    as (st' & w' & E & H).
  { apply Forall_rev.
    by apply (Forall_imap_words (can_run realtime repo)). }
  exists st', w'. rewrite E. simpl. by rewrite existsb_items.
Qed.

Lemma X10_parse_reports_directives_witness :
  ∃ st' w',
    parse_commands "alice" Sample.travis_repo "bot" (Sample.platform MergeNothing)
      true "" Sample.replayed_body Sample.pr7 Sample.world7
    = (Return (existsb (is_directive true)
                 (mention_words Sample.replayed_body "bot")), st', w')
    ∧ head_sha st' = head_sha Sample.pr7
    ∧ repo_label st' = repo_label Sample.pr7
    ∧ num st' = num Sample.pr7.
Proof.
  apply (X10_parse_reports_directives "alice" Sample.travis_repo "bot"
           (Sample.platform MergeNothing) true "" Sample.replayed_body
           Sample.pr7 Sample.world7).
  - left. by apply list_elem_of_singleton.
  - vm_compute. repeat constructor; intros ?; discriminate.
Defined.

(** ** Single directives *)

Lemma parse_one (username : string) (repo : repo_cfg) (my_username : string)
    (pf : Platform) (realtime : bool) (sha body : string)
    (l1 l2 : list string) (word : string) st w :
  username ∈ reviewers repo ∨ username = my_username →
  mention_words body my_username = l1 ++ word :: l2 →
  Forall (λ x, is_directive realtime x = false) (l1 ++ l2) →
  parse_commands username repo my_username pf realtime sha body st w
  = directive username repo my_username pf realtime sha (length l1) word
      (l1 ++ word :: l2) st w.
Proof.
  intros Hauth Hwords Hrest. unfold parse_commands.
  rewrite authorized_guard by done. rewrite Hwords.
  by apply parse_loop_one.
Qed.

(** X11. [retry] as the only directive of an authorized comment: in
    realtime mode the status becomes empty in the entity and in the stored
    row (the stored merge commit follows the entity unless the PR is in try
    mode), nothing else of the entity changes, and an approved PR that is
    not known to be unmergeable is ordered as [approved] again; outside
    realtime mode the word is no directive and nothing happens. *)
Theorem X11_retry_resets_status (username : string) (repo : repo_cfg)
    (my_username : string) (pf : Platform) (realtime : bool)
    (sha body : string) (l1 l2 : list string) (st : PullReqState) (w : World) :
  username ∈ reviewers repo ∨ username = my_username →
  mention_words body my_username = l1 ++ "retry" :: l2 →
  Forall (λ x, is_directive realtime x = false) (l1 ++ l2) →
  if realtime then
    ∃ w',
      parse_commands username repo my_username pf true sha body st w
      = (Return true, with_status "" st, w')
      ∧ (truthy (approved_by st) = true → is_False (mergeable st) = false →
         get_status (with_status "" st) = "approved")
      ∧ tbl_pull (db w') !! (repo_label st, num st) =
          (λ r, if try_ st then row_with_status "" r
                else row_with_merge_sha (merge_sha st) (row_with_status "" r))
          <$> tbl_pull (db w) !! (repo_label st, num st)
      ∧ calls w' = calls w
  else
    parse_commands username repo my_username pf false sha body st w
    = (Return false, st, w).
Proof.
  intros Hauth Hwords Hrest. destruct realtime.
  - rewrite (parse_one _ _ _ _ _ _ _ l1 l2 "retry") by done.
    unfold directive. simpl. run_eff. unfold set_status. simpl.
    destruct (try_ st) eqn:Ht; simpl; eexists; (split; [reflexivity|]);
      simpl.
    + split; [intros Ha Hm; unfold get_status; simpl; by rewrite Ha, Hm|].
      rewrite lookup_alter_eq. by destruct (tbl_pull (db w) !! _).
    + split; [intros Ha Hm; unfold get_status; simpl; by rewrite Ha, Hm|].
      rewrite !lookup_alter_eq. by destruct (tbl_pull (db w) !! _).
  - rewrite (parse_one _ _ _ _ _ _ _ l1 l2 "retry") by done.
    by apply directive_not_found.
Qed.

Lemma X11_retry_resets_status_witness :
  ∃ w',
    parse_commands "alice" Sample.travis_repo "bot" (Sample.platform MergeNothing)
      true "" "@bot retry" (with_status "error" Sample.pr7) Sample.world7
    = (Return true, with_status "" (with_status "error" Sample.pr7), w')
    ∧ (truthy (approved_by (with_status "error" Sample.pr7)) = true →
       is_False (mergeable (with_status "error" Sample.pr7)) = false →
       get_status (with_status "" (with_status "error" Sample.pr7))
       = "approved")
    ∧ tbl_pull (db w') !! ("repo", 7%Z) =
        (λ r, if try_ (with_status "error" Sample.pr7)
              then row_with_status "" r
              else row_with_merge_sha
                     (merge_sha (with_status "error" Sample.pr7))
                     (row_with_status "" r))
        <$> tbl_pull (db Sample.world7) !! ("repo", 7%Z)
    ∧ calls w' = calls Sample.world7.
Proof.
  apply (X11_retry_resets_status "alice" Sample.travis_repo "bot"
           (Sample.platform MergeNothing) true "" "@bot retry" ["@bot"] []
           (with_status "error" Sample.pr7) Sample.world7).
  - left. by apply list_elem_of_singleton.
  - vm_compute. reflexivity.
  - repeat constructor.
Defined.

(** X12. [try], [try-] or [clean] as the only directive of an authorized
    comment in realtime mode discards the build under way: the merge commit
    is emptied and the build results are dropped in the entity, the
    build-result rows of the PR are deleted, [try] and [try-] set the try
    mode, and the stored row of the PR is the entity's again.  The status
    is left as it is and no call is made. *)
Theorem X12_try_and_clean_discard_build (username : string) (repo : repo_cfg)
    (my_username : string) (pf : Platform) (sha body : string)
    (l1 l2 : list string) (word : string) (st : PullReqState) (w : World) :
  username ∈ reviewers repo ∨ username = my_username →
  mention_words body my_username = l1 ++ word :: l2 →
  Forall (λ x, is_directive true x = false) (l1 ++ l2) →
  word = "try" ∨ word = "try-" ∨ word = "clean" →
  ∃ st' w',
    parse_commands username repo my_username pf true sha body st w
    = (Return true, st', w')
    ∧ st' = with_build_res ∅ (with_merge_sha ""
              (if String.eqb word "clean" then st
               else with_try_ (String.eqb word "try") st))
    ∧ status st' = status st
    ∧ tbl_pull (db w') !! (repo_label st, num st) = Some (row_of st')
    ∧ (∀ b, tbl_build_res (db w') !! (repo_label st, num st, b) = None)
    ∧ calls w' = calls w.
Proof.
  intros Hauth Hwords Hrest Hword.
  rewrite (parse_one _ _ _ _ _ _ _ l1 l2 word) by done.
  assert (Hdel : ∀ b,
            filter (λ kv : string * Z * string * build_res_row,
                      kv.1.1 ≠ (repo_label st, num st)) (tbl_build_res (db w))
            !! (repo_label st, num st, b) = None).
  { intros b. apply map_lookup_filter_None. right. intros r _. simpl.
    by intros []. }
  destruct Hword as [-> | [-> | ->]]; unfold directive; simpl; run_eff; simpl;
    eexists _, _; (split; [reflexivity|]); simpl;
    rewrite lookup_insert_eq; done.
Qed.

Lemma X12_try_and_clean_discard_build_witness :
  ∃ st' w',
    parse_commands "alice" Sample.travis_repo "bot" (Sample.platform MergeNothing)
      true "" "@bot try" Sample.pr7 Sample.world7
    = (Return true, st', w')
    ∧ st' = with_build_res ∅ (with_merge_sha ""
              (if String.eqb "try" "clean" then Sample.pr7
               else with_try_ (String.eqb "try" "try") Sample.pr7))
    ∧ status st' = status Sample.pr7
    ∧ tbl_pull (db w') !! (repo_label Sample.pr7, num Sample.pr7)
      = Some (row_of st')
    ∧ (∀ b, tbl_build_res (db w') !! (repo_label Sample.pr7, num Sample.pr7, b)
            = None)
    ∧ calls w' = calls Sample.world7.
Proof.
  apply (X12_try_and_clean_discard_build "alice" Sample.travis_repo "bot"
           (Sample.platform MergeNothing) "" "@bot try" ["@bot"] [] "try"
           Sample.pr7 Sample.world7).
  - left. by apply list_elem_of_singleton.
  - vm_compute. reflexivity.
  - repeat constructor.
  - by left.
Defined.

Lemma startswith_p_eq arg :
  String.eqb ("p=" +:+ arg) "r+" || startswith "r=" ("p=" +:+ arg) = false
  ∧ String.eqb ("p=" +:+ arg) "r-" = false
  ∧ startswith "p=" ("p=" +:+ arg) = true.
Proof.
  change ("p=" +:+ arg) with (String "p" (String "=" arg)).
  unfold startswith. simpl. by destruct arg.
Qed.

(** X13. [p=<arg>] as the only directive of an authorized comment, in
    either mode: when [int] accepts [arg] the priority becomes that
    integer, otherwise the priority stays; in both cases the comment counts
    as a command (true is returned) and the entity is saved, and nothing
    else changes. *)
Theorem X13_priority_directive (username : string) (repo : repo_cfg)
    (my_username : string) (pf : Platform) (realtime : bool)
    (sha body : string) (l1 l2 : list string) (arg : string)
    (st : PullReqState) (w : World) :
  username ∈ reviewers repo ∨ username = my_username →
  mention_words body my_username = l1 ++ ("p=" +:+ arg) :: l2 →
  Forall (λ x, is_directive realtime x = false) (l1 ++ l2) →
  parse_commands username repo my_username pf realtime sha body st w
  = (Return true, with_priority (default (priority st) (int arg)) st,
     save (with_priority (default (priority st) (int arg)) st) w).
Proof.
  intros Hauth Hwords Hrest.
  rewrite (parse_one _ _ _ _ _ _ _ l1 l2 ("p=" +:+ arg)) by done.
  destruct (startswith_p_eq arg) as (H1 & H2 & H3).
  unfold directive. rewrite H1, H2, H3.
  change (slice_from (String.length "p=") ("p=" +:+ arg)) with arg.
  run_eff. destruct (int arg); simpl; [done|]. by destruct st.
Qed.

Lemma X13_priority_directive_witness :
  parse_commands "alice" Sample.travis_repo "bot" (Sample.platform MergeNothing)
    false "" "@bot p=high" Sample.pr7 Sample.world7
  = (Return true,
     with_priority (default (priority Sample.pr7) (int "high")) Sample.pr7,
     save (with_priority (default (priority Sample.pr7) (int "high"))
             Sample.pr7) Sample.world7).
Proof.
  apply (X13_priority_directive "alice" Sample.travis_repo "bot"
           (Sample.platform MergeNothing) false "" "@bot p=high" ["@bot"] []
           "high" Sample.pr7 Sample.world7).
  - left. by apply list_elem_of_singleton.
  - vm_compute. reflexivity.
  - repeat constructor.
Defined.

(** ** Saving and loading again *)

Section reload.
Variables (label : string) (repo : repo_cfg) (builders : list string).
Hypothesis Hbuilders : recovery_builders repo = Return builders.

(** The entity that loading a fetched row gives. *)
Lemma load_pull_entity (n : Z) (row : pull_row) (w : World) :
  (load_pull label repo n row w).1.2 =
  {| num := n; priority := row_priority row; rollup := row_rollup row;
     title := row_title row; body := row_body row;
     head_ref := row_head_ref row; base_ref := row_base_ref row;
     assignee := row_assignee row; head_sha := row_head_sha row;
     approved_by := row_approved_by row;
     status := if negb (truthy (row_merge_sha row))
                  && String.eqb (row_status row) "pending"
               then "" else row_status row;
     merge_sha := row_merge_sha row;
     build_res := if truthy (row_merge_sha row)
                  then fresh_build_res builders else ∅;
     try_ := row_try_ row; mergeable := None; repo_label := label;
     owner := cfg_owner repo; name := cfg_name repo |}.
Proof.
  unfold load_pull, load_row. run_eff. simpl.
  destruct (truthy (row_merge_sha row)) eqn:Hm; simpl.
  - rewrite Hbuilders. reflexivity.
  - assert (row_merge_sha row = "") as ->
      by (destruct (row_merge_sha row); [done | discriminate]).
    by destruct (String.eqb (row_status row) "pending").
Qed.

Lemma load_rows_entities (rows : list (Z * pull_row)) :
  ∀ (s0 : gmap Z PullReqState) (w : World) states w',
  NoDup rows.*1 →
  load_rows label repo rows s0 w = (Return states, w') →
  ∀ n row, (n, row) ∈ rows →
    states !! n = Some (load_pull label repo n row w).1.2.
Proof.
  induction rows as [|[n row] rows IH]; intros s0 w states w' Hnd E n' row' Hin.
  { by apply elem_of_nil in Hin. }
  apply NoDup_cons in Hnd as [Hn Hnd]. simpl in E, Hn.
  destruct (load_pull label repo n row w) as [[o st1] w1] eqn:E1.
  destruct o as [[]|e]; [|discriminate].
  apply elem_of_cons in Hin as [[= -> ->] | Hin].
  - destruct (load_rows_ok label repo builders Hbuilders rows
                (<[n := st1]> s0) w1 Hnd)
      as (states2 & w2 & l & E2 & _ & _ & Hout).
    rewrite E in E2. injection E2 as <- <-.
    destruct (Hout n Hn) as [-> _]. rewrite lookup_insert_eq, E1. done.
  - rewrite (IH _ _ _ _ Hnd E n' row' Hin).
    by rewrite !load_pull_entity.
Qed.

End reload.

(** X14. Saving an entity and recovering the repository from the store
    gives the PR back with every stored column as it was saved, provided
    the entity is not pending without a merge commit (which recovery
    demotes).  What is not stored is rebuilt: the mergeability is unknown
    again; with a merge commit the build results are those of the
    builders of the CI block of the repository, each one without a result
    and without a url, and without a merge commit there are none. *)
Theorem X14_save_then_recover (repo : repo_cfg) (builders : list string)
    (st : PullReqState) (w : World) :
  match buildbot repo with
  | Some bb => builders = bb_builders bb
  | None =>
      if travis repo then builders = ["travis"]
      else if status_ci repo then builders = ["status"]
      else testrunners repo = Some builders
  end →
  ¬ (merge_sha st = "" ∧ status st = "pending") →
  ∃ states w' st2,
    load_repo (repo_label st) repo (save st w) = (Return states, w')
    ∧ states !! num st = Some st2
    ∧ row_of st2 = row_of st
    ∧ num st2 = num st ∧ repo_label st2 = repo_label st
    ∧ mergeable st2 = None
    ∧ (∀ b, build_res st2 !! b
            = if negb (String.eqb (merge_sha st) "")
                 && bool_decide (b ∈ builders)
              then Some (BuildInfo None "") else None)
    ∧ tbl_pull (db w') !! (repo_label st, num st) = Some (row_of st).
Proof.
  intros Hb%recovery_builders_ci Hnp. unfold load_repo.
  destruct (load_rows_ok (repo_label st) repo builders Hb
              (fetch_pulls (repo_label st) (db (save st w))) ∅ (save st w)
              (NoDup_fetch_pulls _ _))
    as (states & w' & l & E & _ & Hin & _).
  assert (Hrow : (num st, row_of st)
                 ∈ fetch_pulls (repo_label st) (db (save st w))).
  { apply elem_of_fetch_pulls. simpl. by rewrite lookup_insert_eq. }
  pose proof (load_rows_entities (repo_label st) repo builders Hb _ _ _ _ _
                (NoDup_fetch_pulls _ _) E _ _ Hrow) as Hs.
  rewrite (load_pull_entity _ _ builders Hb) in Hs.
  destruct (Hin _ _ Hrow) as (st2' & Hs' & _ & _ & _ & Hrec).
  assert (Hdem : negb (truthy (merge_sha st)) && String.eqb (status st) "pending"
                 = false).
  { apply not_true_is_false. intros [H1 H2]%andb_prop. apply Hnp.
    apply String.eqb_eq in H2. split; [|done].
    destruct (merge_sha st); [done | discriminate]. }
  unfold row_of at 1 2 3 4 5 6 7 8 9 10 11 12 13 14 in Hs. simpl in Hs.
  rewrite Hdem in Hs.
  eexists states, w', _. split; [done|]. split; [exact Hs|]. simpl.
  split; [by destruct st|]. split; [done|]. split; [done|]. split; [done|].
  split.
  { intros b. destruct (merge_sha st) as [|c m]; simpl.
    - apply lookup_empty.
    - apply lookup_fresh_build_res. }
  simpl in Hrec. destruct (truthy (merge_sha st)) eqn:Hm.
  - destruct Hrec as (_ & _ & ->). simpl. by rewrite lookup_insert_eq.
  - simpl in Hdem. rewrite Hdem in Hrec. destruct Hrec as (_ & ->).
    simpl. by rewrite lookup_insert_eq.
Qed.

Lemma X14_save_then_recover_witness :
  ∃ states w' st2,
    load_repo "repo" Sample.buildbot_repo
      (save (with_merge_sha Sample.merge_commit (Sample.pr10 None))
         Sample.world7) = (Return states, w')
    ∧ states !! 10%Z = Some st2
    ∧ row_of st2 = row_of (with_merge_sha Sample.merge_commit (Sample.pr10 None))
    ∧ mergeable st2 = None
    ∧ build_res st2 !! "linux" = Some (BuildInfo None "")
    ∧ build_res st2 !! "mac" = Some (BuildInfo None "")
    ∧ build_res st2 !! "travis" = None
    ∧ tbl_pull (db w') !! ("repo", 10%Z)
      = Some (row_of (with_merge_sha Sample.merge_commit (Sample.pr10 None))).
Proof.
  destruct (X14_save_then_recover Sample.buildbot_repo ["linux"; "mac"]
              (with_merge_sha Sample.merge_commit (Sample.pr10 None))
              Sample.world7)
    as (states & w' & st2 & E & Hs & Hrow & _ & _ & Hm & Hres & Ht).
  - reflexivity.
  - intros [H _]. discriminate H.
  - exists states, w', st2.
    split; [exact E|]. split; [exact Hs|]. split; [exact Hrow|].
    split; [exact Hm|]. split; [exact (Hres "linux")|].
    split; [exact (Hres "mac")|]. split; [exact (Hres "travis")|]. exact Ht.
Defined.

(** ** Recovery of the build results and of the mergeability *)

Lemma lookup_update_state l n l' n' f (ss : States) :
  lookup_state l n (update_state l' n' f ss)
  = if decide ((l, n) = (l', n')) then f <$> lookup_state l n ss
    else lookup_state l n ss.
Proof.
  unfold lookup_state, update_state, States in *.
  destruct (decide (l = l')) as [->|Hl].
  - rewrite lookup_alter_eq. destruct (ss !! l') as [m|]; simpl.
    + destruct (decide (n = n')) as [->|Hn].
      * rewrite lookup_alter_eq. by rewrite decide_True.
      * rewrite lookup_alter_ne by done. rewrite decide_False; congruence.
    + by destruct (decide _).
  - rewrite lookup_alter_ne by done. rewrite decide_False; congruence.
Qed.

(** The state that the loop over the mergeable rows leaves for a PR. *)
Lemma load_mergeable_spec (rows : list (string * Z * bool)) :
  ∀ (ss : States) (w : World),
  NoDup rows.*1 →
  tbl_pull (db (load_mergeable rows ss w).2) = tbl_pull (db w)
  ∧ tbl_build_res (db (load_mergeable rows ss w).2) = tbl_build_res (db w)
  ∧ (∀ l n, tbl_mergeable (db (load_mergeable rows ss w).2) !! (l, n)
            = match (list_to_map rows : gmap (string * Z) bool) !! (l, n) with
              | Some _ => match lookup_state l n ss with
                          | Some _ => tbl_mergeable (db w) !! (l, n)
                          | None => None
                          end
              | None => tbl_mergeable (db w) !! (l, n)
              end)
  ∧ (∀ l n, lookup_state l n (load_mergeable rows ss w).1
            = (λ st, match (list_to_map rows : gmap (string * Z) bool)
                             !! (l, n) with
                     | Some m => with_mergeable (Some m) st
                     | None => st
                     end) <$> lookup_state l n ss).
Proof.
  induction rows as [|[[l0 n0] m0] rows IH]; intros ss w Hnd.
  { simpl. repeat split; try done. intros l n. by destruct (lookup_state l n ss). }
  rewrite fmap_cons in Hnd. apply NoDup_cons in Hnd as [Hn Hnd].
  assert (Hnone : (list_to_map rows : gmap (string * Z) bool) !! (l0, n0) = None)
    by by apply not_elem_of_list_to_map.
  cbn [load_mergeable load_mergeable_row list_to_map foldr fst snd uncurry].
  destruct (lookup_state l0 n0 ss) as [st0|] eqn:E0.
  - destruct (IH (update_state l0 n0 (with_mergeable (Some m0)) ss) w Hnd)
      as (-> & -> & Hm & Hs).
    split; [done|]. split; [done|]. split.
    + intros l n. rewrite Hm, lookup_update_state.
      destruct (decide ((l, n) = (l0, n0))) as [[= -> ->]|Hne].
      * rewrite lookup_insert_eq, Hnone, E0. done.
      * rewrite lookup_insert_ne by congruence.
        by destruct (lookup_state l n ss).
    + intros l n. rewrite Hs, lookup_update_state.
      destruct (decide ((l, n) = (l0, n0))) as [[= -> ->]|Hne].
      * rewrite lookup_insert_eq, Hnone, E0. done.
      * rewrite lookup_insert_ne by congruence. done.
  - destruct (IH ss (run_sql (DeleteMergeable l0 n0) w) Hnd)
      as (-> & -> & Hm & Hs).
    split; [done|]. split; [done|]. split.
    + intros l n. rewrite Hm. simpl.
      destruct (decide ((l, n) = (l0, n0))) as [[= -> ->]|Hne].
      * rewrite lookup_insert_eq, Hnone, E0, lookup_delete_eq. done.
      * rewrite lookup_insert_ne, lookup_delete_ne by congruence. done.
    + intros l n. rewrite Hs.
      destruct (decide ((l, n) = (l0, n0))) as [[= -> ->]|Hne].
      * rewrite E0. done.
      * rewrite lookup_insert_ne by congruence. done.
Qed.


Lemma restored_insert_ne R l n l0 n0 b0 row0 st :
  (l, n) ≠ (l0, n0) →
  restored_build_res (<[(l0, n0, b0) := row0]> R) l n st
  = restored_build_res R l n st.
Proof.
  intros Hne. unfold restored_build_res. f_equal. apply map_eq. intros b.
  rewrite !map_lookup_imap. rewrite lookup_insert_ne by congruence. done.
Qed.

Lemma restored_insert_fit R l n b row st :
  R !! (l, n, b) = None →
  is_Some (build_res st !! b) →
  merge_sha st = br_merge_sha row →
  restored_build_res (<[(l, n, b) := row]> R) l n st
  = restored_build_res R l n
      (with_build_res (<[b := BuildInfo (br_res row) (br_url row)]>
                         (build_res st)) st).
Proof.
  intros HR [info Hin] Hsha. unfold restored_build_res, with_build_res. simpl.
  f_equal. apply map_eq. intros b'. rewrite !map_lookup_imap.
  destruct (decide (b' = b)) as [->|Hb].
  - rewrite !lookup_insert_eq, Hin, HR. simpl.
    rewrite Hsha, String.eqb_refl. done.
  - rewrite (lookup_insert_ne _ (l, n, b)) by congruence.
    rewrite (lookup_insert_ne _ b) by congruence. done.
Qed.

Lemma restored_insert_unfit R l n b row st :
  R !! (l, n, b) = None →
  build_res st !! b = None ∨ String.eqb (merge_sha st) (br_merge_sha row) = false →
  restored_build_res (<[(l, n, b) := row]> R) l n st
  = restored_build_res R l n st.
Proof.
  intros HR Hun. unfold restored_build_res. f_equal.
  apply map_eq. intros b'. rewrite !map_lookup_imap.
  destruct (decide (b' = b)) as [->|Hb].
  - rewrite lookup_insert_eq, HR. destruct Hun as [-> | ->]; [done|].
    by destruct (build_res st !! b).
  - rewrite lookup_insert_ne by congruence. done.
Qed.

Lemma build_row_state_Some l n b sha ss st :
  build_row_state l n b sha ss = Some st ↔
  lookup_state l n ss = Some st ∧ is_Some (build_res st !! b)
  ∧ merge_sha st = sha.
Proof.
  unfold build_row_state. destruct (lookup_state l n ss) as [st0|]; simpl.
  - destruct (bool_decide_reflect (is_Some (build_res st0 !! b))) as [Hb|Hb].
    + destruct (String.eqb_spec (merge_sha st0) sha) as [Hs|Hs].
      * split; [by intros [= ->]| by intros ([= ->] & _)].
      * split; [done | intros ([= ->] & _ & ?); done].
    + split; [done | intros ([= ->] & ? & _); done].
  - split; [done | by intros [? _]].
Qed.

Lemma build_row_state_None l n b sha ss :
  build_row_state l n b sha ss = None ↔
  match lookup_state l n ss with
  | Some st => build_res st !! b = None
               ∨ String.eqb (merge_sha st) sha = false
  | None => True
  end.
Proof.
  unfold build_row_state. destruct (lookup_state l n ss) as [st0|]; simpl;
    [|done].
  destruct (bool_decide_reflect (is_Some (build_res st0 !! b))) as [Hb|Hb].
  - destruct (String.eqb (merge_sha st0) sha) eqn:E.
    + split; [done|]. intros [H|H]; [|done]. rewrite H in Hb. by destruct Hb.
    + split; [by right | done].
  - split; [|done]. intros _. left. by apply eq_None_not_Some.
Qed.

(** Filling in a result changes neither the builders nor the merge commit
    of an entity, so the test of no other row. *)
Lemma build_row_state_update l n b sha l0 n0 b0 info ss :
  is_Some (lookup_state l0 n0 ss ≫= λ st, build_res st !! b0) →
  is_Some (build_row_state l n b sha
             (update_state l0 n0
                (λ st, with_build_res (<[b0 := info]> (build_res st)) st) ss))
  ↔ is_Some (build_row_state l n b sha ss).
Proof.
  intros Hin. unfold build_row_state. rewrite lookup_update_state.
  destruct (decide ((l, n) = (l0, n0))) as [[= -> ->]|Hne]; [|done].
  destruct (lookup_state l0 n0 ss) as [st|]; simpl in *; [|done].
  destruct (decide (b = b0)) as [->|Hb].
  - rewrite lookup_insert_eq.
    rewrite !bool_decide_eq_true_2 by (done || by eexists).
    destruct (String.eqb (merge_sha st) sha); split; intros [? ?]; by eexists.
  - rewrite lookup_insert_ne by done.
    destruct (bool_decide _); [|done].
    destruct (String.eqb (merge_sha st) sha); split; intros [? ?]; by eexists.
Qed.

Lemma load_build_res_spec
    (rows : list (string * Z * string * build_res_row)) :
  ∀ (ss : States) (w : World),
  NoDup rows.*1 →
  tbl_pull (db (load_build_res rows ss w).2) = tbl_pull (db w)
  ∧ tbl_mergeable (db (load_build_res rows ss w).2) = tbl_mergeable (db w)
  ∧ (∀ l n b,
       tbl_build_res (db (load_build_res rows ss w).2) !! (l, n, b)
       = match (list_to_map rows : gmap _ build_res_row) !! (l, n, b) with
         | Some row =>
             match build_row_state l n b (br_merge_sha row) ss with
             | Some _ => tbl_build_res (db w) !! (l, n, b)
             | None => None
             end
         | None => tbl_build_res (db w) !! (l, n, b)
         end)
  ∧ (∀ l n, lookup_state l n (load_build_res rows ss w).1
            = restored_build_res (list_to_map rows) l n
              <$> lookup_state l n ss).
Proof.
  induction rows as [|[[[l0 n0] b0] row0] rows IH]; intros ss w Hnd.
  { simpl. repeat split; try done. intros l n.
    destruct (lookup_state l n ss) as [st|]; [|done]. simpl. f_equal.
    unfold restored_build_res. destruct st; unfold with_build_res; simpl.
    f_equal. apply map_eq. intros b. rewrite map_lookup_imap.
    by destruct (_ !! b). }
  rewrite fmap_cons in Hnd. apply NoDup_cons in Hnd as [Hn Hnd].
  assert (Hnone : (list_to_map rows : gmap _ build_res_row) !! (l0, n0, b0)
                  = None) by by apply not_elem_of_list_to_map.
  cbn [load_build_res load_build_res_row list_to_map foldr fst snd uncurry].
  destruct (build_row_state l0 n0 b0 (br_merge_sha row0) ss) as [st0|] eqn:E0.
  - apply build_row_state_Some in E0 as E0'. destruct E0' as (Hst & Hb0 & Hsha).
    match goal with |- context [load_build_res rows ?s w] =>
      destruct (IH s w Hnd) as (-> & -> & Ht & Hs) end.
    split; [done|]. split; [done|]. split.
    + intros l n b. rewrite Ht.
      destruct (decide ((l, n, b) = (l0, n0, b0))) as [[= -> -> ->]|Hne].
      * by rewrite lookup_insert_eq, Hnone, E0.
      * rewrite lookup_insert_ne by congruence.
        destruct (list_to_map rows !! (l, n, b)) as [row|]; [|done].
        pose proof (build_row_state_update l n b (br_merge_sha row) l0 n0 b0
                      (BuildInfo (br_res row0) (br_url row0)) ss) as Hup.
        rewrite Hst in Hup. specialize (Hup Hb0).
        destruct (build_row_state l n b _ (update_state _ _ _ _)),
                 (build_row_state l n b _ ss); try done.
        -- destruct Hup as [Hup _]. by destruct Hup.
        -- destruct Hup as [_ Hup]. by destruct Hup.
    + intros l n. rewrite Hs, lookup_update_state.
      destruct (decide ((l, n) = (l0, n0))) as [[= -> ->]|Hne].
      * rewrite Hst. simpl. f_equal. symmetry.
        by apply restored_insert_fit.
      * destruct (lookup_state l n ss); [|done]. simpl.
        by rewrite restored_insert_ne.
  - destruct (IH ss (run_sql (DeleteBuildResRow l0 n0 b0) w) Hnd)
      as (-> & -> & Ht & Hs).
    split; [done|]. split; [done|]. split.
    + intros l n b. rewrite Ht. simpl.
      destruct (decide ((l, n, b) = (l0, n0, b0))) as [[= -> -> ->]|Hne].
      * by rewrite lookup_insert_eq, Hnone, E0, lookup_delete_eq.
      * rewrite lookup_insert_ne, lookup_delete_ne by congruence. done.
    + intros l n. rewrite Hs.
      destruct (decide ((l, n) = (l0, n0))) as [[= -> ->]|Hne].
      * apply build_row_state_None in E0.
        destruct (lookup_state l0 n0 ss); [|done]. simpl.
        by rewrite restored_insert_unfit.
      * destruct (lookup_state l n ss); [|done]. simpl.
        by rewrite restored_insert_ne.
Qed.

(** X15. The loop of [main] over the build rows keeps a row exactly when
    its PR is in memory, has the row's builder among its build results and
    carries the row's merge commit; every other row is deleted.  Afterwards
    every row left in the table is matched in memory: the entity has the
    row's merge commit, and the row's result and url under the row's
    builder.  In memory only build results change: the builders of an
    entity stay the same, and a builder without a row left keeps the result
    it had.  The pull and mergeable tables are not touched. *)
Theorem X15_recover_build_res (ss : States) (w : World) :
  (∀ l n b,
     tbl_build_res (db (recover_build_res ss w).2) !! (l, n, b)
     = row ← tbl_build_res (db w) !! (l, n, b);
       _ ← build_row_state l n b (br_merge_sha row) ss; Some row)
  ∧ (∀ l n b row,
       tbl_build_res (db (recover_build_res ss w).2) !! (l, n, b) = Some row →
       ∃ st, lookup_state l n (recover_build_res ss w).1 = Some st
             ∧ merge_sha st = br_merge_sha row
             ∧ build_res st !! b = Some (BuildInfo (br_res row) (br_url row)))
  ∧ (∀ l n,
       match lookup_state l n ss with
       | None => lookup_state l n (recover_build_res ss w).1 = None
       | Some st =>
           ∃ st', lookup_state l n (recover_build_res ss w).1 = Some st'
                  ∧ st' = with_build_res (build_res st') st
                  ∧ dom (build_res st') = dom (build_res st)
                  ∧ ∀ b, tbl_build_res (db (recover_build_res ss w).2)
                           !! (l, n, b) = None →
                         build_res st' !! b = build_res st !! b
       end)
  ∧ tbl_pull (db (recover_build_res ss w).2) = tbl_pull (db w)
  ∧ tbl_mergeable (db (recover_build_res ss w).2) = tbl_mergeable (db w).
Proof.
  unfold recover_build_res.
  destruct (load_build_res_spec (map_to_list (tbl_build_res (db w))) ss w
              (NoDup_fst_map_to_list _)) as (Hp & Hm & Ht & Hs).
  rewrite list_to_map_to_list in Ht, Hs.
  assert (Ht' : ∀ l n b,
    tbl_build_res (db (load_build_res (map_to_list (tbl_build_res (db w)))
                         ss w).2) !! (l, n, b)
    = row ← tbl_build_res (db w) !! (l, n, b);
      _ ← build_row_state l n b (br_merge_sha row) ss; Some row).
  { intros l n b. rewrite Ht.
    destruct (tbl_build_res (db w) !! (l, n, b)) as [row|]; [|done]. simpl.
    by destruct (build_row_state l n b (br_merge_sha row) ss). }
  split; [exact Ht'|]. split; [|split; [|done]].
  - intros l n b row Hrow. rewrite Ht' in Hrow.
    destruct (tbl_build_res (db w) !! (l, n, b)) as [row'|] eqn:Er; [|done].
    simpl in Hrow.
    destruct (build_row_state l n b (br_merge_sha row') ss) as [st|] eqn:Eb;
      [|done].
    injection Hrow as ->.
    apply build_row_state_Some in Eb as (Hst & [info Hb] & Hsha).
    rewrite Hs, Hst. eexists. split; [done|]. split; [done|]. simpl.
    rewrite map_lookup_imap, Hb, Er. simpl. by rewrite Hsha, String.eqb_refl.
  - intros l n. rewrite Hs.
    destruct (lookup_state l n ss) as [st|] eqn:Est; [|done]. simpl.
    eexists. split; [done|]. split; [done|]. split.
    + simpl. apply set_eq. intros b. rewrite !elem_of_dom, map_lookup_imap.
      destruct (build_res st !! b); simpl; split; intros [? ?]; by eexists.
    + intros b Hb. simpl. rewrite map_lookup_imap. rewrite Ht' in Hb.
      destruct (build_res st !! b) as [info|] eqn:Ei; [|done]. simpl.
      destruct (tbl_build_res (db w) !! (l, n, b)) as [row|] eqn:Er; [|done].
      simpl in Hb.
      destruct (String.eqb_spec (merge_sha st) (br_merge_sha row)) as [Hsha|];
        [|done].
      assert (build_row_state l n b (br_merge_sha row) ss = Some st) as Hf.
      { apply build_row_state_Some. split; [done|]. split; [by eexists|done]. }
      by rewrite Hf in Hb.
Qed.

(** ** The whole recovery *)

(** What loading one fetched row does to the tables, whatever its outcome. *)
Lemma load_pull_world label repo n row w :
  tbl_mergeable (db (load_pull label repo n row w).2)
  = delete (label, n) (tbl_mergeable (db w))
  ∧ tbl_build_res (db (load_pull label repo n row w).2) = tbl_build_res (db w)
  ∧ (∀ k, is_Some (tbl_pull (db w) !! k) →
          is_Some (tbl_pull (db (load_pull label repo n row w).2) !! k))
  ∧ (∀ k, is_Some (tbl_pull (db (load_pull label repo n row w).2) !! k) →
          is_Some (tbl_pull (db w) !! k) ∨ k = (label, n))
  ∧ num (load_pull label repo n row w).1.2 = n
  ∧ repo_label (load_pull label repo n row w).1.2 = label
  ∧ mergeable (load_pull label repo n row w).1.2 = None.
Proof.
  unfold load_pull, load_row. run_eff. simpl.
  destruct (truthy (row_merge_sha row)); simpl.
  - destruct (recovery_builders repo); simpl; repeat split; try done;
      intros; tauto.
  - destruct (String.eqb (row_status row) "pending"); simpl;
      repeat split; try done; try (intros; tauto).
    + intros k [x Hx]. destruct (decide (k = (label, n))) as [->|Hk].
      * rewrite lookup_insert_eq. by eexists.
      * rewrite lookup_insert_ne by done. by eexists.
    + intros k [x Hx]. destruct (decide (k = (label, n))) as [->|Hk].
      * by right.
      * left. rewrite lookup_insert_ne in Hx by done. by eexists.
Qed.

Lemma load_rows_world label repo (rows : list (Z * pull_row)) :
  ∀ (s0 : gmap Z PullReqState) (w : World) states w',
  load_rows label repo rows s0 w = (Return states, w') →
  tbl_build_res (db w') = tbl_build_res (db w)
  ∧ (∀ l n, tbl_mergeable (db w') !! (l, n)
            = if decide (l = label ∧ n ∈ rows.*1) then None
              else tbl_mergeable (db w) !! (l, n))
  ∧ (∀ k, is_Some (tbl_pull (db w) !! k) → is_Some (tbl_pull (db w') !! k))
  ∧ (∀ l n, is_Some (tbl_pull (db w') !! (l, n)) →
            is_Some (tbl_pull (db w) !! (l, n)) ∨ l = label ∧ n ∈ rows.*1)
  ∧ (∀ n, is_Some (states !! n) ↔ is_Some (s0 !! n) ∨ n ∈ rows.*1)
  ∧ (∀ n st, states !! n = Some st →
       s0 !! n = Some st
       ∨ num st = n ∧ repo_label st = label ∧ mergeable st = None).
Proof.
  induction rows as [|[n0 row0] rows IH]; intros s0 w states w' E.
  { injection E as <- <-. repeat split; try done.
    - intros l n. rewrite decide_False; [done|]. intros [_ []%elem_of_nil].
    - intros; by left.
    - intros; by left.
    - intros [?|[]%elem_of_nil]; done.
    - intros; by left. }
  cbn [load_rows] in E.
  destruct (load_pull_world label repo n0 row0 w)
    as (Hm1 & Hb1 & Hp1 & Hp1' & Hnum & Hlab & Hmrg).
  destruct (load_pull label repo n0 row0 w) as [[[[]|e] st1] w1]; [|done].
  simpl in Hm1, Hb1, Hp1, Hp1', Hnum, Hlab, Hmrg.
  destruct (IH _ _ _ _ E) as (Hb & Hm & Hp & Hp' & Hs & Hst).
  rewrite fmap_cons. cbn [fst]. split; [congruence|]. split; [|split; [|split; [|split]]].
  - intros l n. rewrite Hm, Hm1.
    destruct (decide (l = label ∧ n ∈ rows.*1)) as [[-> Hin]|Hni].
    + rewrite decide_True; [done|]. split; [done|]. by apply elem_of_cons; right.
    + destruct (decide ((l, n) = (label, n0))) as [[= -> ->]|Hne].
      * rewrite lookup_delete_eq, decide_True; [done|].
        split; [done|]. by apply elem_of_cons; left.
      * rewrite lookup_delete_ne by congruence.
        rewrite decide_False; [done|]. intros [-> [->|Hin]%elem_of_cons]; tauto.
  - intros k Hk. by apply Hp, Hp1.
  - intros l n Hk. destruct (Hp' l n Hk) as [Hk1|[-> Hin]].
    + destruct (Hp1' _ Hk1) as [?|[= -> ->]]; [by left|].
      right. split; [done|]. by apply elem_of_cons; left.
    + right. split; [done|]. by apply elem_of_cons; right.
  - intros n. rewrite Hs, elem_of_cons.
    destruct (decide (n = n0)) as [->|Hne].
    + rewrite lookup_insert_eq. split; [intros _; right; by left|].
      intros _. left. by eexists.
    + rewrite lookup_insert_ne by done. tauto.
  - intros n st Hn. destruct (Hst n st Hn) as [Hin|?]; [|by right].
    destruct (decide (n = n0)) as [->|Hne].
    + rewrite lookup_insert_eq in Hin. injection Hin as <-. by right.
    + rewrite lookup_insert_ne in Hin by done. by left.
Qed.

Lemma fetch_pulls_keys label d n :
  n ∈ (fetch_pulls label d).*1 ↔ is_Some (tbl_pull d !! (label, n)).
Proof.
  rewrite list_elem_of_fmap. split.
  - intros ([n' row] & -> & Hin%elem_of_fetch_pulls). by eexists.
  - intros [row Hrow]. exists (n, row). split; [done|].
    by apply elem_of_fetch_pulls.
Qed.

Lemma lookup_state_insert l n label rs (ss : States) :
  lookup_state l n (<[label := rs]> ss)
  = if decide (l = label) then rs !! n else lookup_state l n ss.
Proof.
  unfold lookup_state, States in *.
  destruct (decide (l = label)) as [->|Hne].
  - by rewrite lookup_insert_eq.
  - by rewrite lookup_insert_ne.
Qed.

(** A repository with one of the four CI blocks has builders. *)
Lemma ci_block_builders (repo : repo_cfg) :
  is_Some (buildbot repo) ∨ travis repo = true ∨ status_ci repo = true
  ∨ is_Some (testrunners repo) →
  ∃ builders, recovery_builders repo = Return builders.
Proof.
  unfold recovery_builders. intros H.
  destruct (buildbot repo) as [bb|]; [by eexists|].
  destruct (travis repo); [by eexists|].
  destruct (status_ci repo); [by eexists|].
  destruct (testrunners repo) as [l|]; [by eexists|].
  destruct H as [[? ?]|[?|[?|[? ?]]]]; done.
Qed.

Lemma seen_pull_keys iso snapshot now :
  (∀ k, is_Some (tbl_pull now !! k) ↔ is_Some (tbl_pull snapshot !! k)) →
  ∀ k, is_Some (tbl_pull (seen iso snapshot now) !! k)
       ↔ is_Some (tbl_pull snapshot !! k).
Proof. intros H k. destruct iso; [done | apply H]. Qed.

Lemma load_repos_world iso snapshot (repos : list (string * repo_cfg)) :
  ∀ (ss : States) (w : World) states w',
  (∀ k, is_Some (tbl_pull (db w) !! k) ↔ is_Some (tbl_pull snapshot !! k)) →
  load_repos iso snapshot repos ss w = (Return states, w') →
  tbl_build_res (db w') = tbl_build_res (db w)
  ∧ (∀ l n, tbl_mergeable (db w') !! (l, n)
            = if decide (l ∈ repos.*1 ∧ is_Some (tbl_pull snapshot !! (l, n)))
              then None else tbl_mergeable (db w) !! (l, n))
  ∧ (∀ k, is_Some (tbl_pull (db w') !! k) ↔ is_Some (tbl_pull snapshot !! k))
  ∧ (∀ l n, is_Some (lookup_state l n states)
            ↔ if decide (l ∈ repos.*1)
              then is_Some (tbl_pull snapshot !! (l, n))
              else is_Some (lookup_state l n ss))
  ∧ (∀ l n st, lookup_state l n states = Some st →
       lookup_state l n ss = Some st
       ∨ num st = n ∧ repo_label st = l ∧ mergeable st = None).
Proof.
  induction repos as [|[label repo] repos IH]; intros ss w states w' Hk E.
  { injection E as <- <-. split; [done|]. split; [|split; [done|split]].
    - intros l n. rewrite decide_False; [done|]. intros [[]%elem_of_nil _].
    - intros l n. rewrite decide_False; [done|]. intros []%elem_of_nil.
    - intros; by left. }
  cbn [load_repos] in E.
  destruct (load_rows label repo
              (fetch_pulls label (seen iso snapshot (db w))) ∅ w)
    as [[rs|e] w1] eqn:E1; [|done].
  destruct (load_rows_world _ _ _ _ _ _ _ E1)
    as (Hb1 & Hm1 & Hp1 & Hp1' & Hs1 & Hst1).
  assert (Hrows : ∀ n, n ∈ (fetch_pulls label (seen iso snapshot (db w))).*1
                       ↔ is_Some (tbl_pull snapshot !! (label, n))).
  { intros n. rewrite fetch_pulls_keys. by apply seen_pull_keys. }
  assert (Hk1 : ∀ k, is_Some (tbl_pull (db w1) !! k)
                     ↔ is_Some (tbl_pull snapshot !! k)).
  { intros [l n]. split.
    - intros H. destruct (Hp1' l n H) as [?|[-> Hin]]; [by apply Hk|].
      by apply Hrows.
    - intros H. by apply Hp1, Hk. }
  destruct (IH _ _ _ _ Hk1 E) as (Hb & Hm & Hp & Hs & Hst).
  rewrite fmap_cons. cbn [fst].
  split; [congruence|]. split; [|split; [done|split]].
  - intros l n. rewrite Hm, Hm1.
    destruct (decide (l ∈ repos.*1 ∧ is_Some (tbl_pull snapshot !! (l, n))))
      as [[Hin Hl]|Hni].
    + rewrite decide_True; [done|]. split; [by apply elem_of_cons; right|done].
    + destruct (decide (l = label
                        ∧ n ∈ (fetch_pulls label
                                 (seen iso snapshot (db w))).*1))
        as [[-> Hl]|Hne].
      * rewrite decide_True; [done|].
        split; [by apply elem_of_cons; left|]. by apply Hrows.
      * rewrite decide_False; [done|].
        intros [[->|Hin]%elem_of_cons Hl]; [|tauto].
        apply Hne. split; [done|]. by apply Hrows.
  - intros l n. rewrite Hs.
    destruct (decide (l ∈ repos.*1)) as [Hin|Hni].
    + by rewrite decide_True by (by apply elem_of_cons; right).
    + rewrite lookup_state_insert.
      destruct (decide (l = label)) as [->|Hne].
      * rewrite decide_True by (by apply elem_of_cons; left).
        rewrite Hs1, Hrows, lookup_empty.
        split; [intros [[? ?]|?]; done | by right].
      * rewrite decide_False; [done|]. intros [->|?]%elem_of_cons; done.
  - intros l n st Hl. destruct (Hst l n st Hl) as [Hl1|?]; [|by right].
    rewrite lookup_state_insert in Hl1.
    destruct (decide (l = label)) as [->|Hne]; [|by left].
    right. destruct (Hst1 n st Hl1) as [H0|?]; [|done].
    by rewrite lookup_empty in H0.
Qed.

Lemma load_repos_returns iso snapshot (repos : list (string * repo_cfg)) :
  Forall (λ lr : string * repo_cfg,
            is_Some (buildbot lr.2) ∨ travis lr.2 = true
            ∨ status_ci lr.2 = true ∨ is_Some (testrunners lr.2)) repos →
  ∀ (ss : States) (w : World),
  ∃ states w', load_repos iso snapshot repos ss w = (Return states, w').
Proof.
  induction 1 as [|[label repo] repos Hci _ IH]; intros ss w.
  { by exists ss, w. }
  cbn [load_repos].
  destruct (ci_block_builders repo Hci) as [builders Hb].
  destruct (load_rows_ok label repo builders Hb
              (fetch_pulls label (seen iso snapshot (db w))) ∅ w
              (NoDup_fetch_pulls _ _))
    as (rs & w1 & l & -> & _).
  apply IH.
Qed.

(** The loop over the build rows sends a statement exactly when a row
    does not fit the entities in memory. *)
Lemma load_build_res_sends (rows : list (string * Z * string * build_res_row)) :
  ∀ (ss : States) (w : World),
  length (sql_log w) ≤ length (sql_log (load_build_res rows ss w).2)
  ∧ (length (sql_log (load_build_res rows ss w).2) = length (sql_log w)
     ↔ ∀ l n b row, (l, n, b, row) ∈ rows →
         is_Some (build_row_state l n b (br_merge_sha row) ss)).
Proof.
  induction rows as [|[[[l0 n0] b0] row0] rows IH]; intros ss w.
  { simpl. split; [done|]. split; [|done]. by intros _ ? ? ? ? ?%elem_of_nil. }
  cbn [load_build_res load_build_res_row].
  destruct (build_row_state l0 n0 b0 (br_merge_sha row0) ss) as [st0|] eqn:E0.
  - match goal with |- context [load_build_res rows ?s w] =>
      destruct (IH s w) as [Hle Hiff] end.
    split; [done|]. rewrite Hiff.
    apply build_row_state_Some in E0 as E0'. destruct E0' as (Hst & Hb0 & _).
    assert (Hup : ∀ l n b sha,
      is_Some (build_row_state l n b sha
                 (update_state l0 n0
                    (λ st, with_build_res
                       (<[b0 := BuildInfo (br_res row0) (br_url row0)]>
                          (build_res st)) st) ss))
      ↔ is_Some (build_row_state l n b sha ss)).
    { intros l n b sha. apply build_row_state_update. by rewrite Hst. }
    split.
    + intros H l n b row [[= -> -> -> ->]|Hin]%elem_of_cons.
      * rewrite E0. by eexists.
      * by apply Hup, H.
    + intros H l n b row Hin. apply Hup, H. by right.
  - destruct (IH ss (run_sql (DeleteBuildResRow l0 n0 b0) w)) as [Hle _].
    simpl in Hle. rewrite length_app in Hle. simpl in Hle.
    split; [lia|]. split; [lia|].
    intros H. destruct (H l0 n0 b0 row0) as [? Hs]; [by left|].
    by rewrite E0 in Hs.
Qed.

(** X17. Startup recovery when every configured repository has a CI
    block, under either way of reading of the startup connection: it
    returns; the PRs in memory are exactly the pull rows of the configured
    repositories, each under its own label and number; the mergeable table
    is left empty (the row of a recovered PR is deleted when the PR is
    loaded, the others by the loop over the mergeable rows).  What a
    recovered PR knows of its mergeability depends on what the read of the
    mergeable rows sees: when the reads are from the snapshot of the
    transaction and no build row was deleted, so that the connection has
    not committed, the PR gets the mergeability that was stored; otherwise
    the row is gone before it is read and the mergeability is unknown.
    Every build row left in the store was there before and agrees with the
    entity in memory. *)
Theorem X17_recover_startup (iso : isolation)
    (repos : list (string * repo_cfg)) (w : World) :
  Forall (λ lr : string * repo_cfg,
            is_Some (buildbot lr.2) ∨ travis lr.2 = true
            ∨ status_ci lr.2 = true ∨ is_Some (testrunners lr.2)) repos →
  ∃ states w',
    recover iso repos w = (Return states, w')
    ∧ (∀ l n, is_Some (lookup_state l n states)
              ↔ l ∈ repos.*1 ∧ is_Some (tbl_pull (db w) !! (l, n)))
    ∧ (∀ l n st, lookup_state l n states = Some st →
         num st = n ∧ repo_label st = l
         ∧ (iso = ReadCommitted
            ∨ tbl_build_res (db w') ≠ tbl_build_res (db w) →
            mergeable st = None)
         ∧ (iso = RepeatableRead →
            tbl_build_res (db w') = tbl_build_res (db w) →
            mergeable st = tbl_mergeable (db w) !! (l, n)))
    ∧ tbl_mergeable (db w') = ∅
    ∧ (∀ l n b row,
         tbl_build_res (db w') !! (l, n, b) = Some row →
         tbl_build_res (db w) !! (l, n, b) = Some row
         ∧ ∃ st, lookup_state l n states = Some st
                 ∧ merge_sha st = br_merge_sha row
                 ∧ build_res st !! b
                   = Some (BuildInfo (br_res row) (br_url row))).
Proof.
  intros Hcfg.
  destruct (load_repos_returns iso (db w) repos Hcfg ∅ w)
    as (states1 & w1 & E1).
  destruct (load_repos_world _ _ _ _ _ _ _ (λ k, reflexivity _) E1)
    as (Hb1 & Hm1 & Hp1 & Hs1 & Hst1).
  unfold recover. cbv zeta. rewrite E1.
  assert (tbl_build_res (seen iso (db w) (db w1)) = tbl_build_res (db w1))
    as -> by (destruct iso; done).
  destruct (load_build_res_spec (map_to_list (tbl_build_res (db w1)))
              states1 w1 (NoDup_fst_map_to_list _)) as (Hp2 & Hm2 & Ht2 & Hs2).
  rewrite list_to_map_to_list in Ht2, Hs2.
  destruct (load_build_res_sends (map_to_list (tbl_build_res (db w1)))
              states1 w1) as [_ Hsent].
  destruct (load_build_res _ states1 w1) as [states2 w2].
  cbn [fst snd] in Hp2, Hm2, Ht2, Hs2, Hsent.
  assert (Hin : ∀ l n, is_Some (lookup_state l n states1)
                ↔ l ∈ repos.*1 ∧ is_Some (tbl_pull (db w) !! (l, n))).
  { intros l n. rewrite Hs1. destruct (decide (l ∈ repos.*1)); [tauto|].
    split; [by intros [? ?] | tauto]. }
  assert (Hnone : ∀ l n, is_Some (lookup_state l n states1) →
                  tbl_mergeable (db w2) !! (l, n) = None).
  { intros l n Hl. rewrite Hm2, Hm1, decide_True; [done|]. by apply Hin. }
  assert (Hkeep : ∀ l n, lookup_state l n states1 = None →
                  tbl_mergeable (db w2) !! (l, n)
                  = tbl_mergeable (db w) !! (l, n)).
  { intros l n Hl. rewrite Hm2, Hm1, decide_False; [done|].
    intros H%Hin. rewrite Hl in H. by destruct H. }
  assert (Hmerg : ∀ l n st, lookup_state l n states1 = Some st →
                  mergeable st = None).
  { intros l n st Hl. destruct (Hst1 l n st Hl) as [H0|(_ & _ & ?)]; [|done].
    done. }
  assert (Hnum : ∀ l n st, lookup_state l n states1 = Some st →
                 num st = n ∧ repo_label st = l).
  { intros l n st Hl. destruct (Hst1 l n st Hl) as [H0|(? & ? & _)]; done. }
  (* whether a build row was deleted *)
  assert (Hcommit :
    (length (sql_log w2) = length (sql_log w1)
     → tbl_build_res (db w2) = tbl_build_res (db w))
    ∧ (length (sql_log w2) ≠ length (sql_log w1)
       → tbl_build_res (db w2) ≠ tbl_build_res (db w))).
  { split.
    - intros Hlen. rewrite <- Hb1. apply map_eq. intros [[l n] b].
      rewrite Ht2.
      destruct (tbl_build_res (db w1) !! (l, n, b)) as [row|] eqn:Er; [|done].
      destruct (proj1 Hsent Hlen l n b row) as [st Hst];
        [by apply elem_of_map_to_list|]. by rewrite Hst.
    - intros Hlen Heq. apply Hlen, Hsent. intros l n b row Hrow.
      apply elem_of_map_to_list in Hrow.
      assert (Hl := Ht2 l n b). rewrite Heq, <- Hb1, Hrow in Hl.
      destruct (build_row_state l n b (br_merge_sha row) states1);
        [by eexists | done]. }
  set (snap := if (length (sql_log w2) =? length (sql_log w1))%nat
               then db w else db w2).
  destruct (load_mergeable_spec
              (map_to_list (tbl_mergeable (seen iso snap (db w2))))
              states2 w2 (NoDup_fst_map_to_list _)) as (Hp3 & Hb3 & Hm3 & Hs3).
  rewrite list_to_map_to_list in Hm3, Hs3.
  destruct (load_mergeable _ states2 w2) as [states3 w3].
  cbn [fst snd] in Hp3, Hb3, Hm3, Hs3.
  (* what the read of the mergeable rows sees for a PR in memory *)
  assert (Hseen : ∀ l n,
    tbl_mergeable (seen iso snap (db w2)) !! (l, n)
    = match iso with
      | RepeatableRead =>
          if (length (sql_log w2) =? length (sql_log w1))%nat
          then tbl_mergeable (db w) !! (l, n)
          else tbl_mergeable (db w2) !! (l, n)
      | ReadCommitted => tbl_mergeable (db w2) !! (l, n)
      end).
  { intros l n. unfold snap. destruct iso; [|done]. simpl.
    by destruct (length (sql_log w2) =? length (sql_log w1))%nat. }
  assert (Hstate : ∀ l n, lookup_state l n states3
    = (λ st, match tbl_mergeable (seen iso snap (db w2)) !! (l, n) with
             | Some m => with_mergeable (Some m) st
             | None => st
             end) <$> (restored_build_res (tbl_build_res (db w1)) l n
                       <$> lookup_state l n states1)).
  { intros l n. by rewrite Hs3, Hs2. }
  exists states3, w3. split; [done|]. split; [|split; [|split]].
  - intros l n. rewrite Hstate, !fmap_is_Some. apply Hin.
  - intros l n st. rewrite Hstate.
    destruct (lookup_state l n states1) as [st1|] eqn:E; [|done].
    intros [= <-]. cbn [fmap option_fmap option_map].
    destruct (Hnum l n st1 E) as [Hn Hl]. specialize (Hmerg l n st1 E).
    assert (Hw2 : tbl_mergeable (db w2) !! (l, n) = None)
      by (apply Hnone; rewrite E; by eexists).
    rewrite Hb3.
    destruct (tbl_mergeable (seen iso snap (db w2)) !! (l, n)) as [m|] eqn:Es;
      rewrite Hseen in Es; simpl; rewrite ?Hmerg;
      (split; [done|]); (split; [done|]); split.
    + intros Hc. destruct iso; [|congruence].
      destruct (Nat.eqb_spec (length (sql_log w2)) (length (sql_log w1)))
        as [Hlen|Hlen]; [|congruence].
      destruct Hc as [?|Hc]; [done|].
      by destruct (Hc (proj1 Hcommit Hlen)).
    + intros -> Heq.
      destruct (Nat.eqb_spec (length (sql_log w2)) (length (sql_log w1)))
        as [Hlen|Hlen]; [done|].
      by destruct (proj2 Hcommit Hlen).
    + done.
    + intros -> Heq.
      destruct (Nat.eqb_spec (length (sql_log w2)) (length (sql_log w1)))
        as [Hlen|Hlen]; [done|].
      by destruct (proj2 Hcommit Hlen).
  - apply map_empty. intros [l n]. rewrite Hm3.
    destruct (lookup_state l n states2) as [st2|] eqn:E2.
    + rewrite Hnone; [by destruct (_ !! _)|].
      rewrite Hs2 in E2. destruct (lookup_state l n states1); [by eexists|done].
    + assert (E1' : lookup_state l n states1 = None).
      { rewrite Hs2 in E2. by destruct (lookup_state l n states1). }
      destruct (tbl_mergeable (seen iso snap (db w2)) !! (l, n)) eqn:Es;
        [done|].
      rewrite Hseen in Es. rewrite Hkeep by done. rewrite Hkeep in Es by done.
      by destruct iso, (_ =? _)%nat.
  - intros l n b row. rewrite Hb3, Ht2, Hb1.
    destruct (tbl_build_res (db w) !! (l, n, b)) as [row'|] eqn:Er; [|done].
    destruct (build_row_state l n b (br_merge_sha row') states1) as [st1|]
      eqn:Eb; [|done].
    intros [= ->]. split; [done|].
    apply build_row_state_Some in Eb as (Hst & [info Hb] & Hsha).
    rewrite Hstate, Hst. eexists. split; [done|].
    cbn [fmap option_fmap option_map].
    split.
    + by destruct (tbl_mergeable _ !! _).
    + assert (build_res (restored_build_res (tbl_build_res (db w1)) l n st1)
                !! b = Some (BuildInfo (br_res row) (br_url row))) as Hres.
      { simpl. rewrite map_lookup_imap, Hb, Hb1, Er. simpl.
        by rewrite Hsha, String.eqb_refl. }
      by destruct (tbl_mergeable _ !! _).
Qed.

Lemma X17_recover_startup_witness :
  (∃ states w' st,
     recover RepeatableRead [("repo", Sample.travis_repo)]
       (run_sql (ReplaceMergeable "repo" 7 true) Sample.world7)
     = (Return states, w')
     ∧ lookup_state "repo" 7 states = Some st
     ∧ mergeable st = Some true
     ∧ tbl_mergeable (db w') = ∅)
  ∧ (∃ states w' st,
       recover ReadCommitted [("repo", Sample.travis_repo)]
         (run_sql (ReplaceMergeable "repo" 7 true) Sample.world7)
       = (Return states, w')
       ∧ lookup_state "repo" 7 states = Some st
       ∧ mergeable st = None
       ∧ tbl_mergeable (db w') = ∅).
Proof.
  split.
  - destruct (X17_recover_startup RepeatableRead
                [("repo", Sample.travis_repo)]
                (run_sql (ReplaceMergeable "repo" 7 true) Sample.world7))
      as (states & w' & E & Hdom & Hst & Hempty & Hrows).
    { constructor; [right; by left | constructor]. }
    destruct (proj2 (Hdom "repo" 7%Z)) as [st Hs].
    { split; [by apply list_elem_of_singleton|]. by eexists. }
    exists states, w', st. split; [exact E|]. split; [exact Hs|].
    split; [|exact Hempty].
    destruct (Hst _ _ _ Hs) as (_ & _ & _ & Hrr).
    rewrite Hrr; [reflexivity | reflexivity |].
    apply map_eq. intros [[l n] b].
    destruct (tbl_build_res (db w') !! (l, n, b)) as [row|] eqn:Er; [|done].
    by destruct (Hrows _ _ _ _ Er) as [H _].
  - destruct (X17_recover_startup ReadCommitted
                [("repo", Sample.travis_repo)]
                (run_sql (ReplaceMergeable "repo" 7 true) Sample.world7))
      as (states & w' & E & Hdom & Hst & Hempty & Hrows).
    { constructor; [right; by left | constructor]. }
    destruct (proj2 (Hdom "repo" 7%Z)) as [st Hs].
    { split; [by apply list_elem_of_singleton|]. by eexists. }
    exists states, w', st. split; [exact E|]. split; [exact Hs|].
    split; [|exact Hempty].
    destruct (Hst _ _ _ Hs) as (_ & _ & Hrc & _). apply Hrc. by left.
Defined.

(** ** The connection pool *)

Lemma lookup_comprehension {V : Type} (g : string → option V)
    (keys : list string) (k : string) :
  (list_to_map (omap (λ k, (λ v, (k, v)) <$> g k) keys) : gmap string V) !! k
  = if decide (k ∈ keys) then g k else None.
Proof.
  induction keys as [|k0 keys IH].
  { rewrite decide_False by (by intros ?%elem_of_nil). apply lookup_empty. }
  cbn [omap list_omap].
  destruct (decide (k = k0)) as [->|Hne].
  - rewrite decide_True by (by apply elem_of_cons; left).
    destruct (g k0) as [v|] eqn:E; simpl.
    + by rewrite lookup_insert_eq.
    + rewrite IH. by destruct (decide _).
  - assert (Hiff : k ∈ k0 :: keys ↔ k ∈ keys).
    { rewrite elem_of_cons. tauto. }
    destruct (g k0) as [v|]; simpl; rewrite ?lookup_insert_ne by done;
      rewrite IH; destruct (decide (k ∈ keys)), (decide (k ∈ k0 :: keys));
      tauto.
Qed.

(** X18. [Database.__get_cfg]: without a [username] in the production
    mapping it raises [KeyError]; otherwise the options handed to the pool
    are [user] with the value of [username] (and no [username]),
    [ssl_verify_cert] with [True], [password], [host], [port] and
    [database] as the mapping has them, and [ssl_ca], [ssl_cert] and
    [ssl_key] read from the keys [sslca], [sslcert] and [sslkey]; nothing
    else of the mapping is passed on. *)
Theorem X18_get_cfg {V : Type} (py_True : V) (production : gmap string V) :
  match production !! "username" with
  | None => get_cfg py_True production = Raise (KeyError "username")
  | Some u =>
      ∃ cfg, get_cfg py_True production = Return cfg
        ∧ ∀ k, cfg !! k =
               if decide (k = "user") then Some u
               else if decide (k = "ssl_verify_cert") then Some py_True
               else if decide (k ∈ ["password"; "host"; "port"; "database"])
               then production !! k
               else if decide (k = "ssl_ca") then production !! "sslca"
               else if decide (k = "ssl_cert") then production !! "sslcert"
               else if decide (k = "ssl_key") then production !! "sslkey"
               else None
  end.
Proof.
  unfold get_cfg. rewrite lookup_insert_ne by done.
  rewrite lookup_comprehension. rewrite decide_True by (by left).
  change (no_ "username") with "username".
  destruct (production !! "username") as [u|]; [|done].
  eexists. split; [done|]. intros k.
  destruct (decide (k = "user")) as [->|H1]; [by rewrite lookup_insert_eq|].
  rewrite lookup_insert_ne by done.
  destruct (decide (k = "username")) as [->|H2].
  { rewrite lookup_delete_eq. by repeat (rewrite decide_False; [|by vm_compute]). }
  rewrite lookup_delete_ne by done.
  destruct (decide (k = "ssl_verify_cert")) as [->|H3];
    [by rewrite lookup_insert_eq|].
  rewrite lookup_insert_ne by done. rewrite lookup_comprehension.
  destruct (decide (k ∈ ["password"; "host"; "port"; "database"]))
    as [Hin|Hni].
  { repeat (apply elem_of_cons in Hin as [->|Hin]); try reflexivity.
    by apply elem_of_nil in Hin. }
  destruct (decide (k = "ssl_ca")) as [->|H4]; [reflexivity|].
  destruct (decide (k = "ssl_cert")) as [->|H5]; [reflexivity|].
  destruct (decide (k = "ssl_key")) as [->|H6]; [reflexivity|].
  rewrite decide_False; [done|]. unfold cfg_keys. intros Hin.
  repeat (apply elem_of_cons in Hin as [->|Hin]); try done.
  - apply Hni. by left.
  - apply Hni. right. by left.
  - apply Hni. do 2 right. by left.
  - apply Hni. do 3 right. by left.
  - by apply elem_of_nil in Hin.
Qed.

Lemma get_conn_spec {C : Type} (pool : nat → option C) (fuel : nat) :
  ∀ (attempt : nat) (log : list pool_event),
  attempt ≤ 20 → 21 ≤ fuel + attempt →
  ∃ r n,
    get_conn fuel pool attempt log
    = Some (r, log ++ replicate (n - attempt) (Sleep 2))
    ∧ attempt ≤ n ≤ 20
    ∧ (∀ j, attempt ≤ j < n → pool j = None)
    ∧ match r with
      | Some c => pool n = Some c
      | None => n = 20 ∧ pool 20 = None
      end.
Proof.
  induction fuel as [|fuel IH]; intros attempt log Hle Hfuel; [lia|].
  cbn [get_conn]. destruct (pool attempt) as [c|] eqn:E.
  - exists (Some c), attempt. rewrite Nat.sub_diag, app_nil_r.
    repeat split; first [done | lia | intros; lia].
  - destruct (Nat.ltb_spec attempt 20) as [Hlt|Hge].
    + destruct (IH (S attempt) (log ++ [Sleep 2])) as (r & n & -> & Hn & Hnone & Hr);
        [lia..|].
      exists r, n. split; [|split; [lia|split; [|done]]].
      * rewrite <- app_assoc. do 3 f_equal.
        replace (n - attempt) with (S (n - S attempt)) by lia. done.
      * intros j Hj. destruct (decide (j = attempt)) as [->|?]; [done|].
        apply Hnone. lia.
    + assert (attempt = 20) as -> by lia.
      exists None, 20. rewrite Nat.sub_diag, app_nil_r.
      repeat split; first [done | lia | intros; lia].
Qed.

(** X19. [get_conn()] asks the pool at most 21 times and sleeps 0.2 s
    before every new attempt: it returns the connection of the first
    attempt [n <= 20] that the pool answers, after [n] sleeps; when the
    pool refuses the attempts 0 to 20 it raises the [PoolError] of the
    last one, after 20 sleeps.  The recursion never goes further. *)
Theorem X19_get_conn_retries {C : Type} (pool : nat → option C) :
  ∃ r n,
    get_conn 21 pool 0 [] = Some (r, replicate n (Sleep 2))
    ∧ n ≤ 20
    ∧ (∀ j, j < n → pool j = None)
    ∧ match r with
      | Some c => pool n = Some c
      | None => n = 20 ∧ pool 20 = None
      end.
Proof.
  destruct (get_conn_spec pool 21 0 []) as (r & n & E & Hn & Hnone & Hr);
    [lia..|].
  exists r, n. rewrite Nat.sub_0_r in E.
  split; [done|]. split; [lia|]. split; [|done].
  intros j Hj. apply Hnone. lia.
Qed.

(** ** Fetching the mergeability *)

(** X20. One pass of the loop of [fetch_mergeability]: it puts nothing on
    the queue, touches no pull or build row and no mergeable row of
    another PR, and changes no attribute of the entity but its
    mergeability.  When both requests find no PR, nothing happens at all.
    Otherwise the mergeability of the entity and its stored row become the
    answer of the platform (no row when the answer is [None]), and a
    comment is posted exactly when the PR was known to be mergeable and
    the platform now says it is not. *)
Theorem X20_fetch_mergeability_step (first second : option pull_answer)
    (c : option cause) (st : PullReqState) (w : World) :
  let r := fetch_mergeability_step first second c st w in
  mergeable_que r.2 = mergeable_que w
  ∧ tbl_pull (db r.2) = tbl_pull (db w)
  ∧ tbl_build_res (db r.2) = tbl_build_res (db w)
  ∧ (∀ k, k ≠ (repo_label st, num st) →
          tbl_mergeable (db r.2) !! k = tbl_mergeable (db w) !! k)
  ∧ r.1 = with_mergeable (mergeable r.1) st
  ∧ match first, second with
    | None, None => r = (st, w)
    | Some p, _ | None, Some p =>
        mergeable r.1 = pr_mergeable p
        ∧ tbl_mergeable (db r.2) !! (repo_label st, num st) = pr_mergeable p
        ∧ calls r.2
          = calls w ++
            match mergeable st, pr_mergeable p with
            | Some true, Some false =>
                [CreateComment (repo_label st) (num st)
                   (unmergeable_comment c)]
            | _, _ => []
            end
    end.
Proof.
  assert (Hst : st = with_mergeable (mergeable st) st) by by destruct st.
  unfold fetch_mergeability_step.
  destruct first as [[m]|], second as [[m2]|]; simpl;
    try (repeat split; done);
    destruct (mergeable st) as [[]|] eqn:Em;
    try destruct m as [[]|]; try destruct m2 as [[]|]; simpl;
    rewrite ?app_nil_r, ?lookup_insert_eq, ?lookup_delete_eq;
    repeat split; try done;
    try (intros k Hk; by rewrite ?lookup_insert_ne, ?lookup_delete_ne).
Qed.

Lemma append_cons (c : ascii) (p s : string) :
  String c p +:+ s = String c (p +:+ s).
Proof. reflexivity. Qed.

Lemma append_assoc_string (a b c : string) : (a +:+ b) +:+ c = a +:+ (b +:+ c).
Proof.
  induction a as [|x a IH]; [done|]. rewrite !append_cons. by rewrite IH.
Qed.

Lemma lowered_app (a b : string) : lowered (a +:+ b) = lowered a +:+ lowered b.
Proof.
  induction a as [|x a IH]; [done|]. rewrite append_cons. simpl.
  rewrite append_cons. by rewrite IH.
Qed.

Lemma lowered_app_inv (p1 p2 kw : string) :
  lowered kw = p1 +:+ p2 →
  ∃ k1 k2, kw = k1 +:+ k2 ∧ lowered k1 = p1 ∧ lowered k2 = p2.
Proof.
  revert kw. induction p1 as [|x p1 IH]; intros kw H.
  { by exists "", kw. }
  rewrite append_cons in H. destruct kw as [|c kw]; [done|].
  simpl in H. injection H as Hc H.
  destruct (IH kw H) as (k1 & k2 & -> & H1 & H2).
  exists (String c k1), k2. simpl. by rewrite Hc, H1.
Qed.

Lemma match_ci_Some (p : string) :
  ∀ s r, match_ci p s = Some r → ∃ kw, s = kw +:+ r ∧ lowered kw = p.
Proof.
  induction p as [|a p IH]; intros s r H.
  { exists "". simpl in H. by injection H as ->. }
  destruct s as [|b s]; [done|]. simpl in H.
  destruct (Ascii.eqb_spec a (lower b)) as [->|]; [|done].
  destruct (IH s r H) as (kw & -> & <-). by exists (String b kw).
Qed.

Lemma match_ci_app (kw r : string) : match_ci (lowered kw) (kw +:+ r) = Some r.
Proof.
  induction kw as [|c kw IH]; [done|]. rewrite append_cons. simpl.
  by rewrite Ascii.eqb_refl.
Qed.

Lemma lower_not_upper (c : ascii) (x : ascii) :
  lower c = x →
  ((65 <=? code x) && (code x <=? 122))%N = false → c = x.
Proof.
  intros <-. unfold lower.
  destruct ((65 <=? code c) && (code c <=? 90))%N eqn:E; [|done].
  unfold code in *. rewrite N_ascii_embedding by
    (apply andb_prop in E as [_ ?%N.leb_le]; lia).
  apply andb_prop in E as [?%N.leb_le ?%N.leb_le].
  intros [?%N.leb_gt|?%N.leb_gt]%andb_false_iff; lia.
Qed.

Lemma take_digits_split (s : string) :
  ∃ post, s = take_digits s +:+ post ∧ take_digits post = ""
          ∧ take_digits (take_digits s) = take_digits s.
Proof.
  induction s as [|c s (post & IH1 & IH2 & IH3)]; [by exists ""|].
  simpl. destruct (is_digit c) eqn:E.
  - exists post. rewrite append_cons. simpl. rewrite E.
    by rewrite <- IH1, IH3.
  - exists (String c s). simpl. by rewrite E.
Qed.

Lemma match_pull_num_Some (s d : string) :
  match_pull_num s = Some d →
  ∃ kw post,
    s = kw +:+ "#" +:+ d +:+ post
    ∧ (lowered kw = "merge of " ∨ lowered kw = "merge pull request ")
    ∧ d ≠ "" ∧ take_digits d = d ∧ take_digits post = "".
Proof.
  unfold match_pull_num. intros H.
  apply bind_Some in H as (s1 & E1 & H).
  apply bind_Some in H as (s2 & E2 & H).
  apply bind_Some in H as (s3 & E3 & H2).
  apply match_ci_Some in E1 as (k1 & -> & Hk1).
  assert (∃ k2, (lowered k2 = "of" ∨ lowered k2 = "pull request")
                ∧ s1 = k2 +:+ s2) as (k2 & Hk2 & ->).
  { destruct (match_ci "of" s1) as [s2'|] eqn:E2'.
    - injection E2 as ->.
      apply match_ci_Some in E2' as (k2 & -> & Hk2). exists k2. by split; [left|].
    - apply match_ci_Some in E2 as (k2 & -> & Hk2). exists k2.
      by split; [right|]. }
  apply match_ci_Some in E3 as (k3 & -> & Hk3).
  destruct k3 as [|a [|b [|? ?]]]; try done. simpl in Hk3.
  injection Hk3 as Ha Hb.
  apply lower_not_upper in Ha; [|done]. apply lower_not_upper in Hb; [|done].
  subst a b.
  destruct (take_digits_split s3) as (post & Hs3 & Hpost & Hd).
  destruct (take_digits s3) as [|c d'] eqn:Ed; [done|].
  injection H2 as <-.
  exists (k1 +:+ k2 +:+ " "), post. split; [|split; [|done]].
  - rewrite Hs3 at 1. rewrite !append_assoc_string. done.
  - rewrite !lowered_app, Hk1. destruct Hk2 as [-> | ->]; [by left | by right].
Qed.

Lemma match_pull_num_complete (kw : string) (c : ascii) (post : string) :
  lowered kw = "merge of " ∨ lowered kw = "merge pull request " →
  is_digit c = true →
  is_Some (match_pull_num (kw +:+ "#" +:+ String c post)).
Proof.
  intros Hkw Hc.
  assert (∃ k1 k2, kw = k1 +:+ k2 +:+ " " ∧ lowered k1 = "merge "
            ∧ (lowered k2 = "of" ∨ lowered k2 = "pull request"))
    as (k1 & k2 & -> & Hk1 & Hk2).
  { destruct Hkw as [H|H].
    - apply (lowered_app_inv "merge " "of ") in H as (k1 & k' & -> & H1 & H).
      apply (lowered_app_inv "of" " ") in H as (k2 & k3 & -> & H2 & H3).
      destruct k3 as [|a [|? ?]]; try done. injection H3 as Ha.
      apply lower_not_upper in Ha; [|done]. subst a.
      exists k1, k2. split; [done|]. split; [done|]. by left.
    - apply (lowered_app_inv "merge " "pull request ") in H
        as (k1 & k' & -> & H1 & H).
      apply (lowered_app_inv "pull request" " ") in H as (k2 & k3 & -> & H2 & H3).
      destruct k3 as [|a [|? ?]]; try done. injection H3 as Ha.
      apply lower_not_upper in Ha; [|done]. subst a.
      exists k1, k2. split; [done|]. split; [done|]. by right. }
  unfold match_pull_num. rewrite !append_assoc_string.
  rewrite <- Hk1, match_ci_app. cbn [mbind option_bind].
  assert (match match_ci "of" (k2 +:+ " " +:+ "#" +:+ String c post) with
          | Some r => Some r
          | None => match_ci "pull request" (k2 +:+ " " +:+ "#" +:+ String c post)
          end = Some (" " +:+ "#" +:+ String c post)) as ->.
  { destruct Hk2 as [H|H].
    - by rewrite <- H, match_ci_app.
    - assert (match_ci "of" (k2 +:+ " " +:+ "#" +:+ String c post) = None)
        as ->.
      { destruct k2 as [|a k2']; [done|]. simpl in H. injection H as Ha _.
        rewrite append_cons. cbn [match_ci]. by rewrite Ha. }
      by rewrite <- H, match_ci_app. }
  cbn [mbind option_bind]. simpl. rewrite Hc. by eexists.
Qed.

(** X21. The pattern [(?i)merge (?:of|pull request) #([0-9]+)] of
    [fetch_mergeability]: when the search in a title finds a number, the
    title has the words [merge of ] or [merge pull request ], in any case
    of letters, followed by [#] and that number, which is a nonempty run
    of digits taken to its end; when the search finds nothing, the title
    has nowhere these words followed by [#] and a digit. *)
Theorem X21_search_pull_num (title : string) :
  match search_pull_num title with
  | Some d =>
      ∃ pre kw post,
        title = pre +:+ kw +:+ "#" +:+ d +:+ post
        ∧ (lowered kw = "merge of " ∨ lowered kw = "merge pull request ")
        ∧ d ≠ "" ∧ take_digits d = d ∧ take_digits post = ""
  | None =>
      ∀ pre kw c post,
        title = pre +:+ kw +:+ "#" +:+ String c post →
        lowered kw = "merge of " ∨ lowered kw = "merge pull request " →
        is_digit c = false
  end.
Proof.
  induction title as [|a title IH].
  - simpl. intros pre kw c post H Hkw.
    destruct pre; [|done]. destruct kw; [|done]. by destruct Hkw.
  - cbn [search_pull_num].
    destruct (match_pull_num (String a title)) as [d|] eqn:E.
    + apply match_pull_num_Some in E as (kw & post & H & ?).
      by exists "", kw, post.
    + destruct (search_pull_num title) as [d|].
      * destruct IH as (pre & kw & post & -> & ?).
        by exists (String a pre), kw, post.
      * intros pre kw c post H Hkw.
        destruct pre as [|a' pre].
        -- destruct (is_digit c) eqn:Ec; [|done].
           destruct (match_pull_num_complete kw c post Hkw Ec) as [d Hd].
           change ("" +:+ kw +:+ "#" +:+ String c post)
             with (kw +:+ "#" +:+ String c post) in H.
           rewrite <- H in Hd. congruence.
        -- rewrite append_cons in H. injection H as -> H.
           by apply (IH pre kw c post).
Qed.

(** ** Rebuilding on the session CI *)

Lemma split_builders_spec (items : list (string * build_info)) :
  ∀ builders succ,
  split_builders items builders succ
  = if forallb (λ x : string * build_info, truthy (url x.2)) items
    then Some (builders ++ pending_builds items, succ ++ reusable_builds items)
    else None.
Proof.
  unfold pending_builds, reusable_builds.
  induction items as [|[b [r u]] items IH]; intros builders succ.
  { simpl. by rewrite !app_nil_r. }
  cbn [split_builders forallb List.filter snd fst url res].
  destruct (truthy u); [|done]. cbn [negb andb].
  destruct r as [[]|]; rewrite IH; destruct (forallb _ items); try done;
    cbn [bool_decide negb]; rewrite ?bool_decide_eq_true_2 by done;
    rewrite ?bool_decide_eq_false_2 by done; cbn [negb fmap list_fmap fst snd url];
    by rewrite <- ?app_assoc.
Qed.

Lemma filter_none {A} (f : A → bool) (l : list A) :
  (∀ x, x ∈ l → f x = false) → List.filter f l = [].
Proof.
  induction l as [|x l IH]; intros H; [done|]. simpl.
  rewrite (H x) by (by left). apply IH. intros y Hy. apply H. by right.
Qed.

(** X22. [start_rebuild] returns false and does nothing, no call, no
    statement, no change of the entity, when the repository has no session
    CI, when the PR has no build results, when a build has no url, when
    all the builds or none of them succeeded, and when the commit of the
    base branch is not a parent of the merge commit. *)
Theorem X22_start_rebuild_refuses (repo_cfgs : gmap string repo_cfg)
    (ra : RebuildAnswers) (repo : repo_cfg) (st : PullReqState) (w : World) :
  repo_cfgs !! repo_label st = Some repo →
  buildbot repo = None
  ∨ build_res st = ∅
  ∨ (∃ b info, build_res st !! b = Some info ∧ url info = "")
  ∨ (∀ b info, build_res st !! b = Some info → res info = Some true)
  ∨ (∀ b info, build_res st !! b = Some info → res info ≠ Some true)
  ∨ ra_base_sha ra ∉ ra_parent_shas ra →
  start_rebuild repo_cfgs ra st w = (Return false, st, w).
Proof.
  intros Hcfg Hcond. unfold start_rebuild, bind, get_state. rewrite Hcfg.
  destruct (buildbot repo) as [bb|] eqn:Ebb; [|done].
  destruct (bool_decide_reflect (build_res st = ∅)) as [|Hne]; [done|].
  rewrite split_builders_spec.
  destruct (forallb _ (map_to_list (build_res st))) eqn:Eurl; [|done].
  rewrite !app_nil_l.
  destruct (bool_decide_reflect (pending_builds (map_to_list (build_res st)) = []))
    as [|Hp]; [done|].
  destruct (bool_decide_reflect (reusable_builds (map_to_list (build_res st)) = []))
    as [|Hr]; [done|].
  cbn [orb].
  destruct (bool_decide_reflect (ra_base_sha ra ∈ ra_parent_shas ra))
    as [Hin|]; [|done].
  exfalso.
  destruct Hcond as [?|[?|[(b & info & Hb & Hu)|[Hall|[Hnone|?]]]]]; try done.
  - rewrite forallb_forall in Eurl.
    specialize (Eurl (b, info)). rewrite <- list_elem_of_In in Eurl.
    rewrite elem_of_map_to_list in Eurl. specialize (Eurl Hb). simpl in Eurl.
    by rewrite Hu in Eurl.
  - apply Hp. unfold pending_builds. rewrite filter_none; [done|].
    intros [b info] Hin'%elem_of_map_to_list. simpl.
    by rewrite (Hall b info Hin').
  - apply Hr. unfold reusable_builds. rewrite filter_none; [done|].
    intros [b info] Hin'%elem_of_map_to_list. simpl.
    apply bool_decide_eq_false_2. by apply (Hnone b info).
Qed.

Lemma X22_start_rebuild_refuses_witness :
  start_rebuild {["repo" := Sample.travis_repo]} SampleQueue.rebuild_answers
    SampleQueue.half_built Sample.world7
  = (Return false, SampleQueue.half_built, Sample.world7).
Proof.
  apply (X22_start_rebuild_refuses {["repo" := Sample.travis_repo]}
           SampleQueue.rebuild_answers Sample.travis_repo
           SampleQueue.half_built Sample.world7).
  - reflexivity.
  - left. reflexivity.
Defined.

Lemma pair_insert_Permutation x l : pair_insert x l ≡ₚ x :: l.
Proof.
  induction l as [|y l IH]; [done|]. simpl.
  destruct (pair_lt x y); [done|]. rewrite IH. apply Permutation_swap.
Qed.

Lemma pair_sort_Permutation l : pair_sort l ≡ₚ l.
Proof.
  unfold pair_sort.
  assert (H : ∀ acc, foldl (λ acc x, pair_insert x acc) acc l ≡ₚ l ++ acc).
  { induction l as [|x l IH]; intros acc; [done|]. simpl.
    rewrite IH, pair_insert_Permutation. by rewrite Permutation_middle. }
  by rewrite H, app_nil_r.
Qed.

Lemma elem_of_pending_builds (m : gmap string build_info) b u :
  (b, u) ∈ pending_builds (map_to_list m)
  ↔ ∃ info, m !! b = Some info ∧ res info ≠ Some true ∧ u = url info.
Proof.
  unfold pending_builds. rewrite list_elem_of_fmap. split.
  - intros ([b' info] & [= -> ->] & Hin). exists info.
    apply list_elem_of_In, filter_In in Hin as [Hin Hf].
    apply list_elem_of_In, elem_of_map_to_list in Hin. simpl in Hf.
    split; [done|]. split; [|done].
    by apply negb_true_iff, bool_decide_eq_false in Hf.
  - intros (info & Hb & Hr & ->). exists (b, info). split; [done|].
    apply list_elem_of_In, filter_In. split.
    + by apply list_elem_of_In, elem_of_map_to_list.
    + simpl. by apply negb_true_iff, bool_decide_eq_false.
Qed.

(** The requests of a round in which the CI accepts every one. *)
Lemma rebuild_loop_accepted (ra : RebuildAnswers)
    (builders : list (string * string)) (st : PullReqState) (w : World) :
  Forall (λ x, rebuild_error x.1 (ra_rebuild_text ra x.2) = "") builders →
  ∃ w', rebuild_loop ra builders st w = (Return true, st, w')
    ∧ db w' = db w ∧ sql_log w' = sql_log w
    ∧ mergeable_que w' = mergeable_que w
    ∧ buildbot_slots w' = buildbot_slots w
    ∧ calls w'
      = calls w ++ ((λ x, SessPost (x.2 +:+ "/rebuild")
                            [("useSourcestamp", "exact");
                             ("comments", "Initiated by Homu")]) <$> builders).
Proof.
  intros H. revert w. induction H as [|[b u] builders Herr _ IH]; intros w.
  { exists w. simpl. by rewrite app_nil_r. }
  cbn [rebuild_loop]. run_eff. simpl in Herr. rewrite Herr. cbn [truthy].
  destruct (IH (do_call (SessPost (u +:+ "/rebuild")
                  [("useSourcestamp", "exact");
                   ("comments", "Initiated by Homu")]) w))
    as (w' & -> & ? & ? & ? & ? & Hc).
  exists w'. repeat split; try done. rewrite Hc. simpl.
  by rewrite <- app_assoc.
Qed.

Lemma elem_of_reusable_builds (m : gmap string build_info) b u :
  (b, u) ∈ reusable_builds (map_to_list m)
  ↔ ∃ info, m !! b = Some info ∧ res info = Some true ∧ u = url info.
Proof.
  unfold reusable_builds. rewrite list_elem_of_fmap. split.
  - intros ([b' info] & [= -> ->] & Hin). exists info.
    apply list_elem_of_In, filter_In in Hin as [Hin Hf].
    apply list_elem_of_In, elem_of_map_to_list in Hin. simpl in Hf.
    split; [done|]. split; [|done]. by apply bool_decide_eq_true in Hf.
  - intros (info & Hb & Hr & ->). exists (b, info). split; [done|].
    apply list_elem_of_In, filter_In. split.
    + by apply list_elem_of_In, elem_of_map_to_list.
    + simpl. by apply bool_decide_eq_true.
Qed.

Lemma NoDup_filter_fst {A B} (f : A * B → bool) (l : list (A * B)) :
  NoDup l.*1 → NoDup (List.filter f l).*1.
Proof.
  induction l as [|x l IH]; [done|]. rewrite fmap_cons.
  intros [Hx Hl]%NoDup_cons. simpl. destruct (f x); [|by apply IH].
  rewrite fmap_cons. apply NoDup_cons. split; [|by apply IH].
  intros Hin. apply Hx. apply list_elem_of_fmap in Hin as (y & -> & Hy).
  apply list_elem_of_fmap. exists y. split; [done|].
  by apply list_elem_of_In, filter_In in Hy as [?%list_elem_of_In _].
Qed.

Lemma NoDup_pending_builds (m : gmap string build_info) :
  NoDup (pair_sort (pending_builds (map_to_list m))).*1.
Proof.
  rewrite pair_sort_Permutation. unfold pending_builds.
  rewrite <- list_fmap_compose.
  apply (NoDup_filter_fst _ (map_to_list m)), NoDup_fst_map_to_list.
Qed.

Lemma NoDup_reusable_builds (m : gmap string build_info) :
  NoDup (pair_sort (reusable_builds (map_to_list m))).*1.
Proof.
  rewrite pair_sort_Permutation. unfold reusable_builds.
  rewrite <- list_fmap_compose.
  apply (NoDup_filter_fst _ (map_to_list m)), NoDup_fst_map_to_list.
Qed.

(** X23. With a session CI, a url for every build, a build that succeeded
    and one that did not, the base commit among the parents of the merge
    commit, and the CI answering every rebuild request with a text that
    names the builder: [start_rebuild] returns true and the PR is pending;
    nothing else of the entity changes, build results and merge commit
    stay.  The calls are the tag [homu-tmp] forced onto the merge commit,
    the login, one rebuild request for each build that did not succeed and
    for no other, the logout, the pending status check and the [:zap:]
    comment, which lists the builds that succeeded and the builds that run
    again as links.  No build row and no mergeable row changes, and the
    slot is not taken. *)
Theorem X23_start_rebuild_runs (repo_cfgs : gmap string repo_cfg)
    (ra : RebuildAnswers) (repo : repo_cfg) (bb : buildbot_cfg)
    (st : PullReqState) (w : World) :
  repo_cfgs !! repo_label st = Some repo →
  buildbot repo = Some bb →
  (∀ b info, build_res st !! b = Some info → url info ≠ "") →
  (∃ b info, build_res st !! b = Some info ∧ res info = Some true) →
  (∃ b info, build_res st !! b = Some info ∧ res info ≠ Some true) →
  ra_base_sha ra ∈ ra_parent_shas ra →
  (∀ b info, build_res st !! b = Some info → res info ≠ Some true →
     rebuild_error b (ra_rebuild_text ra (url info)) = "") →
  ∃ w' builders succ_builders,
    start_rebuild repo_cfgs ra st w = (Return true, with_status "pending" st, w')
    ∧ (∀ b u, (b, u) ∈ builders
         ↔ ∃ info, build_res st !! b = Some info ∧ res info ≠ Some true
                   ∧ u = url info)
    ∧ (∀ b u, (b, u) ∈ succ_builders
         ↔ ∃ info, build_res st !! b = Some info ∧ res info = Some true
                   ∧ u = url info)
    ∧ NoDup builders.*1 ∧ NoDup succ_builders.*1
    ∧ calls w'
      = calls w
        ++ [SetRef (repo_label st) "tags/homu-tmp" (merge_sha st) true;
            SessPost (bb_url bb +:+ "/login")
              [("username", bb_username bb); ("passwd", bb_password bb)]]
        ++ ((λ x, SessPost (x.2 +:+ "/rebuild")
                    [("useSourcestamp", "exact");
                     ("comments", "Initiated by Homu")]) <$> builders)
        ++ [SessGet (bb_url bb +:+ "/logout");
            CreateStatus (repo_label st) (head_sha st) "pending" ""
              "Previous build results are reusable. Rebuilding..." "homu";
            CreateComment (repo_label st) (num st)
              (":zap: Previous build results for "
                 +:+ String.concat ", "
                       ((λ x : string * string,
                           "[" +:+ x.1 +:+ "](" +:+ x.2 +:+ ")")
                        <$> succ_builders)
                 +:+ " are reusable. Rebuilding only "
                 +:+ String.concat ", "
                       ((λ x : string * string,
                           "[" +:+ x.1 +:+ "](" +:+ x.2 +:+ ")")
                        <$> builders)
                 +:+ "...")]
    ∧ tbl_build_res (db w') = tbl_build_res (db w)
    ∧ tbl_mergeable (db w') = tbl_mergeable (db w)
    ∧ buildbot_slots w' = buildbot_slots w.
Proof.
  intros Hcfg Hbb Hurl (bs & is_ & Hbs & Hs) (bp & ip & Hbp & Hp) Hin Herr.
  unfold start_rebuild, bind at 1, get_state. rewrite Hcfg, Hbb.
  rewrite bool_decide_eq_false_2 by (intros E; by rewrite E in Hbs).
  rewrite split_builders_spec.
  assert (forallb (λ x : string * build_info, truthy (url x.2))
            (map_to_list (build_res st)) = true) as ->.
  { apply forallb_forall. intros [b info] Hi%list_elem_of_In%elem_of_map_to_list.
    simpl. specialize (Hurl b info Hi). by destruct (url info). }
  rewrite !app_nil_l.
  set (pend := pending_builds (map_to_list (build_res st))).
  set (reus := reusable_builds (map_to_list (build_res st))).
  assert (Hpend : (bp, url ip) ∈ pend).
  { apply elem_of_pending_builds. by exists ip. }
  assert (Hreus : (bs, url is_) ∈ reus).
  { unfold reus, reusable_builds. apply list_elem_of_fmap. exists (bs, is_).
    split; [done|]. apply list_elem_of_In, filter_In. split.
    - by apply list_elem_of_In, elem_of_map_to_list.
    - simpl. by apply bool_decide_eq_true_2. }
  rewrite (bool_decide_eq_false_2 (pend = []))
    by (intros E; rewrite E in Hpend; by apply elem_of_nil in Hpend).
  rewrite (bool_decide_eq_false_2 (reus = []))
    by (intros E; rewrite E in Hreus; by apply elem_of_nil in Hreus).
  rewrite (bool_decide_eq_true_2 _ Hin). cbn [orb negb].
  assert (Hall : Forall (λ x, rebuild_error x.1 (ra_rebuild_text ra x.2) = "")
                   (pair_sort pend)).
  { apply Forall_forall. intros [b u] Hb.
    rewrite pair_sort_Permutation in Hb.
    apply elem_of_pending_builds in Hb as (info & Hb & Hr & ->).
    by apply (Herr b info). }
  unfold bind, github_set_ref, effect.
  match goal with |- context [rebuild_loop ra (pair_sort pend) st ?w0] =>
    destruct (rebuild_loop_accepted ra (pair_sort pend) st w0 Hall)
      as (w1 & -> & Hdb & Hlog & Hque & Hslot & Hcalls) end.
  cbn [negb]. run_eff. unfold set_status.
  assert (Hperm : ∀ b u, (b, u) ∈ pair_sort pend
            ↔ ∃ info, build_res st !! b = Some info ∧ res info ≠ Some true
                      ∧ u = url info).
  { intros b u. rewrite pair_sort_Permutation. apply elem_of_pending_builds. }
  assert (Hperm' : ∀ b u, (b, u) ∈ pair_sort reus
            ↔ ∃ info, build_res st !! b = Some info ∧ res info = Some true
                      ∧ u = url info).
  { intros b u. rewrite pair_sort_Permutation. apply elem_of_reusable_builds. }
  pose proof (NoDup_pending_builds (build_res st)) as Hnd.
  pose proof (NoDup_reusable_builds (build_res st)) as Hnd'.
  simpl. destruct (try_ st) eqn:Et; simpl;
    (eexists _, (pair_sort pend), (pair_sort reus); split; [reflexivity|];
     split; [exact Hperm|]; split; [exact Hperm'|];
     split; [exact Hnd|]; split; [exact Hnd'|]; simpl;
     rewrite Hcalls, Hdb, Hslot; simpl; rewrite <- ?app_assoc; done).
Qed.

Lemma X23_start_rebuild_runs_witness :
  ∃ w', start_rebuild {["repo" := Sample.buildbot_repo]}
          SampleQueue.rebuild_answers SampleQueue.half_built Sample.world7
        = (Return true, with_status "pending" SampleQueue.half_built, w').
Proof.
  destruct (X23_start_rebuild_runs {["repo" := Sample.buildbot_repo]}
              SampleQueue.rebuild_answers Sample.buildbot_repo
              {| bb_url := "http://ci"; bb_username := "u";
                 bb_password := "p"; bb_builders := ["linux"; "mac"];
                 bb_try_builders := Some ["linux"] |}
              SampleQueue.half_built Sample.world7)
    as (w' & builders & succ_builders & E & _).
  - reflexivity.
  - reflexivity.
  - intros b info H.
    change (build_res SampleQueue.half_built) with SampleQueue.results in H.
    unfold SampleQueue.results in H.
    apply lookup_insert_Some in H as [[_ <-]|[_ H]]; [done|].
    apply lookup_insert_Some in H as [[_ <-]|[_ H]]; [done|].
    by rewrite lookup_empty in H.
  - exists "linux", (BuildInfo (Some true) "http://ci/builders/linux/builds/1").
    split; reflexivity.
  - exists "mac", (BuildInfo (Some false) "http://ci/builders/mac/builds/1").
    split; [reflexivity | discriminate].
  - left.
  - intros b info H Hres.
    change (build_res SampleQueue.half_built) with SampleQueue.results in H.
    unfold SampleQueue.results in H.
    apply lookup_insert_Some in H as [[_ <-]|[_ H]]; [done|].
    apply lookup_insert_Some in H as [[<- <-]|[_ H]]; [reflexivity|].
    by rewrite lookup_empty in H.
  - by exists w'.
Defined.

(** ** The queue *)

Lemma pendings_app l1 l2 : pendings (l1 ++ l2) = pendings l1 + pendings l2.
Proof. unfold pendings. by rewrite List.filter_app, length_app. Qed.

Lemma for_each_create_status_log sha state target description
    (ctx : string → string) (builders : list string) st w :
  ∃ w', for_each (λ b, github_create_status sha state target description (ctx b))
          builders st w = (Return tt, st, w')
        ∧ sql_log w' = sql_log w.
Proof.
  revert w. induction builders as [|b l IH]; intros w; simpl.
  - by exists w.
  - destruct (IH (do_call (CreateStatus (repo_label st) sha state target
                             description (ctx b)) w)) as (w' & E & Hl).
    exists w'. run_eff. unfold github_create_status, effect in E.
    by rewrite E.
Qed.

Ltac no_log :=
  exists []; rewrite app_nil_r; split; [done|]; split; [cbv; lia | done].

Lemma start_build_pendings repo_cfgs pf st w :
  logs (start_build repo_cfgs pf st w) w
    (λ o l, pendings l ≤ 1 ∧ (o ≠ Return true → pendings l = 0)).
Proof.
  unfold logs, start_build. run_eff.
  destruct (truthy (buildbot_slots w)).
  { no_log. }
  destruct (String.eqb (head_sha st) (pf_pull_head_sha pf)); simpl;
    [|no_log].
  destruct (repo_cfgs !! repo_label st) as [repo|];
    [|no_log].
  destruct (choose_branch_builders repo st) as [[branch_ builders]|e];
    [|no_log].
  unfold create_merge. run_eff. destruct (pf_merge pf) as [c| |code]; simpl.
  - destruct (bool_decide (is_Some (buildbot repo))),
             (bool_decide (is_Some (testrunners repo))), (try_ st) eqn:Ht;
      unfold set_status; simpl; rewrite ?Ht; simpl;
      try match goal with
          | |- context [for_each ?f ?l ?s ?w0] =>
              destruct (for_each_create_status_log (head_sha st) "pending" ""
                          ((if try_ st then "Trying" else "Testing")
                             +:+ " commit " +:+ slice_to 7 (head_sha st)
                             +:+ " with merge " +:+ slice_to 7 c +:+ "...")
                          (λ b, "merge-test/" +:+ b) l s w0)
                as (w' & E & Hl);
              rewrite Ht in E; cbv [github_create_status effect] in E;
              rewrite E; simpl; simpl in Hl; rewrite Hl
          end;
      rewrite <- ?app_assoc; eexists; (split; [reflexivity|]);
      (split; [vm_compute; lia | done]).
  - no_log.
  - destruct (code =? 409)%Z; simpl.
    + unfold set_status. simpl. destruct (try_ st); simpl;
        rewrite <- ?app_assoc; eexists; (split; [reflexivity|]);
        (split; [vm_compute; lia | done]).
    + no_log.
Qed.

Lemma rebuild_loop_log ra builders st w :
  sql_log (rebuild_loop ra builders st w).2 = sql_log w
  ∧ (rebuild_loop ra builders st w).1.2 = st
  ∧ ∃ ok, (rebuild_loop ra builders st w).1.1 = Return ok.
Proof.
  revert w. induction builders as [|[b u] builders IH]; intros w.
  { simpl. split; [done|]. split; [done|]. by eexists. }
  cbn [rebuild_loop]. run_eff.
  destruct (truthy (rebuild_error b (ra_rebuild_text ra u))).
  - simpl. split; [done|]. split; [done|]. by eexists.
  - destruct (IH (do_call (SessPost (u +:+ "/rebuild")
                    [("useSourcestamp", "exact");
                     ("comments", "Initiated by Homu")]) w)) as (-> & ? & ?).
    done.
Qed.

Lemma start_rebuild_pendings repo_cfgs ra st w :
  logs (start_rebuild repo_cfgs ra st w) w
    (λ o l, pendings l ≤ 1 ∧ (o ≠ Return true → pendings l = 0)).
Proof.
  unfold logs.
  destruct (start_rebuild repo_cfgs ra st w) as [[o st'] w'] eqn:E.
  cbn [fst snd].
  unfold start_rebuild, bind at 1, get_state in E.
  destruct (repo_cfgs !! repo_label st) as [repo|];
    [|injection E as <- <- <-; no_log].
  destruct (buildbot repo) as [bb|]; [|injection E as <- <- <-; no_log].
  destruct (bool_decide (build_res st = ∅)); [injection E as <- <- <-; no_log|].
  destruct (split_builders _ [] []) as [[builders succ]|];
    [|injection E as <- <- <-; no_log].
  destruct (bool_decide (builders = []) || bool_decide (succ = []));
    [injection E as <- <- <-; no_log|].
  destruct (negb (bool_decide (ra_base_sha ra ∈ ra_parent_shas ra)));
    [injection E as <- <- <-; no_log|].
  unfold bind, github_set_ref, effect in E.
  match type of E with context [rebuild_loop ra ?bs st ?w0] =>
    destruct (rebuild_loop_log ra bs st w0) as (Hl & Hst & ok & Ho);
    destruct (rebuild_loop ra bs st w0) as [[o1 st1] w1] end.
  simpl in Hl, Hst, Ho. subst o1 st1. destruct ok; cbn [negb] in E.
  - revert E. run_eff. unfold set_status. simpl. destruct (try_ st); simpl;
      intros [= <- <- <-]; simpl; rewrite Hl, <- ?app_assoc; eexists;
      (split; [reflexivity|]); (split; [vm_compute; lia | done]).
  - revert E. run_eff. intros [= <- <- <-]. simpl. rewrite Hl. no_log.
Qed.

Lemma start_build_or_rebuild_pendings repo_cfgs ra pf st w :
  logs (start_build_or_rebuild repo_cfgs ra pf st w) w
    (λ o l, pendings l ≤ 1 ∧ (o ≠ Return true → pendings l = 0)).
Proof.
  unfold start_build_or_rebuild, bind.
  destruct (start_rebuild_pendings repo_cfgs ra st w) as (l1 & Hl1 & H1 & H1').
  destruct (start_rebuild repo_cfgs ra st w) as [[[[]|e] st1] w1];
    simpl in Hl1, H1, H1'.
  - exists l1. by run_eff.
  - destruct (start_build_pendings repo_cfgs pf st1 w1)
      as (l2 & Hl2 & H2 & H2').
    exists (l1 ++ l2). rewrite Hl2, Hl1, <- app_assoc. split; [done|].
    rewrite pendings_app, H1' by done. split; [lia|]. intros Ho.
    by rewrite H2'.
  - exists l1. simpl. split; [done|]. split; [done|]. intros _. by apply H1'.
Qed.

Lemma started_Leave (b : bool) : started b = Leave ↔ b = true.
Proof. by destruct b. Qed.

Lemma bind_started (m : Eff bool) st w :
  logs (m st w) w (λ o l, pendings l ≤ 1 ∧ (o ≠ Return true → pendings l = 0)) →
  logs (bind m (λ b, ret (started b)) st w) w
    (λ o l, pendings l ≤ 1 ∧ (o ≠ Return Leave → pendings l = 0)).
Proof.
  intros (l & Hl & H1 & H2). exists l. unfold bind, ret.
  destruct (m st w) as [[[[]|e] st1] w1]; simpl in *;
    (split; [done|]); (split; [done|]); try done.
  all: intros _; by apply H2.
Qed.

Lemma first_visit_pendings repo_cfgs an st w :
  logs (first_visit repo_cfgs an st w) w
    (λ o l, pendings l ≤ 1 ∧ (o ≠ Return Leave → pendings l = 0)).
Proof.
  unfold first_visit, bind at 1, get_state.
  destruct (String.eqb (status st) "pending" && negb (try_ st)); [no_log|].
  destruct (String.eqb (status st) "" && truthy (approved_by st)).
  { apply bind_started, start_build_or_rebuild_pendings. }
  destruct (String.eqb (status st) "success" && try_ st
            && truthy (approved_by st)); [|no_log].
  unfold bind at 1 2, assign, effect.
  destruct (bind_started (start_build repo_cfgs (an_build an))
              (with_try_ false st) (save (with_try_ false st) w)
              (start_build_pendings _ _ _ _)) as (l & Hl & H1 & H2).
  exists (ReplacePull (repo_label st) (num st) (row_of (with_try_ false st))
          :: l).
  rewrite Hl. simpl. rewrite <- app_assoc. split; [done|].
  change (pendings (?q :: l)) with (pendings ([q] ++ l)).
  rewrite pendings_app. split; [exact H1|]. intros Ho. by rewrite H2.
Qed.

Lemma second_visit_pendings repo_cfgs an st w :
  logs (second_visit repo_cfgs an st w) w
    (λ o l, pendings l ≤ 1 ∧ (o ≠ Return Leave → pendings l = 0)).
Proof.
  unfold second_visit, bind at 1, get_state.
  destruct (String.eqb (status st) "" && try_ st); [|no_log].
  apply bind_started, start_build_pendings.
Qed.

Lemma visit_all_pendings (visit : Z → Eff verdict) :
  (∀ k st w, logs (visit k st w) w
     (λ o l, pendings l ≤ 1 ∧ (o ≠ Return Leave → pendings l = 0))) →
  ∀ l w, ∃ q, sql_log (visit_all visit l w).2 = sql_log w ++ q
    ∧ pendings q ≤ 1
    ∧ ((visit_all visit l w).1.1 ≠ Return true → pendings q = 0).
Proof.
  intros Hv l. induction l as [|[k st] l IH]; intros w.
  { exists []. simpl. rewrite app_nil_r. split; [done|]. split; [cbv; lia|done]. }
  cbn [visit_all]. destruct (Hv k st w) as (q1 & Hq1 & H1 & H1').
  destruct (visit k st w) as [[[[]|e] st1] w1]; simpl in Hq1, H1, H1';
    try (exists q1; simpl; split; [done|]; split; [done|]; intros _;
         by apply H1').
  - destruct (IH w1) as (q2 & Hq2 & H2 & H2').
    destruct (visit_all visit l w1) as [[o l2] w2]. simpl in *.
    exists (q1 ++ q2). rewrite Hq2, Hq1, <- app_assoc. split; [done|].
    rewrite pendings_app, H1' by done. split; [lia|]. intros Ho.
    by rewrite H2'.
  - exists q1. simpl. by split.
Qed.

Lemma pendings_none q :
  pendings q = 0 →
  ∀ i label n, q !! i ≠ Some (UpdatePullStatus "pending" label n).
Proof.
  induction q as [|x q IH]; intros H i label n; [done|].
  change (pendings (x :: q)) with (pendings ([x] ++ q)) in H.
  rewrite pendings_app in H.
  destruct i as [|i]; simpl.
  - intros [= ->]. simpl in H. discriminate H.
  - apply IH. lia.
Qed.

Lemma pendings_one q :
  pendings q ≤ 1 →
  ∀ i j l1 n1 l2 n2,
    q !! i = Some (UpdatePullStatus "pending" l1 n1) →
    q !! j = Some (UpdatePullStatus "pending" l2 n2) →
    i = j.
Proof.
  induction q as [|x q IH]; intros H i j l1 n1 l2 n2 Hi Hj; [done|].
  change (pendings (x :: q)) with (pendings ([x] ++ q)) in H.
  rewrite pendings_app in H.
  destruct i as [|i], j as [|j]; simpl in Hi, Hj; [done| | |].
  - injection Hi as ->. simpl in H.
    by destruct (pendings_none q ltac:(lia) j l2 n2).
  - injection Hj as ->. simpl in H.
    by destruct (pendings_none q ltac:(lia) i l1 n1).
  - f_equal. apply (IH ltac:(lia) i j l1 n1 l2 n2 Hi Hj).
Qed.

(** X25. One run of [process_queue] makes at most one PR pending, over
    all the repositories and both loops, whatever the platform and the CI
    answer, and also when the run ends in an exception: the statements it
    sends hold at most one update of a status to [pending]. *)
Theorem X25_process_queue_one_start (repo_cfgs : gmap string repo_cfg)
    (an : string → Z → bool → Answers) (repos : list string)
    (states : States) (w : World) :
  ∃ q, sql_log (process_queue repo_cfgs an repos states w).2 = sql_log w ++ q
       ∧ ∀ i j l1 n1 l2 n2,
           q !! i = Some (UpdatePullStatus "pending" l1 n1) →
           q !! j = Some (UpdatePullStatus "pending" l2 n2) →
           i = j.
Proof.
  assert (∃ q, sql_log (process_queue repo_cfgs an repos states w).2
               = sql_log w ++ q ∧ pendings q ≤ 1) as (q & Hq & Hp).
  2: { exists q. split; [done|]. by apply pendings_one. }
  revert states w. induction repos as [|label repos IH]; intros states w.
  { exists []. simpl. rewrite app_nil_r. split; [done|]. cbv; lia. }
  cbn [process_queue].
  destruct (states !! label) as [m|];
    [|exists []; simpl; rewrite app_nil_r; split; [done|]; cbv; lia].
  set (l0 := sorted_items (map_to_list m)).
  destruct (visit_all_pendings
              (λ k, first_visit repo_cfgs (an label k true))
              (λ k, first_visit_pendings repo_cfgs (an label k true)) l0 w)
    as (q1 & Hq1 & H1 & H1').
  destruct (visit_all _ l0 w) as [[o1 l1] w1]. simpl in Hq1, H1, H1'.
  destruct o1 as [[]|e]; try (by exists q1).
  destruct (visit_all_pendings
              (λ k, second_visit repo_cfgs (an label k false))
              (λ k, second_visit_pendings repo_cfgs (an label k false)) l1 w1)
    as (q2 & Hq2 & H2 & H2').
  destruct (visit_all _ l1 w1) as [[o2 l2] w2]. simpl in Hq2, H2, H2'.
  assert (Hq : sql_log w2 = sql_log w ++ (q1 ++ q2))
    by by rewrite Hq2, Hq1, <- app_assoc.
  assert (Hp : pendings (q1 ++ q2) = pendings q2)
    by by rewrite pendings_app, H1'.
  destruct o2 as [[]|e]; try (exists (q1 ++ q2); simpl; split; [done|]; lia).
  destruct (IH (<[label := list_to_map l2]> states) w2) as (q3 & Hq3 & H3).
  exists (q1 ++ q2 ++ q3). rewrite Hq3, Hq, <- !app_assoc. split; [done|].
  rewrite !pendings_app, H1', H2' by done. lia.
Qed.

Lemma item_insert_Permutation x l : item_insert x l ≡ₚ x :: l.
Proof.
  induction l as [|y l IH]; [done|]. simpl.
  destruct (lt x.2 y.2); [done|]. rewrite IH. apply Permutation_swap.
Qed.

Lemma sorted_items_Permutation l : sorted_items l ≡ₚ l.
Proof.
  unfold sorted_items.
  assert (H : ∀ acc, foldl (λ acc x, item_insert x acc) acc l ≡ₚ l ++ acc).
  { induction l as [|x l IH]; intros acc; [done|]. simpl.
    rewrite IH, item_insert_Permutation. by rewrite Permutation_middle. }
  by rewrite H, app_nil_r.
Qed.

(** The queue of a repository holds the entities of the repository. *)
Lemma sorted_items_to_map (m : gmap Z PullReqState) :
  list_to_map (sorted_items (map_to_list m)) = m.
Proof.
  rewrite <- (list_to_map_to_list m) at 2.
  apply list_to_map_proper; [|apply sorted_items_Permutation].
  rewrite sorted_items_Permutation. apply NoDup_fst_map_to_list.
Qed.

Lemma first_visit_idle repo_cfgs an st w :
  idle st →
  ∃ v, first_visit repo_cfgs an st w = (Return v, st, w) ∧ v ≠ Leave.
Proof.
  intros [H1 H2]. unfold first_visit, bind at 1, get_state.
  destruct (String.eqb (status st) "pending" && negb (try_ st));
    [by exists Break|].
  destruct (String.eqb_spec (status st) "") as [E|_].
  { destruct (H1 E) as [-> ->]. rewrite E. simpl. by exists Next. }
  cbn [andb].
  destruct (String.eqb_spec (status st) "success") as [E|_];
    [|by exists Next].
  destruct (H2 E) as [-> | ->]; [by exists Next|].
  rewrite andb_false_r. by exists Next.
Qed.

Lemma second_visit_idle repo_cfgs an st w :
  idle st → second_visit repo_cfgs an st w = (Return Next, st, w).
Proof.
  intros [H1 _]. unfold second_visit, bind at 1, get_state.
  destruct (String.eqb_spec (status st) "") as [E|_]; [|done].
  by destruct (H1 E) as [_ ->].
Qed.

Lemma visit_all_idle (visit : Z → Eff verdict) (l : list (Z * PullReqState)) w :
  Forall (λ x, ∃ v, visit x.1 x.2 w = (Return v, x.2, w) ∧ v ≠ Leave) l →
  visit_all visit l w = (Return false, l, w).
Proof.
  induction 1 as [|[k st] l (v & E & Hv) _ IH]; [done|].
  cbn [visit_all]. simpl in E. rewrite E.
  destruct v; [|done..]. by rewrite IH.
Qed.

Lemma states_insert_id (states : States) label m :
  states !! label = Some m → <[label := m]> states = states.
Proof. unfold States in *. apply insert_id. Qed.

(** X24. A queue in which no PR waits: when every repository is known and
    every PR is idle, none with an empty status that is approved or a try,
    none with a successful try that is approved, [process_queue] returns
    and changes neither the entities nor the world, whatever the platform
    would answer. *)
Theorem X24_process_queue_idle (repo_cfgs : gmap string repo_cfg)
    (an : string → Z → bool → Answers) (repos : list string)
    (states : States) (w : World) :
  (∀ label, label ∈ repos → is_Some (states !! label)) →
  (∀ label k st, label ∈ repos → lookup_state label k states = Some st →
     (status st = "" → approved_by st = "" ∧ try_ st = false)
     ∧ (status st = "success" → try_ st = false ∨ approved_by st = "")) →
  process_queue repo_cfgs an repos states w = (Return tt, states, w).
Proof.
  induction repos as [|label repos IH]; intros Hrepos Hidle; [done|].
  cbn [process_queue].
  destruct (Hrepos label) as [m Hm]; [by left|]. rewrite Hm.
  assert (Hall : Forall (λ x : Z * PullReqState, idle x.2)
                   (sorted_items (map_to_list m))).
  { apply Forall_forall. intros [k st] Hin.
    rewrite sorted_items_Permutation in Hin.
    apply elem_of_map_to_list in Hin. apply (Hidle label k); [by left|].
    unfold lookup_state. by rewrite Hm. }
  rewrite (visit_all_idle (λ k, first_visit repo_cfgs (an label k true))).
  2: { eapply Forall_impl; [exact Hall|]. intros [k st] Hi.
       by apply first_visit_idle. }
  rewrite (visit_all_idle (λ k, second_visit repo_cfgs (an label k false))).
  2: { eapply Forall_impl; [exact Hall|]. intros [k st] Hi.
       exists Next. split; [|done]. by apply second_visit_idle. }
  rewrite sorted_items_to_map, states_insert_id by done.
  apply IH.
  - intros l' Hl'. apply Hrepos. by right.
  - intros l' k st Hl'. apply Hidle. by right.
Qed.

Lemma X24_process_queue_idle_witness :
  process_queue {["repo" := Sample.travis_repo]}
    (λ _ _ _, SampleQueue.answers) ["repo"]
    {["repo" := {[7%Z := Sample.pr7]}]} Sample.world7
  = (Return tt, {["repo" := {[7%Z := Sample.pr7]}]}, Sample.world7).
Proof.
  apply (X24_process_queue_idle {["repo" := Sample.travis_repo]}
           (λ _ _ _, SampleQueue.answers) ["repo"]
           {["repo" := {[7%Z := Sample.pr7]}]} Sample.world7).
  - intros label ->%list_elem_of_singleton. by eexists.
  - intros label k st ->%list_elem_of_singleton H.
    unfold lookup_state, States in H. rewrite lookup_singleton_eq in H.
    simpl in H.
    apply lookup_singleton_Some in H as [_ <-]. by split.
Defined.

(** The queue is in ascending order: no entity is smaller than one before
    it. *)
Lemma item_insert_sorted x l :
  StronglySorted (λ a b : Z * PullReqState, lt b.2 a.2 = false) l →
  StronglySorted (λ a b : Z * PullReqState, lt b.2 a.2 = false)
    (item_insert x l).
Proof.
  induction 1 as [|y l Hs IH Hy]; simpl.
  { repeat constructor. }
  destruct (lt x.2 y.2) eqn:E.
  - constructor; [by constructor|]. constructor.
    + unfold lt in *. destruct (list_lt (sort_key y.2) (sort_key x.2)) eqn:E';
        [|done].
      pose proof (list_lt_trans _ _ _ E E') as Hc.
      by rewrite list_lt_irrefl in Hc.
    + eapply Forall_impl; [exact Hy|]. intros z Hz. simpl in Hz.
      unfold lt in *. destruct (list_lt (sort_key z.2) (sort_key x.2)) eqn:E';
        [|done].
      pose proof (list_lt_trans _ _ _ E' E) as Hc. congruence.
  - constructor; [done|].
    rewrite item_insert_Permutation. by constructor.
Qed.

Lemma sorted_items_sorted l :
  StronglySorted (λ a b : Z * PullReqState, lt b.2 a.2 = false)
    (sorted_items l).
Proof.
  unfold sorted_items.
  assert (H : ∀ acc,
    StronglySorted (λ a b : Z * PullReqState, lt b.2 a.2 = false) acc →
    StronglySorted (λ a b : Z * PullReqState, lt b.2 a.2 = false)
      (foldl (λ acc x, item_insert x acc) acc l)).
  { induction l as [|x l IH]; intros acc Hacc; [done|]. simpl.
    by apply IH, item_insert_sorted. }
  apply H. constructor.
Qed.

(** A pending PR that is not a try sorts before every PR that waits with
    an approval. *)
Lemma pending_before_approved (p s : PullReqState) :
  status p = "pending" → status s = "" → truthy (approved_by s) = true →
  lt p s = true.
Proof.
  intros Hp Hs Ha. unfold lt, sort_key, get_status. rewrite Hp, Hs, Ha.
  simpl. by destruct (is_False (mergeable s)).
Qed.

Lemma visit_all_blocked repo_cfgs (an : Z → Answers)
    (l : list (Z * PullReqState)) (w : World) :
  StronglySorted (λ a b : Z * PullReqState, lt b.2 a.2 = false) l →
  (∃ x, x ∈ l ∧ status x.2 = "pending" ∧ try_ x.2 = false) →
  Forall (λ x : Z * PullReqState,
            ¬ (status x.2 = "success" ∧ try_ x.2 = true
               ∧ approved_by x.2 ≠ "")) l →
  visit_all (λ k, first_visit repo_cfgs (an k)) l w = (Return false, l, w).
Proof.
  induction 1 as [|[k st] l Hs IH Hk]; intros (p & Hin & Hp & Ht) Hall.
  { by apply elem_of_nil in Hin. }
  apply Forall_cons in Hall as [Hst Hall]. simpl in Hst.
  cbn [visit_all]. unfold first_visit at 1, bind at 1, get_state.
  destruct (String.eqb_spec (status st) "pending") as [E|Hnp].
  - destruct (try_ st) eqn:Et; cbn [negb andb]; [|done].
    assert (p ∈ l) as Hin'.
    { apply elem_of_cons in Hin as [->|?]; [|done]. simpl in Ht. congruence. }
    rewrite E. simpl. rewrite IH; [done| |done]. by exists p.
  - cbn [andb].
    assert (p ∈ l) as Hin'.
    { apply elem_of_cons in Hin as [->|?]; [|done]. done. }
    assert (Hidle : String.eqb (status st) "" && truthy (approved_by st)
                    = false).
    { apply not_true_is_false. intros [Hs'%String.eqb_eq Ha]%andb_prop.
      rewrite Forall_forall in Hk. specialize (Hk p Hin'). simpl in Hk.
      by rewrite (pending_before_approved _ _ Hp Hs' Ha) in Hk. }
    rewrite Hidle.
    assert (String.eqb (status st) "success" && try_ st
            && truthy (approved_by st) = false) as ->.
    { apply not_true_is_false.
      intros [[Hs'%String.eqb_eq Ht']%andb_prop Ha]%andb_prop.
      apply Hst. split; [done|]. split; [done|]. by destruct (approved_by st). }
    simpl. rewrite IH; [done| |done]. by exists p.
Qed.

(** X26. While a PR of a repository is pending and not a try, and no
    approved PR has a successful try, the first loop over the queue of the
    repository does nothing: the pending PR sorts before every PR that
    waits with an approval, and the loop breaks when it reaches it. *)
Theorem X26_pending_blocks_queue (repo_cfgs : gmap string repo_cfg)
    (an : Z → Answers) (repo_states : gmap Z PullReqState) (w : World) :
  (∃ k p, repo_states !! k = Some p ∧ status p = "pending"
          ∧ try_ p = false) →
  (∀ k st, repo_states !! k = Some st →
     ¬ (status st = "success" ∧ try_ st = true ∧ approved_by st ≠ "")) →
  visit_all (λ k, first_visit repo_cfgs (an k))
    (sorted_items (map_to_list repo_states)) w
  = (Return false, sorted_items (map_to_list repo_states), w).
Proof.
  intros (k & p & Hk & Hp & Ht) Hall. apply visit_all_blocked.
  - apply sorted_items_sorted.
  - exists (k, p). split; [|done].
    rewrite sorted_items_Permutation. by apply elem_of_map_to_list.
  - apply Forall_forall. intros [k' st] Hin.
    rewrite sorted_items_Permutation in Hin.
    apply elem_of_map_to_list in Hin. by apply (Hall k').
Qed.

Lemma X26_pending_blocks_queue_witness :
  visit_all
    (λ k, first_visit {["repo" := Sample.travis_repo]} SampleQueue.answers)
    (sorted_items (map_to_list SampleQueue.two_prs)) Sample.world7
  = (Return false, sorted_items (map_to_list SampleQueue.two_prs),
     Sample.world7).
Proof.
  apply (X26_pending_blocks_queue {["repo" := Sample.travis_repo]}
           (λ _, SampleQueue.answers) SampleQueue.two_prs Sample.world7).
  - exists 10%Z, (Sample.pr10 None). by split.
  - intros k st H. unfold SampleQueue.two_prs in H.
    apply lookup_insert_Some in H as [[_ <-]|[_ H]];
      [intros [H _]; discriminate H|].
    apply lookup_insert_Some in H as [[_ <-]|[_ H]];
      [intros [H _]; discriminate H|].
    by rewrite lookup_empty in H.
Defined.
